(** * Weather fetcher: the ZIP range generator, the weekend calendar, the
      sample generator, the fetch loop, the CSV escaping and the ZIP validation

    Shallow embedding of the two single-page applications

      - [weatherfetcherapp1 (1)/app/page.tsx]  (the weekend variant), and
      - [app/page.tsx]                         (the standard variant),

    followed by the properties their specification states about them.

    Conventions.  A JavaScript string is a [string]; each [ascii] stands for
    one UTF-16 code unit below 256.  A JavaScript number that the source only
    uses as an integer (a loop counter, a day count, an HTTP status) is a [Z];
    a number that carries a temperature is an IEEE-754 double, [float].
    [undefined] is [None]. *)

From Stdlib Require Import ZArith List Bool Ascii String Lia.
From Stdlib Require QArith.
From Stdlib Require Import Sorting.Sorted Sorting.Permutation Sorting.Mergesort Orders.
Import ListNotations.

Local Open Scope string_scope.
Local Open Scope Z_scope.

(** ** Strings of the host language *)

Module JsString.

(** [String.prototype.includes] for a one-character needle. *)
Fixpoint includes_char (s : string) (c : ascii) : bool :=
  match s with
  | EmptyString => false
  | String a rest => if Ascii.eqb a c then true else includes_char rest c
  end.

(** [Array.prototype.join]. *)
Definition join (sep : string) (l : list string) : string := String.concat sep l.

(** [s.repeat(n)]. *)
Fixpoint repeat (s : string) (n : nat) : string :=
  match n with
  | O => EmptyString
  | S n' => s ++ repeat s n'
  end.

(** [String.prototype.padStart(targetLength, padString)]: the filler is
    [padString] repeated and cut to the missing length. *)
Definition padStart (s : string) (targetLength : nat) (padString : string) : string :=
  let len := String.length s in
  if (targetLength <=? len)%nat then s
  else if (String.length padString =? 0)%nat then s
  else
    let fillLen := (targetLength - len)%nat in
    String.substring 0 fillLen (repeat padString fillLen) ++ s.

Definition is_digit (c : ascii) : bool :=
  let n := nat_of_ascii c in ((48 <=? n) && (n <=? 57))%nat.

(** [!s]: the empty string is the one false string. *)
Definition is_empty (s : string) : bool :=
  match s with EmptyString => true | String _ _ => false end.

(** The line feed character. *)
Definition newline : ascii := "010"%char.

(** The double quote character. *)
Definition dquote : ascii := "034"%char.

(** White space and line terminators among the code units below 256: what
    [trim] removes and what [\s] matches. *)
Definition is_space (c : ascii) : bool :=
  let n := nat_of_ascii c in
  (((9 <=? n) && (n <=? 13)) || (n =? 32) || (n =? 160))%nat.

Fixpoint trimStart (s : string) : string :=
  match s with
  | EmptyString => EmptyString
  | String c rest => if is_space c then trimStart rest else s
  end.

(** [trimEnd], by recursion from the right end. *)
Fixpoint trimEnd (s : string) : string :=
  match s with
  | EmptyString => EmptyString
  | String c rest =>
      match trimEnd rest with
      | EmptyString => if is_space c then EmptyString else String c EmptyString
      | rest' => String c rest'
      end
  end.

Definition trim (s : string) : string := trimEnd (trimStart s).

(** [s.split(sep)] for a one-character separator: never empty. *)
Fixpoint split_char (sep : ascii) (s : string) : list string :=
  match s with
  | EmptyString => [EmptyString]
  | String c rest =>
      if Ascii.eqb c sep then EmptyString :: split_char sep rest
      else match split_char sep rest with
           | h :: t => String c h :: t
           | [] => [String c EmptyString]
           end
  end.

(** [s.split(/[...]+/)] for a character class [sep]: the pieces between
    the maximal runs of separators.  [in_run] tells that the previous
    character was a separator. *)
Fixpoint split_runs (sep : ascii -> bool) (in_run : bool) (s : string) : list string :=
  match s with
  | EmptyString => [EmptyString]
  | String c rest =>
      if sep c then
        if in_run then split_runs sep true rest
        else EmptyString :: split_runs sep true rest
      else match split_runs sep false rest with
           | h :: t => String c h :: t
           | [] => [String c EmptyString]
           end
  end.

(** [s.replace] of the global pattern for one double quote by two of
    them. *)
Fixpoint double_quotes (s : string) : string :=
  match s with
  | EmptyString => EmptyString
  | String c rest =>
      if Ascii.eqb c dquote then String dquote (String dquote (double_quotes rest))
      else String c (double_quotes rest)
  end.

(** The decimal digit of a value below ten. *)
Definition digit_char (d : Z) : ascii := ascii_of_nat (48 + Z.to_nat d).

(** The digits of a non-negative integer, most significant first; [fuel]
    bounds the number of digits. *)
Fixpoint digits_of (fuel : nat) (n : Z) (acc : string) : string :=
  match fuel with
  | O => acc
  | S fuel' =>
      let acc' := String (digit_char (n mod 10)) acc in
      if n / 10 =? 0 then acc' else digits_of fuel' (n / 10) acc'
  end.

(** [Number.prototype.toString()] on an integer-valued number below 1e21. *)
Definition int_toString (n : Z) : string :=
  if n <? 0 then String "-" (digits_of (S (Z.to_nat (Z.log2 (- n)))) (- n) EmptyString)
  else digits_of (S (Z.to_nat (Z.log2 n))) n EmptyString.

End JsString.

(** The order [Array.prototype.sort] uses without a comparator: strings are
    compared code unit by code unit, a proper prefix first. *)
Module CodeUnitOrder <: TotalLeBool.
Definition t := string.
Definition leb (a b : string) : bool := String.leb a b.
Lemma leb_total : forall a b, leb a b = true \/ leb b a = true.
Proof. exact String.leb_total. Qed.
End CodeUnitOrder.

Module StringSort := Sort CodeUnitOrder.

(** ** The weekend variant: the ZIP range generator *)

Module ZipRanges.

Record ZipRange := { start : Z; end_ : Z }.

(** The table [zipRanges] of [generateAllZipCodesForState]. *)
Definition zipRanges : list (string * ZipRange) :=
  [ ("AL", {| start := 35004; end_ := 36925 |});
    ("AK", {| start := 99501; end_ := 99950 |});
    ("AZ", {| start := 85001; end_ := 86556 |});
    ("AR", {| start := 71601; end_ := 72959 |});
    ("CA", {| start := 90001; end_ := 96162 |});
    ("CO", {| start := 80001; end_ := 81658 |});
    ("CT", {| start := 6001; end_ := 6928 |});
    ("DE", {| start := 19701; end_ := 19980 |});
    ("FL", {| start := 32003; end_ := 34997 |});
    ("GA", {| start := 30002; end_ := 31999 |});
    ("HI", {| start := 96701; end_ := 96898 |});
    ("ID", {| start := 83201; end_ := 83877 |});
    ("IL", {| start := 60001; end_ := 62999 |});
    ("IN", {| start := 46001; end_ := 47997 |});
    ("IA", {| start := 50001; end_ := 52809 |});
    ("KS", {| start := 66002; end_ := 67954 |});
    ("KY", {| start := 40003; end_ := 42788 |});
    ("LA", {| start := 70001; end_ := 71497 |});
    ("ME", {| start := 3901; end_ := 4992 |});
    ("MD", {| start := 20601; end_ := 21930 |});
    ("MA", {| start := 1001; end_ := 5544 |});
    ("MI", {| start := 48001; end_ := 49971 |});
    ("MN", {| start := 55001; end_ := 56763 |});
    ("MS", {| start := 38601; end_ := 39776 |});
    ("MO", {| start := 63001; end_ := 65899 |});
    ("MT", {| start := 59001; end_ := 59937 |});
    ("NE", {| start := 68001; end_ := 69367 |});
    ("NV", {| start := 89001; end_ := 89883 |});
    ("NH", {| start := 3031; end_ := 3897 |});
    ("NJ", {| start := 7001; end_ := 8989 |});
    ("NM", {| start := 87001; end_ := 88441 |});
    ("NY", {| start := 10001; end_ := 14925 |});
    ("NC", {| start := 27006; end_ := 28909 |});
    ("ND", {| start := 58001; end_ := 58856 |});
    ("OH", {| start := 43001; end_ := 45999 |});
    ("OK", {| start := 73001; end_ := 74966 |});
    ("OR", {| start := 97001; end_ := 97920 |});
    ("PA", {| start := 15001; end_ := 19640 |});
    ("RI", {| start := 2801; end_ := 2940 |});
    ("SC", {| start := 29001; end_ := 29945 |});
    ("SD", {| start := 57001; end_ := 57799 |});
    ("TN", {| start := 37010; end_ := 38589 |});
    ("TX", {| start := 73301; end_ := 88595 |});
    ("UT", {| start := 84001; end_ := 84791 |});
    ("VT", {| start := 5001; end_ := 5907 |});
    ("VA", {| start := 20101; end_ := 24658 |});
    ("WA", {| start := 98001; end_ := 99403 |});
    ("WV", {| start := 24701; end_ := 26886 |});
    ("WI", {| start := 53001; end_ := 54990 |});
    ("WY", {| start := 82001; end_ := 83128 |}) ].

(** [zipRanges[stateCode]]: the own property of that name, if any.  (A name
    inherited from [Object.prototype] yields an object without [start] and
    [end], on which every loop below runs zero times: the result is [[]]
    as for an absent key.) *)
Fixpoint lookup (stateCode : string) (table : list (string * ZipRange)) : option ZipRange :=
  match table with
  | [] => None
  | (k, r) :: rest => if String.eqb k stateCode then Some r else lookup stateCode rest
  end.

(** The state codes the generator supports: the keys of the table. *)
Definition supported (stateCode : string) : Prop :=
  In stateCode (map fst zipRanges).

(** [for (let zip = from; zip <= to; zip++) zips.push(body(zip))], as
    [count] remaining iterations from [zip]. *)
Fixpoint push_loop (count : nat) (zip : Z) (body : Z -> string) (zips : list string)
  : list string :=
  match count with
  | O => zips
  | S count' => push_loop count' (zip + 1) body (zips ++ [body zip])
  end.

Definition for_range (from to : Z) (body : Z -> string) (zips : list string) : list string :=
  push_loop (Z.to_nat (to + 1 - from)) from body zips.

(** The condition on [stateCode] that guards [padStart]. *)
Definition padded_state (stateCode : string) : bool :=
  String.eqb stateCode "CT" || String.eqb stateCode "MA" || String.eqb stateCode "ME"
  || String.eqb stateCode "NH" || String.eqb stateCode "RI" || String.eqb stateCode "VT".

(** The body of the main loop. *)
Definition format_zip (stateCode : string) (zip : Z) : string :=
  let zipStr := JsString.int_toString zip in
  if padded_state stateCode then JsString.padStart zipStr 5 "0" else zipStr.

(** [new Set(zips)], spread back into an array: the distinct strings in the
    order of their first occurrence. *)
Definition Set_add (s : list string) (x : string) : list string :=
  if existsb (String.eqb x) s then s else s ++ [x].

Definition new_Set (zips : list string) : list string := fold_left Set_add zips [].

(** The pushes of [generateAllZipCodesForState], before deduplication. *)
Definition pushed_zips (stateCode : string) (range : ZipRange) : list string :=
  let zips := for_range (start range) (end_ range) (format_zip stateCode) [] in
  let zips :=
    if String.eqb stateCode "NY"
    then for_range 10001 11697 JsString.int_toString zips else zips in
  let zips :=
    if String.eqb stateCode "CA"
    then for_range 93001 96162 JsString.int_toString zips else zips in
  let zips :=
    if String.eqb stateCode "TX"
    then for_range 77001 77999 JsString.int_toString
           (for_range 75001 79999 JsString.int_toString zips)
    else zips in
  zips.

(** [generateAllZipCodesForState].  For a name that is no key of the
    table the result is empty: [zipRanges[stateCode]] is [undefined], or a
    member the table inherits, whose [start] and [end] are [undefined], so
    that no loop runs. *)
Definition generateAllZipCodesForState (stateCode : string) : list string :=
  match lookup stateCode zipRanges with
  | None => []
  | Some range => StringSort.sort (new_Set (pushed_zips stateCode range))
  end.

(** The test [/^\d{5}$/]. *)
Definition matches_five_digits (s : string) : bool :=
  (String.length s =? 5)%nat && forallb JsString.is_digit (list_ascii_of_string s).

End ZipRanges.

(** ** Dates of the host language

    A [Date] is its time value: milliseconds since the epoch, in UTC.  The
    accessors the source uses read it in local time; the offset of local time
    from UTC, [LocalTZA], is a constant of the host (daylight saving changes
    are not modelled: they move a time value by an hour and leave the local
    calendar day and the local time of day of every date below unchanged).
    Time values are integers without bound: [TimeClip], which turns a time
    value beyond 8.64e15 milliseconds either side of the epoch into an
    invalid date, is left out. *)

Module JsDate.

Definition msPerDay : Z := 86400000.

Definition Day (t : Z) : Z := t / msPerDay.
Definition TimeWithinDay (t : Z) : Z := t mod msPerDay.
Definition MakeDate (day time : Z) : Z := day * msPerDay + time.

(** [WeekDay]: 0 is Sunday; the epoch was a Thursday. *)
Definition WeekDay (t : Z) : Z := (Day t + 4) mod 7.

(** The proleptic Gregorian calendar, by 400-year eras of 146097 days that
    start on a first of March.  [doe] is the day of the era, [yoe] the
    March-based year of the era, [m] a month from 1 to 12. *)
Definition daysPerEra : Z := 146097.
Definition eraShift : Z := 719468.

Definition yoe_of_doe (doe : Z) : Z :=
  (doe - doe / 1460 + doe / 36524 - doe / 146096) / 365.

Definition doy_of_doe (doe : Z) : Z :=
  let yoe := yoe_of_doe doe in doe - (365 * yoe + yoe / 4 - yoe / 100).

Definition month_of_doe (doe : Z) : Z :=
  let mp := (5 * doy_of_doe doe + 2) / 153 in
  if mp <? 10 then mp + 3 else mp - 9.

Definition date_of_doe (doe : Z) : Z :=
  let doy := doy_of_doe doe in
  let mp := (5 * doy + 2) / 153 in
  doy - (153 * mp + 2) / 5 + 1.

Definition doe_of_civil (yoe m d : Z) : Z :=
  let mp := (m + 9) mod 12 in
  let doy := (153 * mp + 2) / 5 + d - 1 in
  yoe * 365 + yoe / 4 - yoe / 100 + doy.

(** The day number of the civil date [y]-[m]-[d] ([m] from 1 to 12). *)
Definition DayFromCivil (y m d : Z) : Z :=
  let y' := if m <=? 2 then y - 1 else y in
  (y' / 400) * daysPerEra + doe_of_civil (y' mod 400) m d - eraShift.

Definition eraOfDay (day : Z) : Z := (day + eraShift) / daysPerEra.
Definition doeOfDay (day : Z) : Z := (day + eraShift) mod daysPerEra.

Definition YearFromDay (day : Z) : Z :=
  let doe := doeOfDay day in
  yoe_of_doe doe + eraOfDay day * 400 + (if month_of_doe doe <=? 2 then 1 else 0).

(** Months count from 0, as [MonthFromTime] does. *)
Definition MonthFromDay (day : Z) : Z := month_of_doe (doeOfDay day) - 1.
Definition DateFromDay (day : Z) : Z := date_of_doe (doeOfDay day).

Definition YearFromTime (t : Z) : Z := YearFromDay (Day t).
Definition MonthFromTime (t : Z) : Z := MonthFromDay (Day t).
Definition DateFromTime (t : Z) : Z := DateFromDay (Day t).

(** [MakeDay(year, month, date)]: the month may lie outside 0..11 and the
    date outside the month; both carry over. *)
Definition MakeDay (year month date : Z) : Z :=
  DayFromCivil (year + month / 12) (month mod 12 + 1) 1 + date - 1.

Definition is_leap (y : Z) : bool :=
  (y mod 4 =? 0) && (negb (y mod 100 =? 0) || (y mod 400 =? 0)).

(** Days of month [m] (1 to 12) of year [y]. *)
Definition days_in_month (y m : Z) : Z :=
  if m =? 2 then (if is_leap y then 29 else 28)
  else if (m =? 4) || (m =? 6) || (m =? 9) || (m =? 11) then 30
  else 31.

Definition Date := Z.

Section Local.

Variable LocalTZA : Z.

Definition LocalTime (t : Z) : Z := t + LocalTZA.
Definition UTC (t : Z) : Z := t - LocalTZA.

Definition getDay (d : Date) : Z := WeekDay (LocalTime d).
Definition getDate (d : Date) : Z := DateFromTime (LocalTime d).
Definition getMonth (d : Date) : Z := MonthFromTime (LocalTime d).
Definition getFullYear (d : Date) : Z := YearFromTime (LocalTime d).

(** [d.setDate(dt)], returning the updated date. *)
Definition setDate (d : Date) (dt : Z) : Date :=
  let t := LocalTime d in
  UTC (MakeDate (MakeDay (YearFromTime t) (MonthFromTime t) dt) (TimeWithinDay t)).

(** [d.setFullYear(y)], returning the updated date. *)
Definition setFullYear (d : Date) (y : Z) : Date :=
  let t := LocalTime d in
  UTC (MakeDate (MakeDay y (MonthFromTime t) (DateFromTime t)) (TimeWithinDay t)).

End Local.

Definition monthShort : list string :=
  ["Jan"; "Feb"; "Mar"; "Apr"; "May"; "Jun"; "Jul"; "Aug"; "Sep"; "Oct"; "Nov"; "Dec"].

Definition monthLong : list string :=
  ["January"; "February"; "March"; "April"; "May"; "June"; "July"; "August";
   "September"; "October"; "November"; "December"].

Definition weekdayLong : list string :=
  ["Sunday"; "Monday"; "Tuesday"; "Wednesday"; "Thursday"; "Friday"; "Saturday"].

Definition pad2 (n : Z) : string := JsString.padStart (JsString.int_toString n) 2 "0".

(** The year of an ISO date: four digits from 0 to 9999, else a sign and
    six digits. *)
Definition isoYear (y : Z) : string :=
  if (0 <=? y) && (y <=? 9999) then JsString.padStart (JsString.int_toString y) 4 "0"
  else (if y <? 0 then "-" else "+")
         ++ JsString.padStart (JsString.int_toString (Z.abs y)) 6 "0".

End JsDate.

(** ** Numbers of the host language

    A number is an IEEE-754 double; the four arithmetic operations are the
    primitive ones of [float]. *)

From Stdlib Require Import Floats.

Module JsNumber.

(** The number nearest to an integer (ties to even), infinite beyond the
    range of doubles. *)
Definition of_Z (z : Z) : float := SF2Prim (binary_normalize prec emax z 0 false).

(** The value of an integer-valued finite number. *)
Definition to_integer (x : float) : option Z :=
  match Prim2SF x with
  | S754_zero _ => Some 0
  | S754_finite s m e =>
      if 0 <=? e then Some (cond_Zopp s (Zpos m * 2 ^ e))
      else if Zpos m mod 2 ^ (- e) =? 0 then Some (cond_Zopp s (Zpos m / 2 ^ (- e)))
      else None
  | _ => None
  end.

(** [Math.floor]: a number with a non-negative exponent is integral. *)
Definition Math_floor (x : float) : float :=
  match Prim2SF x with
  | S754_finite s m e =>
      if e <? 0 then of_Z (cond_Zopp s (Zpos m) / 2 ^ (- e)) else x
  | _ => x
  end.

(** [Math.round]: the nearest integer, a tie going up; a result of zero
    keeps the sign of the argument. *)
Definition Math_round (x : float) : float :=
  match Prim2SF x with
  | S754_finite s m e =>
      if e <? 0 then
        let n := (2 * cond_Zopp s (Zpos m) + 2 ^ (- e)) / 2 ^ (- e + 1) in
        if (n =? 0) && s then neg_zero else of_Z n
      else x
  | _ => x
  end.

(** [ToBoolean] on a number: zero and NaN are false. *)
Definition truthy (x : float) : bool := negb (is_zero x || is_nan x).

(** [a || b] on numbers. *)
Definition or_else (a b : float) : float := if truthy a then a else b.

(** [array[i]] for a number [i]: an element when [i] is an integer within
    the array, [undefined] otherwise. *)
Definition array_get {A : Type} (l : list A) (i : float) : option A :=
  match to_integer i with
  | Some n => if 0 <=? n then nth_error l (Z.to_nat n) else None
  | None => None
  end.

(** [String(x)] for a number.  An integer of at most 2^53 in absolute
    value is written with all its digits, which are then the shortest that
    read back as the number; the digits of every other number are left to
    [other]. *)
Definition Number_toString (other : float -> string) (x : float) : string :=
  if is_nan x then "NaN"
  else if (x =? infinity)%float then "Infinity"
  else if (x =? neg_infinity)%float then "-Infinity"
  else match to_integer x with
       | Some n => if Z.abs n <=? 2 ^ 53 then JsString.int_toString n else other x
       | None => other x
       end.

Definition digit_value (radix : Z) (c : ascii) : option Z :=
  let n := Z.of_nat (nat_of_ascii c) in
  let v := if (48 <=? n) && (n <=? 57) then n - 48
           else if (97 <=? n) && (n <=? 122) then n - 87
           else if (65 <=? n) && (n <=? 90) then n - 55
           else radix in
  if v <? radix then Some v else None.

(** The value of the longest prefix of digits of [s], with the number of
    digits read. *)
Fixpoint read_digits (radix : Z) (s : string) (acc : Z) (count : nat) : Z * nat :=
  match s with
  | EmptyString => (acc, count)
  | String c rest =>
      match digit_value radix c with
      | Some v => read_digits radix rest (acc * radix + v) (S count)
      | None => (acc, count)
      end
  end.

(** The mathematical value [Number.parseInt(s)] reads, sign applied, or
    [None] where it returns NaN: leading white space is skipped, a sign
    and a hexadecimal prefix are accepted, and reading stops at the first
    character that is not a digit.  (Past twenty significant digits an
    engine may read the further digits as zeros; here all digits count.) *)
Definition parseInt_value (s : string) : option Z :=
  let s1 := JsString.trimStart s in
  let '(negative, s2) :=
    match s1 with
    | String "-" rest => (true, rest)
    | String "+" rest => (false, rest)
    | _ => (false, s1)
    end in
  let '(radix, s3) :=
    match s2 with
    | String "0" (String "x" rest) => (16, rest)
    | String "0" (String "X" rest) => (16, rest)
    | _ => (10, s2)
    end in
  match read_digits radix s3 0 0 with
  | (_, O) => None
  | (v, _) => Some (if negative then - v else v)
  end.

(** [Number.parseInt(s)]. *)
Definition parseInt (s : string) : float :=
  match parseInt_value s with
  | None => nan
  | Some v => if v =? 0 then (if match JsString.trimStart s with
                                 | String "-" _ => true | _ => false end
                              then neg_zero else zero)
              else of_Z v
  end.

End JsNumber.

(** ** Objects of the host language *)

Module JsObject.

(** The members every object literal inherits from [Object.prototype], by
    name, each with the [name] it holds: a function holds its name, and
    [__proto__] gives the prototype itself, an object without a [name]. *)
Definition prototype_members : list (string * option string) :=
  [ ("constructor", Some "Object");
    ("hasOwnProperty", Some "hasOwnProperty");
    ("isPrototypeOf", Some "isPrototypeOf");
    ("propertyIsEnumerable", Some "propertyIsEnumerable");
    ("toLocaleString", Some "toLocaleString");
    ("toString", Some "toString");
    ("valueOf", Some "valueOf");
    ("__defineGetter__", Some "__defineGetter__");
    ("__defineSetter__", Some "__defineSetter__");
    ("__lookupGetter__", Some "__lookupGetter__");
    ("__lookupSetter__", Some "__lookupSetter__");
    ("__proto__", None) ].

(** [table[key].name] for a [key] that is no own key of the object literal
    [table]: [None] when [table[key]] is [undefined], and otherwise the
    [name] of the inherited member, itself possibly [undefined]. *)
Fixpoint inherited_name_in (members : list (string * option string)) (key : string)
  : option (option string) :=
  match members with
  | [] => None
  | (k, n) :: rest => if String.eqb k key then Some n else inherited_name_in rest key
  end.

Definition inherited_name (key : string) : option (option string) :=
  inherited_name_in prototype_members key.

(** A possibly absent string in a template literal. *)
Definition in_template (s : option string) : string :=
  match s with
  | Some v => v
  | None => "undefined"
  end.

End JsObject.

(** ** The weekend variant: data, host and component state *)

Module Weekend.

Import JsDate JsNumber.

(** The union of string literals of [status]. *)
Inductive Status := Processing | Completed | Error.

(** [interface ProgressUpdate]. *)
Module ProgressUpdate.
Record t := {
  current : Z;
  total : Z;
  zip_code : string;
  status : Status;
  message : option string
}.
End ProgressUpdate.

(** [interface WeekendWeatherData].  A description is [None] where the
    source stores [undefined] (an index outside [weatherDescriptions]), and
    so are a city and a state (those of a ZIP code that names an inherited
    member of [cities]). *)
Record WeekendWeatherData := {
  zip_code : string;
  city : option string;
  state : option string;
  this_friday_date : string;
  this_friday_high : float;
  this_friday_description : option string;
  this_saturday_date : string;
  this_saturday_high : float;
  this_saturday_description : option string;
  this_sunday_date : string;
  this_sunday_high : float;
  this_sunday_description : option string;
  last_year_friday_date : string;
  last_year_friday_high : float;
  last_year_friday_description : option string;
  last_year_saturday_date : string;
  last_year_saturday_high : float;
  last_year_saturday_description : option string;
  last_year_sunday_date : string;
  last_year_sunday_high : float;
  last_year_sunday_description : option string;
  next_friday_date : string;
  next_friday_high : float;
  next_friday_description : option string;
  next_saturday_date : string;
  next_saturday_high : float;
  next_saturday_description : option string;
  next_sunday_date : string;
  next_sunday_high : float;
  next_sunday_description : option string
}.

(** One entry of [days] in a provider answer: the two elements the query
    asks for, a number and a string, each possibly absent. *)
Record DayEntry := { tempmax : option float; conditions : option string }.

(** The members of an answer the page reads: [resolvedAddress], a string,
    and [days], an array of entries, each possibly absent.  An answer that
    is a number, a string, a truth value or an array has neither. *)
Record Payload := { resolvedAddress : option string; days : option (list DayEntry) }.

(** A parsed answer: [null], or a value with members. *)
Inductive JsonValue := JsonNull | JsonObject (members : Payload).
Coercion JsonObject : Payload >-> JsonValue.

(** What [response.json()] gives: the parsed answer, or a rejection. *)
Inductive Body := BadJson (reason : string) | Json (data : JsonValue).

(** The reads of [fetchWeekendWeatherForZip] that throw a [TypeError]: a
    member of an answer that is [null], and the first element of [days]
    where an answer has no [days]. *)
Inductive Unreadable :=
| forecast_null | forecast_days_absent | historical_null | historical_days_absent.

(** What [fetch(url)] gives: a rejection (no answer at all), or an answer
    with its HTTP status. *)
Inductive FetchOutcome := Rejected (reason : string) | Responded (status : Z) (body : Body).

(** [response.ok]. *)
Definition ok (status : Z) : bool := (200 <=? status) && (status <=? 299).

(** What the page takes from its surroundings and does not determine: the
    time zone, the sine of the engine, the digits of a number that is not
    an integer, the message of the engine's [TypeError] for a read that
    throws, the local rendering of a time of day, and the three streams the
    page reads from (the clock at each [new Date()], the values of
    [Math.random()], the answer to each request in order), and whether the
    user presses the stop button while the page waits at its n-th
    [await]. *)
Record Host := {
  LocalTZA : Z;
  Math_sin : float -> float;
  Number_digits : float -> string;
  TypeError_message : Unreadable -> string;
  toLocaleTimeString : Date -> string;
  clock : nat -> Date;
  entropy : nat -> float;
  network : nat -> string -> FetchOutcome;
  stop_pressed : nat -> bool
}.

(** The state of the component ([useState]) and the positions in the
    streams of the host. *)
Record State := {
  apiKey : string;
  zipCodes : string;
  isProcessing : bool;
  progress : option ProgressUpdate.t;
  logs : list string;
  weatherData : list WeekendWeatherData;
  error_ : option string;
  previewData : list WeekendWeatherData;
  showPreview : bool;
  testMode : bool;
  clock_reads : nat;
  entropy_reads : nat;
  requests : nat;
  awaits : nat
}.

(** The state after the first render. *)
Definition initial : State :=
  {| apiKey := EmptyString; zipCodes := EmptyString; isProcessing := false;
     progress := None; logs := []; weatherData := []; error_ := None;
     previewData := []; showPreview := false; testMode := true;
     clock_reads := O; entropy_reads := O; requests := O; awaits := O |}.

(** *** Stateful computations *)

Definition M (A : Type) : Type := State -> A * State.

Definition ret {A : Type} (a : A) : M A := fun s => (a, s).

Definition bind {A B : Type} (c : M A) (k : A -> M B) : M B :=
  fun s => let (a, s') := c s in k a s'.

Definition modify (f : State -> State) : M unit := fun s => (tt, f s).

Declare Scope weekend_scope.
Delimit Scope weekend_scope with weekend.
Notation "x <- c ;; k" := (bind c (fun x => k))
  (at level 61, c at next level, right associativity) : weekend_scope.
Notation "c ;; k" := (bind c (fun _ => k))
  (at level 61, right associativity) : weekend_scope.
Local Open Scope weekend_scope.

Definition setIsProcessing (b : bool) : M unit :=
  modify (fun s =>
    {| apiKey := apiKey s; zipCodes := zipCodes s; isProcessing := b;
       progress := progress s; logs := logs s; weatherData := weatherData s;
       error_ := error_ s; previewData := previewData s; showPreview := showPreview s;
       testMode := testMode s; clock_reads := clock_reads s;
       entropy_reads := entropy_reads s; requests := requests s; awaits := awaits s |}).

Definition setProgress (p : option ProgressUpdate.t) : M unit :=
  modify (fun s =>
    {| apiKey := apiKey s; zipCodes := zipCodes s; isProcessing := isProcessing s;
       progress := p; logs := logs s; weatherData := weatherData s;
       error_ := error_ s; previewData := previewData s; showPreview := showPreview s;
       testMode := testMode s; clock_reads := clock_reads s;
       entropy_reads := entropy_reads s; requests := requests s; awaits := awaits s |}).

(** [setLogs(f)] with an updater [f]. *)
Definition setLogs (f : list string -> list string) : M unit :=
  modify (fun s =>
    {| apiKey := apiKey s; zipCodes := zipCodes s; isProcessing := isProcessing s;
       progress := progress s; logs := f (logs s); weatherData := weatherData s;
       error_ := error_ s; previewData := previewData s; showPreview := showPreview s;
       testMode := testMode s; clock_reads := clock_reads s;
       entropy_reads := entropy_reads s; requests := requests s; awaits := awaits s |}).

Definition setWeatherData (d : list WeekendWeatherData) : M unit :=
  modify (fun s =>
    {| apiKey := apiKey s; zipCodes := zipCodes s; isProcessing := isProcessing s;
       progress := progress s; logs := logs s; weatherData := d;
       error_ := error_ s; previewData := previewData s; showPreview := showPreview s;
       testMode := testMode s; clock_reads := clock_reads s;
       entropy_reads := entropy_reads s; requests := requests s; awaits := awaits s |}).

Definition setError (e : option string) : M unit :=
  modify (fun s =>
    {| apiKey := apiKey s; zipCodes := zipCodes s; isProcessing := isProcessing s;
       progress := progress s; logs := logs s; weatherData := weatherData s;
       error_ := e; previewData := previewData s; showPreview := showPreview s;
       testMode := testMode s; clock_reads := clock_reads s;
       entropy_reads := entropy_reads s; requests := requests s; awaits := awaits s |}).

Definition setPreviewData (d : list WeekendWeatherData) : M unit :=
  modify (fun s =>
    {| apiKey := apiKey s; zipCodes := zipCodes s; isProcessing := isProcessing s;
       progress := progress s; logs := logs s; weatherData := weatherData s;
       error_ := error_ s; previewData := d; showPreview := showPreview s;
       testMode := testMode s; clock_reads := clock_reads s;
       entropy_reads := entropy_reads s; requests := requests s; awaits := awaits s |}).

Definition setShowPreview (b : bool) : M unit :=
  modify (fun s =>
    {| apiKey := apiKey s; zipCodes := zipCodes s; isProcessing := isProcessing s;
       progress := progress s; logs := logs s; weatherData := weatherData s;
       error_ := error_ s; previewData := previewData s; showPreview := b;
       testMode := testMode s; clock_reads := clock_reads s;
       entropy_reads := entropy_reads s; requests := requests s; awaits := awaits s |}).

(** The positions in the streams, advanced by one read each. *)
Definition tick_clock : M unit :=
  modify (fun s =>
    {| apiKey := apiKey s; zipCodes := zipCodes s; isProcessing := isProcessing s;
       progress := progress s; logs := logs s; weatherData := weatherData s;
       error_ := error_ s; previewData := previewData s; showPreview := showPreview s;
       testMode := testMode s; clock_reads := S (clock_reads s);
       entropy_reads := entropy_reads s; requests := requests s; awaits := awaits s |}).

Definition tick_entropy : M unit :=
  modify (fun s =>
    {| apiKey := apiKey s; zipCodes := zipCodes s; isProcessing := isProcessing s;
       progress := progress s; logs := logs s; weatherData := weatherData s;
       error_ := error_ s; previewData := previewData s; showPreview := showPreview s;
       testMode := testMode s; clock_reads := clock_reads s;
       entropy_reads := S (entropy_reads s); requests := requests s; awaits := awaits s |}).

Definition tick_requests : M unit :=
  modify (fun s =>
    {| apiKey := apiKey s; zipCodes := zipCodes s; isProcessing := isProcessing s;
       progress := progress s; logs := logs s; weatherData := weatherData s;
       error_ := error_ s; previewData := previewData s; showPreview := showPreview s;
       testMode := testMode s; clock_reads := clock_reads s;
       entropy_reads := entropy_reads s; requests := S (requests s); awaits := awaits s |}).

Definition tick_awaits : M unit :=
  modify (fun s =>
    {| apiKey := apiKey s; zipCodes := zipCodes s; isProcessing := isProcessing s;
       progress := progress s; logs := logs s; weatherData := weatherData s;
       error_ := error_ s; previewData := previewData s; showPreview := showPreview s;
       testMode := testMode s; clock_reads := clock_reads s;
       entropy_reads := entropy_reads s; requests := requests s; awaits := S (awaits s) |}).

(** The pictographs that open some log lines, as the source file holds
    them (its only text beyond the code units below 256, kept as the bytes
    of the file). *)
Module Glyph.
Definition antenna : string := "üì°".
Definition test_tube : string := "üß™".
Definition rocket : string := "üöÄ".
Definition calendar : string := "üìÖ".
Definition check_mark : string := "‚úÖ".
Definition cross_mark : string := "‚ùå".
Definition hourglass : string := "‚è≥".
Definition party : string := "üéâ".
Definition warning : string := "‚ö†Ô∏è".
Definition stop_sign : string := "üõë".
Definition degree : string := "¬∞".
End Glyph.

(** *** The weekend calendar *)

Record WeekendDates := {
  thisFriday : Date;
  thisSaturday : Date;
  thisSunday : Date;
  nextFriday : Date;
  nextSaturday : Date;
  nextSunday : Date;
  lastYearFriday : Date;
  lastYearSaturday : Date;
  lastYearSunday : Date
}.

(** The chain of tests on [currentDay] in [getWeekendDates]. *)
Definition daysUntilFriday (currentDay : Z) : Z :=
  if currentDay =? 0 then 5
  else if currentDay =? 1 then 4
  else if currentDay =? 2 then 3
  else if currentDay =? 3 then 2
  else if currentDay =? 4 then 1
  else if currentDay =? 5 then 0
  else 6.

Section WithTimeZone.

Variable tza : Z.

(** The body of [getWeekendDates] once [today] is known. *)
Definition weekendDatesOf (today : Date) : WeekendDates :=
  let currentDay := getDay tza today in
  let thisFriday := setDate tza today (getDate tza today + daysUntilFriday currentDay) in
  let thisSaturday := setDate tza thisFriday (getDate tza thisFriday + 1) in
  let thisSunday := setDate tza thisFriday (getDate tza thisFriday + 2) in
  let nextFriday := setDate tza thisFriday (getDate tza thisFriday + 7) in
  let nextSaturday := setDate tza nextFriday (getDate tza nextFriday + 1) in
  let nextSunday := setDate tza nextFriday (getDate tza nextFriday + 2) in
  let lastYearFriday := setFullYear tza thisFriday (getFullYear tza thisFriday - 1) in
  let lastYearSaturday := setFullYear tza thisSaturday (getFullYear tza thisSaturday - 1) in
  let lastYearSunday := setFullYear tza thisSunday (getFullYear tza thisSunday - 1) in
  {| thisFriday := thisFriday; thisSaturday := thisSaturday; thisSunday := thisSunday;
     nextFriday := nextFriday; nextSaturday := nextSaturday; nextSunday := nextSunday;
     lastYearFriday := lastYearFriday; lastYearSaturday := lastYearSaturday;
     lastYearSunday := lastYearSunday |}.

Definition nth_name (names : list string) (i : Z) : string :=
  nth (Z.to_nat i) names EmptyString.

(** [toLocaleDateString] in the locale en-US with a long weekday, a long
    month, the day and the year, as engines render a year of the common
    era. *)
Definition formatDate (date : Date) : string :=
  nth_name weekdayLong (getDay tza date) ++ ", "
  ++ nth_name monthLong (getMonth tza date) ++ " "
  ++ JsString.int_toString (getDate tza date) ++ ", "
  ++ JsString.int_toString (getFullYear tza date).

(** The same with a short month and no weekday. *)
Definition formatShortDate (date : Date) : string :=
  nth_name monthShort (getMonth tza date) ++ " "
  ++ JsString.int_toString (getDate tza date) ++ ", "
  ++ JsString.int_toString (getFullYear tza date).

End WithTimeZone.

(** [date.toISOString().split("T")[0]]: the calendar day in UTC. *)
Definition formatApiDate (date : Date) : string :=
  isoYear (YearFromTime date) ++ "-" ++ pad2 (MonthFromTime date + 1)
  ++ "-" ++ pad2 (DateFromTime date).

(** *** The sample generator, the provider queries and the fetch loop *)

Record City := { name : string; state_ : string }.

(** The table [cities] of [generateSampleWeekendData], by its own keys;
    [cities[zipCode]] finds the members it inherits as well. *)
Definition cities : list (string * City) :=
  [ ("10001", {| name := "New York"; state_ := "NY" |});
    ("90210", {| name := "Beverly Hills"; state_ := "CA" |});
    ("60601", {| name := "Chicago"; state_ := "IL" |});
    ("33101", {| name := "Miami"; state_ := "FL" |});
    ("02101", {| name := "Boston"; state_ := "MA" |});
    ("48001", {| name := "Algonac"; state_ := "MI" |});
    ("77001", {| name := "Houston"; state_ := "TX" |});
    ("30301", {| name := "Atlanta"; state_ := "GA" |});
    ("98101", {| name := "Seattle"; state_ := "WA" |});
    ("85001", {| name := "Phoenix"; state_ := "AZ" |}) ].

Fixpoint lookup_city (zipCode : string) (table : list (string * City)) : option City :=
  match table with
  | [] => None
  | (k, c) :: rest => if String.eqb k zipCode then Some c else lookup_city zipCode rest
  end.

Definition weatherDescriptions : list string :=
  [ "Sunny"; "Partly Cloudy"; "Cloudy"; "Light Rain"; "Heavy Rain"; "Thunderstorms";
    "Snow"; "Fog"; "Clear"; "Overcast" ].

Definition baseUrl : string :=
  "https://weather.visualcrossing.com/VisualCrossingWebServices/rest/services/timeline".

(** The expression applied to the forecast of this weekend, over any
    arithmetic: [((((x - 32) * 5) / 9) * 9) / 5 + 32]. *)
Definition unit_round_trip {T : Type} (add sub mul div : T -> T -> T) (of_int : Z -> T)
    (x : T) : T :=
  add (div (mul (div (mul (sub x (of_int 32)) (of_int 5)) (of_int 9)) (of_int 9)) (of_int 5))
      (of_int 32).

(** The same on the doubles of the page. *)
Definition fahrenheit_round_trip (x : float) : float :=
  unit_round_trip PrimFloat.add PrimFloat.sub PrimFloat.mul PrimFloat.div of_Z x.

(** [x - 32] and the like on a possibly absent number: [undefined] counts
    as NaN. *)
Definition number_or_nan (x : option float) : float :=
  match x with Some v => v | None => nan end.

(** [x || 0] on a possibly absent number. *)
Definition number_or_zero (x : option float) : float :=
  match x with Some v => or_else v zero | None => zero end.

(** [s || fallback] on a possibly absent string: the empty string is
    false. *)
Definition string_or (s : option string) (fallback : string) : string :=
  match s with
  | Some EmptyString => fallback
  | Some v => v
  | None => fallback
  end.

(** [days[i]?.tempmax] and [days[i]?.conditions], for the array
    [days]. *)
Definition tempmax_at (days : list DayEntry) (i : nat) : option float :=
  match nth_error days i with Some d => tempmax d | None => None end.

Definition conditions_at (days : list DayEntry) (i : nat) : option string :=
  match nth_error days i with Some d => conditions d | None => None end.

(** The message of the error thrown on an answer that is not [ok], for the
    historical query and for the forecast query. *)
Definition historical_error (status : Z) : string :=
  if status =? 401 then "Invalid API key - Please check your Visual Crossing API key"
  else if status =? 429 then "Rate limit exceeded - Please wait and try again"
  else if status =? 400 then "Invalid ZIP code or date range"
  else "Historical API Error " ++ JsString.int_toString status.

Definition forecast_error (status : Z) : string :=
  "Forecast API Error " ++ JsString.int_toString status.

(** What a call that may throw gives back: the message of the [Error]
    thrown, or its value. *)
Inductive Completion (A : Type) := Throw (reason : string) | Normal (value : A).
Arguments Throw {A} reason.
Arguments Normal {A} value.

Section WithHost.

Variable host : Host.

(** [new Date()]: the next value of the clock. *)
Definition new_Date : M Date :=
  fun s => (clock host (clock_reads s), snd (tick_clock s)).

Definition addLog (message : string) : M unit :=
  now <- new_Date ;;
  let line := toLocaleTimeString host now ++ ": " ++ message in
  setLogs (fun prev => app prev [line]).

Definition getWeekendDates : M WeekendDates :=
  today <- new_Date ;;
  ret (weekendDatesOf (LocalTZA host) today).

Definition stopFetching : M unit :=
  setIsProcessing false ;;
  addLog (Glyph.stop_sign ++ " Process stopped by user").

(** An [await]: the page is suspended, and the handler the user can reach
    meanwhile is the one of the stop button, which is on the page while
    [isProcessing] holds. *)
Definition await : M unit :=
  fun s =>
    let pressed := stop_pressed host (awaits s) && isProcessing s in
    let s' := snd (tick_awaits s) in
    if pressed then stopFetching s' else (tt, s').

(** [await fetch(url)]: the next answer of the network. *)
Definition fetch (url : string) : M FetchOutcome :=
  fun s =>
    let outcome := network host (requests s) url in
    let (_, s') := tick_requests s in
    let (_, s'') := await s' in
    (outcome, s'').

Definition toString (x : float) : string := Number_toString (Number_digits host) x.

(** The inner function [random] of [generateSampleWeekendData]. *)
Definition random (seed : float) : float :=
  let x := (Math_sin host seed * 10000)%float in
  (x - Math_floor x)%float.

Definition generateSampleWeekendData (zipCode : string) : M WeekendWeatherData :=
  let cityData : option string * option string :=
    match lookup_city zipCode cities with
    | Some c => (Some (name c), Some (state_ c))
    | None =>
        match JsObject.inherited_name zipCode with
        | Some member_name => (member_name, None)
        | None => (Some ("City " ++ zipCode), Some "XX")
        end
    end in
  dates <- getWeekendDates ;;
  let zipSeed := or_else (parseInt zipCode) 12345%float in
  let baseTemp := (40 + random zipSeed * 40)%float in
  let tempVariation := 15%float in
  let high (k : float) :=
    Math_round (baseTemp + (random (zipSeed + k) * tempVariation - tempVariation / 2))%float in
  let description (k : float) :=
    array_get weatherDescriptions
      (Math_floor (random (zipSeed + k)
                   * of_Z (Z.of_nat (List.length weatherDescriptions)))%float) in
  let short := formatShortDate (LocalTZA host) in
  ret {| zip_code := zipCode;
         city := fst cityData;
         state := snd cityData;
         this_friday_date := short (thisFriday dates);
         this_friday_high := high 1%float;
         this_friday_description := description 2%float;
         this_saturday_date := short (thisSaturday dates);
         this_saturday_high := high 3%float;
         this_saturday_description := description 4%float;
         this_sunday_date := short (thisSunday dates);
         this_sunday_high := high 5%float;
         this_sunday_description := description 6%float;
         last_year_friday_date := short (lastYearFriday dates);
         last_year_friday_high := high 7%float;
         last_year_friday_description := description 8%float;
         last_year_saturday_date := short (lastYearSaturday dates);
         last_year_saturday_high := high 9%float;
         last_year_saturday_description := description 10%float;
         last_year_sunday_date := short (lastYearSunday dates);
         last_year_sunday_high := high 11%float;
         last_year_sunday_description := description 12%float;
         next_friday_date := short (nextFriday dates);
         next_friday_high := high 13%float;
         next_friday_description := description 14%float;
         next_saturday_date := short (nextSaturday dates);
         next_saturday_high := high 15%float;
         next_saturday_description := description 16%float;
         next_sunday_date := short (nextSunday dates);
         next_sunday_high := high 17%float;
         next_sunday_description := description 18%float |}.

(** The object literal [fetchWeekendWeatherForZip] builds from the two
    answers.  Its members are evaluated in order: the city reads a member
    of the forecast, this Friday reads its [days], and last year's Friday
    the [days] of the historical answer; the first of these reads that
    fails throws. *)
Definition parse_result (zipCode : string) (dates : WeekendDates)
    (historicalData forecastData : JsonValue) : Completion WeekendWeatherData :=
  let short := formatShortDate (LocalTZA host) in
  let this_high (days : list DayEntry) (i : nat) :=
    or_else (Math_round (fahrenheit_round_trip (number_or_nan (tempmax_at days i)))) zero in
  let high (days : list DayEntry) (i : nat) :=
    Math_round (number_or_zero (tempmax_at days i)) in
  let conditions (days : list DayEntry) (i : nat) :=
    Some (string_or (conditions_at days i) "Unknown") in
  match forecastData with
  | JsonNull => Throw (TypeError_message host forecast_null)
  | JsonObject forecast =>
      let address := option_map (JsString.split_char ",") (resolvedAddress forecast) in
      match days forecast with
      | None => Throw (TypeError_message host forecast_days_absent)
      | Some forecastDays =>
          match historicalData with
          | JsonNull => Throw (TypeError_message host historical_null)
          | JsonObject historical =>
              match days historical with
              | None => Throw (TypeError_message host historical_days_absent)
              | Some historicalDays =>
                  Normal
                    {| zip_code := zipCode;
                       city := Some (string_or (match address with
                                                | Some parts => nth_error parts 0
                                                | None => None
                                                end) ("City " ++ zipCode));
                       state := Some (string_or
                                        (match address with
                                         | Some parts =>
                                             option_map JsString.trim (nth_error parts 1)
                                         | None => None
                                         end) "Unknown");
                       this_friday_date := short (thisFriday dates);
                       this_friday_high := this_high forecastDays 0%nat;
                       this_friday_description := conditions forecastDays 0%nat;
                       this_saturday_date := short (thisSaturday dates);
                       this_saturday_high := this_high forecastDays 1%nat;
                       this_saturday_description := conditions forecastDays 1%nat;
                       this_sunday_date := short (thisSunday dates);
                       this_sunday_high := this_high forecastDays 2%nat;
                       this_sunday_description := conditions forecastDays 2%nat;
                       last_year_friday_date := short (lastYearFriday dates);
                       last_year_friday_high := high historicalDays 0%nat;
                       last_year_friday_description := conditions historicalDays 0%nat;
                       last_year_saturday_date := short (lastYearSaturday dates);
                       last_year_saturday_high := high historicalDays 1%nat;
                       last_year_saturday_description := conditions historicalDays 1%nat;
                       last_year_sunday_date := short (lastYearSunday dates);
                       last_year_sunday_high := high historicalDays 2%nat;
                       last_year_sunday_description := conditions historicalDays 2%nat;
                       next_friday_date := short (nextFriday dates);
                       next_friday_high := high forecastDays 7%nat;
                       next_friday_description := conditions forecastDays 7%nat;
                       next_saturday_date := short (nextSaturday dates);
                       next_saturday_high := high forecastDays 8%nat;
                       next_saturday_description := conditions forecastDays 8%nat;
                       next_sunday_date := short (nextSunday dates);
                       next_sunday_high := high forecastDays 9%nat;
                       next_sunday_description := conditions forecastDays 9%nat |}
              end
          end
      end
  end.

(** [await response.json()]. *)
Definition json (body : Body) : M Body := await ;; ret body.

Definition query_url (zipCode startDate endDate apiKey : string) : string :=
  baseUrl ++ "/" ++ zipCode ++ "/" ++ startDate ++ "/" ++ endDate
  ++ "?key=" ++ apiKey ++ "&include=days&elements=tempmax,conditions".

(** [fetchWeekendWeatherForZip]; its [catch] logs to the console and
    throws the error again, be it one of its own, the rejection of a
    request or of [json()], or a [TypeError] of the object literal. *)
Definition fetchWeekendWeatherForZip (zipCode apiKey : string)
  : M (Completion (option WeekendWeatherData)) :=
  dates <- getWeekendDates ;;
  let historicalUrl :=
    query_url zipCode (formatApiDate (lastYearFriday dates))
              (formatApiDate (lastYearSunday dates)) apiKey in
  let forecastUrl :=
    query_url zipCode (formatApiDate (thisFriday dates))
              (formatApiDate (nextSunday dates)) apiKey in
  addLog (Glyph.antenna ++ " Fetching historical data for " ++ zipCode ++ "...") ;;
  historicalResponse <- fetch historicalUrl ;;
  match historicalResponse with
  | Rejected reason => ret (Throw reason)
  | Responded historicalStatus historicalBody =>
      if negb (ok historicalStatus) then ret (Throw (historical_error historicalStatus))
      else
        historicalJson <- json historicalBody ;;
        match historicalJson with
        | BadJson reason => ret (Throw reason)
        | Json historicalData =>
            addLog (Glyph.antenna ++ " Fetching forecast data for " ++ zipCode ++ "...") ;;
            forecastResponse <- fetch forecastUrl ;;
            match forecastResponse with
            | Rejected reason => ret (Throw reason)
            | Responded forecastStatus forecastBody =>
                if negb (ok forecastStatus) then ret (Throw (forecast_error forecastStatus))
                else
                  forecastJson <- json forecastBody ;;
                  match forecastJson with
                  | BadJson reason => ret (Throw reason)
                  | Json forecastData =>
                      ret (match parse_result zipCode dates historicalData forecastData with
                           | Throw reason => Throw reason
                           | Normal result => Normal (Some result)
                           end)
                  end
            end
        end
  end.

(** [zipCodes.split("\n").filter((zip) => zip.trim()).map((zip) => zip.trim())]. *)
Definition zipListOf (zipCodes : string) : list string :=
  map JsString.trim
      (filter (fun zip => negb (JsString.is_empty (JsString.trim zip)))
              (JsString.split_char JsString.newline zipCodes)).

Definition success_line (zipCode : string) (result : WeekendWeatherData) : string :=
  Glyph.check_mark ++ " " ++ zipCode ++ ": " ++ JsObject.in_template (city result)
  ++ " - This Weekend: "
  ++ toString (this_friday_high result) ++ Glyph.degree ++ "F, "
  ++ toString (this_saturday_high result) ++ Glyph.degree ++ "F, "
  ++ toString (this_sunday_high result) ++ Glyph.degree ++ "F".

Definition failure_line (zipCode errorMessage : string) : string :=
  Glyph.cross_mark ++ " " ++ zipCode ++ ": " ++ errorMessage.

(** The [for ... of] loop of [startFetching] over the ZIP codes still to
    process, with its local variables [results], [completed] and
    [errors]; [testMode], [apiKey] and [total] (the length of the whole
    list) are the values the handler captured when it started. *)
Fixpoint fetch_loop (testMode : bool) (apiKey : string) (total : Z)
    (zipList : list string) (results : list WeekendWeatherData) (completed errors : Z)
  : M (list WeekendWeatherData * Z * Z) :=
  match zipList with
  | [] => ret (results, completed, errors)
  | zipCode :: rest =>
      addLog ("Processing weekend data for " ++ zipCode ++ "...") ;;
      setProgress (Some {| ProgressUpdate.current := completed;
                           ProgressUpdate.total := total;
                           ProgressUpdate.zip_code := zipCode;
                           ProgressUpdate.status := Processing;
                           ProgressUpdate.message := None |}) ;;
      outcome <- (if testMode then
                    tick_entropy ;;
                    await ;;
                    result <- generateSampleWeekendData zipCode ;;
                    ret (Normal (Some result))
                  else fetchWeekendWeatherForZip zipCode apiKey) ;;
      locals <- match outcome with
                | Normal (Some result) =>
                    addLog (success_line zipCode result) ;;
                    ret (app results [result], errors)
                | Normal None =>
                    addLog (Glyph.cross_mark ++ " " ++ zipCode ++ ": No data returned") ;;
                    ret (results, errors + 1)
                | Throw errorMessage =>
                    addLog (failure_line zipCode errorMessage) ;;
                    ret (results, errors + 1)
                end ;;
      let completed' := completed + 1 in
      setProgress (Some {| ProgressUpdate.current := completed';
                           ProgressUpdate.total := total;
                           ProgressUpdate.zip_code := zipCode;
                           ProgressUpdate.status := Completed;
                           ProgressUpdate.message := None |}) ;;
      (if negb testMode && (completed' <? total) then
         addLog (Glyph.hourglass ++ " Waiting to respect API rate limits...") ;;
         await
       else ret tt) ;;
      fetch_loop testMode apiKey total rest (fst locals) completed' (snd locals)
  end.

(** [startFetching].  Nothing in its outer [try] throws outside the inner
    one, so its [catch] is not reached and its [finally] runs last. *)
Definition startFetching : M unit :=
  fun s0 =>
    let testMode := testMode s0 in
    let apiKey := apiKey s0 in
    let zipCodes := zipCodes s0 in
    if negb testMode && JsString.is_empty (JsString.trim apiKey) then
      setError (Some "Please enter your Visual Crossing API key or use Test Mode") s0
    else if JsString.is_empty (JsString.trim zipCodes) then
      setError (Some "Please enter at least one ZIP code") s0
    else
      let zipList := zipListOf zipCodes in
      let total := Z.of_nat (List.length zipList) in
      if total =? 0 then setError (Some "Please enter valid ZIP codes") s0
      else
        (setError None ;;
         setIsProcessing true ;;
         setProgress None ;;
         setLogs (fun _ => []) ;;
         setWeatherData [] ;;
         setPreviewData [] ;;
         setShowPreview false ;;
         dates <- getWeekendDates ;;
         (if testMode then
            addLog (Glyph.test_tube ++ " Running in Test Mode with weekend weather data...")
          else
            addLog (Glyph.rocket
                    ++ " Starting weekend weather data collection with Visual Crossing API...")) ;;
         let long := formatDate (LocalTZA host) in
         addLog (Glyph.calendar ++ " This Weekend: " ++ long (thisFriday dates)
                 ++ " - " ++ long (thisSunday dates)) ;;
         addLog (Glyph.calendar ++ " Next Weekend: " ++ long (nextFriday dates)
                 ++ " - " ++ long (nextSunday dates)) ;;
         addLog (Glyph.calendar ++ " Last Year: " ++ long (lastYearFriday dates)
                 ++ " - " ++ long (lastYearSunday dates)) ;;
         addLog (Glyph.antenna ++ " Processing " ++ JsString.int_toString total
                 ++ " ZIP codes...") ;;
         final <- fetch_loop testMode apiKey total zipList [] 0 0 ;;
         let '(results, _, errors) := final in
         setWeatherData results ;;
         setPreviewData (firstn 3 results) ;;
         setShowPreview true ;;
         let successCount := Z.of_nat (List.length results) in
         (if successCount =? total then
            addLog (Glyph.party ++ " Completed! Weekend weather data for "
                    ++ JsString.int_toString successCount ++ " locations ready")
          else
            addLog (Glyph.warning ++ " Completed with " ++ JsString.int_toString errors
                    ++ " errors. Successfully processed "
                    ++ JsString.int_toString successCount ++ " out of "
                    ++ JsString.int_toString total ++ " ZIP codes")) ;;
         setProgress (Some {| ProgressUpdate.current := total;
                              ProgressUpdate.total := total;
                              ProgressUpdate.zip_code := "Completed";
                              ProgressUpdate.status := Completed;
                              ProgressUpdate.message := None |}) ;;
         setIsProcessing false) s0.

End WithHost.

(** *** The CSV export *)

(** The argument of [escapeCSV], of type [any]. *)
Inductive Value := Null | Undefined | Str (s : string).

Definition escapeCSV (value : Value) : string :=
  match value with
  | Null | Undefined => EmptyString
  | Str stringValue =>
      if JsString.includes_char stringValue ","
         || JsString.includes_char stringValue JsString.dquote
         || JsString.includes_char stringValue JsString.newline
      then String JsString.dquote
             (JsString.double_quotes stringValue ++ String JsString.dquote EmptyString)
      else stringValue
  end.

End Weekend.

(** ** The standard variant: ZIP validation and submission *)

Module Standard.

(** [ZIP_CODE_REGEX.test(s)], for the pattern of five digits and an
    optional group of a hyphen and four digits, anchored at both ends. *)
Definition ZIP_CODE_REGEX_test (s : string) : bool :=
  match list_ascii_of_string s with
  | [d1; d2; d3; d4; d5] => forallb JsString.is_digit [d1; d2; d3; d4; d5]
  | [d1; d2; d3; d4; d5; hyphen; e1; e2; e3; e4] =>
      forallb JsString.is_digit [d1; d2; d3; d4; d5]
      && Ascii.eqb hyphen "-"
      && forallb JsString.is_digit [e1; e2; e3; e4]
  | _ => false
  end.

Definition isValidZipCode (zip : string) : bool :=
  ZIP_CODE_REGEX_test (JsString.trim zip).

Record Validation := { valid : list string; invalid : list string }.

(** [valid.includes(x)]. *)
Definition includes (l : list string) (x : string) : bool := existsb (String.eqb x) l.

(** The callback of [zipCodes.forEach] in [validateAndCleanZipCodes], on
    the two arrays it fills. *)
Definition validate_one (acc : Validation) (zip : string) : Validation :=
  let cleanZip := JsString.trim zip in
  if negb (JsString.is_empty cleanZip) && isValidZipCode cleanZip then
    let fiveDigitZip := hd EmptyString (JsString.split_char "-" cleanZip) in
    if negb (includes (valid acc) fiveDigitZip)
    then {| valid := valid acc ++ [fiveDigitZip]; invalid := invalid acc |}
    else acc
  else if negb (JsString.is_empty cleanZip) then
    {| valid := valid acc; invalid := invalid acc ++ [cleanZip] |}
  else acc.

Definition validateAndCleanZipCodes (zipCodes : list string) : Validation :=
  fold_left validate_one zipCodes {| valid := []; invalid := [] |}.

(** The class of the separator pattern: a line feed, a comma or white
    space. *)
Definition is_separator (c : ascii) : bool :=
  Ascii.eqb c JsString.newline || Ascii.eqb c "," || JsString.is_space c.

(** The tokens of the input: the pieces between runs of separators,
    trimmed, the empty ones dropped. *)
Definition tokens (zipString : string) : list string :=
  filter (fun zip => (0 <? String.length zip)%nat)
         (map JsString.trim (JsString.split_runs is_separator false zipString)).

Definition validateZipCodes (zipString : string) : Validation :=
  validateAndCleanZipCodes (tokens zipString).

(** [interface WeatherData]. *)
Record WeatherData := {
  zip_code : string;
  city : string;
  date_time_utc : string;
  temp_f : float;
  temp_c : float;
  feels_like_f : float;
  feels_like_c : float;
  humidity : float;
  pressure_hpa : float;
  wind_speed_mps : float;
  wind_direction_deg : float;
  cloud_cover_percent : float;
  sunrise_utc : string;
  sunset_utc : string;
  weather_description : string
}.

(** The body of the POST request to [/api/fetch-weather]. *)
Record Post := { api_key : string; zip_codes : list string }.

(** The state of the component, and the requests it has issued. *)
Record State := {
  apiKey : string;
  zipCodes : string;
  isLoading : bool;
  progress : Z;
  currentZip : string;
  sessionId : string;
  weatherData : list WeatherData;
  errors : list string;
  validationErrors : list string;
  isCompleted : bool;
  totalZips : Z;
  processedZips : Z;
  posted : list Post
}.

Definition setValidationErrors (e : list string) (s : State) : State :=
  {| apiKey := apiKey s; zipCodes := zipCodes s; isLoading := isLoading s;
     progress := progress s; currentZip := currentZip s; sessionId := sessionId s;
     weatherData := weatherData s; errors := errors s; validationErrors := e;
     isCompleted := isCompleted s; totalZips := totalZips s;
     processedZips := processedZips s; posted := posted s |}.

(** [handleSubmit] up to its first [await]: the checks, the reset of the
    state and the POST request.  What follows depends on the answer of the
    backend. *)
Definition handleSubmit (s : State) : State :=
  if JsString.is_empty (JsString.trim (apiKey s)) then
    setValidationErrors ["Please enter your OpenWeatherMap API key"] s
  else if JsString.is_empty (JsString.trim (zipCodes s)) then
    setValidationErrors ["Please enter ZIP codes"] s
  else
    let v := validateZipCodes (zipCodes s) in
    let validZips := valid v in
    let invalidZips := invalid v in
    if (0 <? List.length invalidZips)%nat then
      setValidationErrors
        [ "Invalid ZIP codes found: " ++ JsString.join ", " invalidZips;
          "Please use 5-digit ZIP codes (e.g., 12345 or 12345-6789)" ] s
    else if (List.length validZips =? 0)%nat then
      setValidationErrors ["No valid ZIP codes found"] s
    else
      {| apiKey := apiKey s; zipCodes := zipCodes s; isLoading := true;
         progress := 0; currentZip := EmptyString; sessionId := sessionId s;
         weatherData := []; errors := []; validationErrors := [];
         isCompleted := false; totalZips := Z.of_nat (List.length validZips);
         processedZips := 0;
         posted := posted s
                   ++ [{| api_key := JsString.trim (apiKey s); zip_codes := validZips |}] |}.

End Standard.

(** ** Strings and dates of the host language: searching and rendering *)

Module JsStringSearch.

(** [s.includes(needle)]: [needle] starts at some position of [s]. *)
Fixpoint includes (s needle : string) : bool :=
  String.prefix needle s
  || match s with
     | EmptyString => false
     | String _ rest => includes rest needle
     end.

(** [toLowerCase] on a code unit below 256: the capital letters of ASCII
    and of Latin-1 (192 to 222, the multiplication sign 215 apart) have
    their small letter 32 places further. *)
Definition lower (c : ascii) : ascii :=
  let n := nat_of_ascii c in
  if (((65 <=? n) && (n <=? 90)) || ((192 <=? n) && (n <=? 222) && negb (n =? 215)))%nat
  then ascii_of_nat (n + 32) else c.

Fixpoint toLowerCase (s : string) : string :=
  match s with
  | EmptyString => EmptyString
  | String c rest => String (lower c) (toLowerCase rest)
  end.

End JsStringSearch.

Module JsDateFormat.

Import JsDate.

Definition HourFromTime (t : Z) : Z := (TimeWithinDay t / 3600000) mod 24.
Definition MinFromTime (t : Z) : Z := (TimeWithinDay t / 60000) mod 60.
Definition SecFromTime (t : Z) : Z := (TimeWithinDay t / 1000) mod 60.
Definition msFromTime (t : Z) : Z := TimeWithinDay t mod 1000.

Definition pad3 (n : Z) : string := JsString.padStart (JsString.int_toString n) 3 "0".

(** [date.toISOString()]: the calendar day and the time of day in UTC. *)
Definition toISOString (date : Date) : string :=
  isoYear (YearFromTime date) ++ "-" ++ pad2 (MonthFromTime date + 1)
  ++ "-" ++ pad2 (DateFromTime date)
  ++ "T" ++ pad2 (HourFromTime date) ++ ":" ++ pad2 (MinFromTime date)
  ++ ":" ++ pad2 (SecFromTime date) ++ "." ++ pad3 (msFromTime date) ++ "Z".

(** [s.slice(0, n)]. *)
Definition slice_to (n : nat) (s : string) : string := String.substring 0 n s.

(** [date.toLocaleDateString("en-US")] without options: month, day and
    year as numbers, in local time, as engines render a year of the common
    era. *)
Definition toLocaleDateString (tza : Z) (date : Date) : string :=
  JsString.int_toString (getMonth tza date + 1) ++ "/"
  ++ JsString.int_toString (getDate tza date) ++ "/"
  ++ JsString.int_toString (getFullYear tza date).

End JsDateFormat.

(** ** The weekend variant: the state selector, the reset and the export *)

Module WeekendPage.

Import JsDate JsNumber ZipRanges Weekend.
Local Open Scope weekend_scope.

(** One entry of [stateInfo]. *)
Module StateInfo.
Record t := { name : string; zipCount : Z }.
End StateInfo.

(** The table [stateInfo]: the states the selector offers, with the
    number of ZIP codes it announces for each. *)
Definition stateInfo : list (string * StateInfo.t) :=
  [ ("AL", {| StateInfo.name := "Alabama"; StateInfo.zipCount := 1089 |});
    ("AK", {| StateInfo.name := "Alaska"; StateInfo.zipCount := 281 |});
    ("AZ", {| StateInfo.name := "Arizona"; StateInfo.zipCount := 750 |});
    ("AR", {| StateInfo.name := "Arkansas"; StateInfo.zipCount := 891 |});
    ("CA", {| StateInfo.name := "California"; StateInfo.zipCount := 2597 |});
    ("CO", {| StateInfo.name := "Colorado"; StateInfo.zipCount := 645 |});
    ("CT", {| StateInfo.name := "Connecticut"; StateInfo.zipCount := 279 |});
    ("DE", {| StateInfo.name := "Delaware"; StateInfo.zipCount := 57 |});
    ("FL", {| StateInfo.name := "Florida"; StateInfo.zipCount := 1356 |});
    ("GA", {| StateInfo.name := "Georgia"; StateInfo.zipCount := 1089 |});
    ("HI", {| StateInfo.name := "Hawaii"; StateInfo.zipCount := 152 |});
    ("ID", {| StateInfo.name := "Idaho"; StateInfo.zipCount := 345 |});
    ("IL", {| StateInfo.name := "Illinois"; StateInfo.zipCount := 1467 |});
    ("IN", {| StateInfo.name := "Indiana"; StateInfo.zipCount := 1089 |});
    ("IA", {| StateInfo.name := "Iowa"; StateInfo.zipCount := 1089 |});
    ("KS", {| StateInfo.name := "Kansas"; StateInfo.zipCount := 789 |});
    ("KY", {| StateInfo.name := "Kentucky"; StateInfo.zipCount := 945 |});
    ("LA", {| StateInfo.name := "Louisiana"; StateInfo.zipCount := 678 |});
    ("ME", {| StateInfo.name := "Maine"; StateInfo.zipCount := 456 |});
    ("MD", {| StateInfo.name := "Maryland"; StateInfo.zipCount := 567 |});
    ("MA", {| StateInfo.name := "Massachusetts"; StateInfo.zipCount := 567 |});
    ("MI", {| StateInfo.name := "Michigan"; StateInfo.zipCount := 1234 |});
    ("MN", {| StateInfo.name := "Minnesota"; StateInfo.zipCount := 987 |});
    ("MS", {| StateInfo.name := "Mississippi"; StateInfo.zipCount := 678 |});
    ("MO", {| StateInfo.name := "Missouri"; StateInfo.zipCount := 1123 |});
    ("MT", {| StateInfo.name := "Montana"; StateInfo.zipCount := 345 |});
    ("NE", {| StateInfo.name := "Nebraska"; StateInfo.zipCount := 567 |});
    ("NV", {| StateInfo.name := "Nevada"; StateInfo.zipCount := 234 |});
    ("NH", {| StateInfo.name := "New Hampshire"; StateInfo.zipCount := 234 |});
    ("NJ", {| StateInfo.name := "New Jersey"; StateInfo.zipCount := 678 |});
    ("NM", {| StateInfo.name := "New Mexico"; StateInfo.zipCount := 456 |});
    ("NY", {| StateInfo.name := "New York"; StateInfo.zipCount := 1789 |});
    ("NC", {| StateInfo.name := "North Carolina"; StateInfo.zipCount := 1234 |});
    ("ND", {| StateInfo.name := "North Dakota"; StateInfo.zipCount := 345 |});
    ("OH", {| StateInfo.name := "Ohio"; StateInfo.zipCount := 1456 |});
    ("OK", {| StateInfo.name := "Oklahoma"; StateInfo.zipCount := 789 |});
    ("OR", {| StateInfo.name := "Oregon"; StateInfo.zipCount := 567 |});
    ("PA", {| StateInfo.name := "Pennsylvania"; StateInfo.zipCount := 1678 |});
    ("RI", {| StateInfo.name := "Rhode Island"; StateInfo.zipCount := 89 |});
    ("SC", {| StateInfo.name := "South Carolina"; StateInfo.zipCount := 567 |});
    ("SD", {| StateInfo.name := "South Dakota"; StateInfo.zipCount := 345 |});
    ("TN", {| StateInfo.name := "Tennessee"; StateInfo.zipCount := 789 |});
    ("TX", {| StateInfo.name := "Texas"; StateInfo.zipCount := 2789 |});
    ("UT", {| StateInfo.name := "Utah"; StateInfo.zipCount := 345 |});
    ("VT", {| StateInfo.name := "Vermont"; StateInfo.zipCount := 234 |});
    ("VA", {| StateInfo.name := "Virginia"; StateInfo.zipCount := 987 |});
    ("WA", {| StateInfo.name := "Washington"; StateInfo.zipCount := 678 |});
    ("WV", {| StateInfo.name := "West Virginia"; StateInfo.zipCount := 456 |});
    ("WI", {| StateInfo.name := "Wisconsin"; StateInfo.zipCount := 789 |});
    ("WY", {| StateInfo.name := "Wyoming"; StateInfo.zipCount := 123 |}) ].

(** [stateInfo[stateCode]]: the own property of that name, if any (a name
    inherited from [Object.prototype] has no [zipCount]). *)
Fixpoint lookup_info (stateCode : string) (table : list (string * StateInfo.t))
  : option StateInfo.t :=
  match table with
  | [] => None
  | (k, i) :: rest => if String.eqb k stateCode then Some i else lookup_info stateCode rest
  end.

(** [stateInfo[stateCode]?.zipCount || 0]. *)
Definition zipCount_or_zero (stateCode : string) : Z :=
  match lookup_info stateCode stateInfo with
  | Some i => StateInfo.zipCount i
  | None => 0
  end.

(** [stateInfo[stateCode]?.name] inside a template; [stateInfo[stateCode]]
    finds the members the table inherits as well. *)
Definition name_or_undefined (stateCode : string) : string :=
  JsObject.in_template
    match lookup_info stateCode stateInfo with
    | Some i => Some (StateInfo.name i)
    | None =>
        match JsObject.inherited_name stateCode with
        | Some member_name => member_name
        | None => None
        end
    end.

(** A file handed to the browser for download: the [download] attribute of
    the link that is clicked and the blob behind its address.  A blob holds
    its text as UTF-8, in which the byte order mark takes three bytes. *)
Record Download := { download : string; type_ : string; content : string }.

Definition BOM : string :=
  String (ascii_of_nat 239) (String (ascii_of_nat 187) (String (ascii_of_nat 191) EmptyString)).

(** The whole page: the cells of [Weekend.State], the cells of the state
    selector, and the files handed to the browser. *)
Record Page := {
  component : State;
  selectedStates : list string;
  showStateSelector : bool;
  stateSearchTerm : string;
  isLoadingZips : bool;
  downloads : list Download
}.

Definition first_render : Page :=
  {| component := initial; selectedStates := []; showStateSelector := false;
     stateSearchTerm := EmptyString; isLoadingZips := false; downloads := [] |}.

(** *** Stateful computations on the page *)

Definition P (A : Type) : Type := Page -> A * Page.

Definition retP {A : Type} (a : A) : P A := fun p => (a, p).

Definition bindP {A B : Type} (c : P A) (k : A -> P B) : P B :=
  fun p => let (a, p') := c p in k a p'.

(** A computation on the cells of [Weekend.State], run on the page. *)
Definition lift {A : Type} (c : M A) : P A :=
  fun p =>
    let (a, s) := c (component p) in
    (a, {| component := s; selectedStates := selectedStates p;
           showStateSelector := showStateSelector p;
           stateSearchTerm := stateSearchTerm p; isLoadingZips := isLoadingZips p;
           downloads := downloads p |}).

Declare Scope page_scope.
Delimit Scope page_scope with page.
Notation "x <- c ;; k" := (bindP c (fun x => k))
  (at level 61, c at next level, right associativity) : page_scope.
Notation "c ;; k" := (bindP c (fun _ => k))
  (at level 61, right associativity) : page_scope.

(** [setSelectedStates(f)] with an updater [f]. *)
Definition setSelectedStates (f : list string -> list string) : P unit :=
  fun p =>
    (tt, {| component := component p; selectedStates := f (selectedStates p);
            showStateSelector := showStateSelector p;
            stateSearchTerm := stateSearchTerm p; isLoadingZips := isLoadingZips p;
            downloads := downloads p |}).

Definition setShowStateSelector (b : bool) : P unit :=
  fun p =>
    (tt, {| component := component p; selectedStates := selectedStates p;
            showStateSelector := b;
            stateSearchTerm := stateSearchTerm p; isLoadingZips := isLoadingZips p;
            downloads := downloads p |}).

Definition setIsLoadingZips (b : bool) : P unit :=
  fun p =>
    (tt, {| component := component p; selectedStates := selectedStates p;
            showStateSelector := showStateSelector p;
            stateSearchTerm := stateSearchTerm p; isLoadingZips := b;
            downloads := downloads p |}).

(** [link.click()] on a link with a [download] attribute. *)
Definition click (file : Download) : P unit :=
  fun p =>
    (tt, {| component := component p; selectedStates := selectedStates p;
            showStateSelector := showStateSelector p;
            stateSearchTerm := stateSearchTerm p; isLoadingZips := isLoadingZips p;
            downloads := app (downloads p) [file] |}).

Definition setZipCodes (z : string) : M unit :=
  modify (fun s =>
    {| apiKey := apiKey s; zipCodes := z; isProcessing := isProcessing s;
       progress := progress s; logs := logs s; weatherData := weatherData s;
       error_ := error_ s; previewData := previewData s; showPreview := showPreview s;
       testMode := testMode s; clock_reads := clock_reads s;
       entropy_reads := entropy_reads s; requests := requests s; awaits := awaits s |}).

(** The pictographs of the log lines of this part, as the source file
    holds them. *)
Module Pictograph.
Definition page : string := "üìÑ".
Definition chart : string := "üìä".
Definition bulb : string := "üí°".
Definition arrows : string := "üîÑ".
Definition pin : string := "üìç".
Definition party : string := "üéâ".
Definition wastebasket : string := "üóëÔ∏è".
End Pictograph.

(** [l.join("\n")]. *)
Definition join_lines (l : list string) : string :=
  JsString.join (String JsString.newline EmptyString) l.

(** *** The state selector *)

(** The updater of [toggleStateSelection]. *)
Definition toggled (stateCode : string) (prev : list string) : list string :=
  if existsb (String.eqb stateCode) prev
  then filter (fun code => negb (String.eqb code stateCode)) prev
  else app prev [stateCode].

Definition toggleStateSelection (stateCode : string) : P unit :=
  setSelectedStates (toggled stateCode).

(** [Object.keys(stateInfo)]: the keys in the order of the table (none is
    an array index). *)
Definition selectAllStates : P unit := setSelectedStates (fun _ => map fst stateInfo).

Definition clearStateSelection : P unit := setSelectedStates (fun _ => []).

Definition getTotalZipCount (p : Page) : Z :=
  fold_left (fun total stateCode => total + zipCount_or_zero stateCode) (selectedStates p) 0.

(** The test of the filter of [filteredStates]. *)
Definition matches_search (term : string) (entry : string * StateInfo.t) : bool :=
  let (code, data) := entry in
  JsStringSearch.includes (JsStringSearch.toLowerCase (StateInfo.name data))
                          (JsStringSearch.toLowerCase term)
  || JsStringSearch.includes (JsStringSearch.toLowerCase code)
                             (JsStringSearch.toLowerCase term).

Definition filteredStates (p : Page) : list (string * StateInfo.t) :=
  filter (matches_search (stateSearchTerm p)) stateInfo.

Section WithHost.

Variable host : Host.

(** The [for ... of] loop of [loadSelectedStatesZipCodes] over the states
    still to generate, with its local variables [allZips] and
    [totalZipCount].  As in [startFetching], the handler the user can reach
    during a wait is the one of the stop button. *)
Fixpoint load_loop (states : list string) (allZips : list string) (totalZipCount : Z)
  : M (list string * Z) :=
  match states with
  | [] => ret (allZips, totalZipCount)
  | stateCode :: rest =>
      addLog host (Pictograph.pin ++ " Generating all ZIP codes for " ++ stateCode
                   ++ " (" ++ name_or_undefined stateCode ++ ")...") ;;
      let stateZips := generateAllZipCodesForState stateCode in
      let count := Z.of_nat (List.length stateZips) in
      addLog host (Glyph.check_mark ++ " Generated " ++ JsString.int_toString count
                   ++ " ZIP codes for " ++ stateCode) ;;
      await host ;;
      load_loop rest (app allZips stateZips) (totalZipCount + count)
  end.

(** [loadSelectedStatesZipCodes].  Nothing in its [try] throws, so its
    [catch] is not reached and its [finally] runs last. *)
Definition loadSelectedStatesZipCodes : P unit :=
  fun p0 =>
    let selected := selectedStates p0 in
    let count := Z.of_nat (List.length selected) in
    if count =? 0 then lift (setError (Some "Please select at least one state")) p0
    else
      (setIsLoadingZips true ;;
       lift (setError None) ;;
       lift (addLog host (Pictograph.arrows ++ " Generating ALL ZIP codes for "
                          ++ JsString.int_toString count ++ " selected states...")) ;;
       final <- lift (load_loop selected [] 0) ;;
       let (allZips, totalZipCount) := final in
       let uniqueZips := StringSort.sort (new_Set allZips) in
       let unique := Z.of_nat (List.length uniqueZips) in
       lift (setZipCodes (join_lines uniqueZips)) ;;
       lift (addLog host (Pictograph.party ++ " Successfully loaded "
                          ++ JsString.int_toString unique ++ " unique ZIP codes from "
                          ++ JsString.int_toString count ++ " states")) ;;
       lift (addLog host (Pictograph.chart ++ " Total coverage: "
                          ++ JsString.int_toString totalZipCount
                          ++ " ZIP codes generated, " ++ JsString.int_toString unique
                          ++ " unique codes loaded")) ;;
       setShowStateSelector false ;;
       setIsLoadingZips false)%page p0.

(** *** The reset *)

Definition clearAllData : M unit :=
  setZipCodes EmptyString ;;
  setWeatherData [] ;;
  setPreviewData [] ;;
  setLogs (fun _ => []) ;;
  setProgress None ;;
  setError None ;;
  setShowPreview false ;;
  addLog host (Pictograph.wastebasket ++ " All data cleared - ready for new ZIP codes").

(** *** The export *)

(** A temperature in a cell: the number in a template, with its unit. *)
Definition degrees (x : float) : Value := Str (toString host x ++ Glyph.degree ++ "F").

(** A city, a state or a description in a cell: absent where the record
    holds [undefined]. *)
Definition described (d : option string) : Value :=
  match d with Some s => Str s | None => Undefined end.

Definition headers : list string :=
  [ "ZIP Code"; "City Name"; "State";
    "This Friday Date"; "This Fri Temp " ++ Glyph.degree ++ "F";
    "This Friday Weather Conditions";
    "This Saturday Date"; "This Sat Temp " ++ Glyph.degree ++ "F";
    "This Saturday Weather Conditions";
    "This Sunday Date"; "This Sun Temp " ++ Glyph.degree ++ "F";
    "This Sunday Weather Conditions";
    "Last Year Friday Date"; "Last Yr Fri Temp " ++ Glyph.degree ++ "F";
    "Last Year Friday Weather Conditions";
    "Last Year Saturday Date"; "Last Yr Sat Temp " ++ Glyph.degree ++ "F";
    "Last Year Saturday Weather Conditions";
    "Last Year Sunday Date"; "Last Yr Sun Temp " ++ Glyph.degree ++ "F";
    "Last Year Sunday Weather Conditions";
    "Next Friday Date"; "Next Fri Temp " ++ Glyph.degree ++ "F";
    "Next Friday Weather Conditions";
    "Next Saturday Date"; "Next Sat Temp " ++ Glyph.degree ++ "F";
    "Next Saturday Weather Conditions";
    "Next Sunday Date"; "Next Sun Temp " ++ Glyph.degree ++ "F";
    "Next Sunday Weather Conditions" ].

(** The data row of one record. *)
Definition data_row (row : WeekendWeatherData) : string :=
  JsString.join ","
    [ escapeCSV (Str (zip_code row));
      escapeCSV (described (city row));
      escapeCSV (described (state row));
      escapeCSV (Str (this_friday_date row));
      escapeCSV (degrees (this_friday_high row));
      escapeCSV (described (this_friday_description row));
      escapeCSV (Str (this_saturday_date row));
      escapeCSV (degrees (this_saturday_high row));
      escapeCSV (described (this_saturday_description row));
      escapeCSV (Str (this_sunday_date row));
      escapeCSV (degrees (this_sunday_high row));
      escapeCSV (described (this_sunday_description row));
      escapeCSV (Str (last_year_friday_date row));
      escapeCSV (degrees (last_year_friday_high row));
      escapeCSV (described (last_year_friday_description row));
      escapeCSV (Str (last_year_saturday_date row));
      escapeCSV (degrees (last_year_saturday_high row));
      escapeCSV (described (last_year_saturday_description row));
      escapeCSV (Str (last_year_sunday_date row));
      escapeCSV (degrees (last_year_sunday_high row));
      escapeCSV (described (last_year_sunday_description row));
      escapeCSV (Str (next_friday_date row));
      escapeCSV (degrees (next_friday_high row));
      escapeCSV (described (next_friday_description row));
      escapeCSV (Str (next_saturday_date row));
      escapeCSV (degrees (next_saturday_high row));
      escapeCSV (described (next_saturday_description row));
      escapeCSV (Str (next_sunday_date row));
      escapeCSV (degrees (next_sunday_high row));
      escapeCSV (described (next_sunday_description row)) ].

(** [csvRows]: the header row, a row of empty cells, and the data
    rows. *)
Definition csvRows (weatherData : list WeekendWeatherData) : list string :=
  JsString.join "," (map (fun h => escapeCSV (Str h)) headers)
  :: JsString.join "," (List.repeat EmptyString (List.length headers))
  :: map data_row weatherData.

(** [csvContent], for the date [timestamp] shows. *)
Definition csvContent (weatherData : list WeekendWeatherData) (testMode : bool)
    (timestamp : string) : string :=
  let locationCount := Z.of_nat (List.length weatherData) in
  let dataSource := if testMode then "Sample Data" else "Live Weather Data" in
  join_lines (app [ "Weekend Weather Comparison Report";
               "Generated: " ++ timestamp;
               "Data Source: " ++ dataSource;
               "Locations: " ++ JsString.int_toString locationCount;
               EmptyString ]
             (csvRows weatherData)).

Definition download_name (locationCount : Z) (fileTimestamp : string) : string :=
  "Weekend-Weather-Report-" ++ JsString.int_toString locationCount
  ++ "-Locations-" ++ fileTimestamp ++ ".csv".

(** [downloadCsv]: the clock is read once for the date in the report and
    once for the date in the name of the file. *)
Definition downloadCsv : P unit :=
  fun p0 =>
    let weatherData := weatherData (component p0) in
    let testMode := testMode (component p0) in
    let locationCount := Z.of_nat (List.length weatherData) in
    if locationCount =? 0 then (tt, p0)
    else
      (generated <- lift (new_Date host) ;;
       let timestamp := JsDateFormat.toLocaleDateString (LocalTZA host) generated in
       let text := csvContent weatherData testMode timestamp in
       named <- lift (new_Date host) ;;
       let fileTimestamp := JsDateFormat.slice_to 10 (JsDateFormat.toISOString named) in
       let filename := download_name locationCount fileTimestamp in
       click {| download := filename; type_ := "text/csv;charset=utf-8;";
                content := BOM ++ text |} ;;
       lift (addLog host (Pictograph.page ++ " Enhanced CSV exported: " ++ filename)) ;;
       lift (addLog host (Pictograph.chart ++ " Optimized column widths for "
                          ++ JsString.int_toString locationCount
                          ++ " locations with professional formatting")) ;;
       lift (addLog host (Pictograph.bulb ++ " Tip: Use "
                          ++ String JsString.dquote "Auto-fit column width"
                          ++ String JsString.dquote " in Excel/Sheets for perfect sizing")))%page
      p0.

End WithHost.

End WeekendPage.

(** ** The standard variant: the upload of a file and the wind rose *)

Module StandardDisplay.

Import JsNumber Standard.

(** The file of the upload field: its media type and its text. *)
Record File := { type_ : string; text : string }.

(** [zipCodesFromFile]: the first cell of each line, trimmed; the empty
    ones and the header [zip_code] dropped. *)
Definition zipCodesFromFile (text : string) : list string :=
  filter (fun zip => negb (JsString.is_empty zip) && negb (String.eqb zip "zip_code"))
         (map (fun line => JsString.trim (hd EmptyString (JsString.split_char "," line)))
              (JsString.split_char JsString.newline text)).

Definition setZipCodes (z : string) (s : State) : State :=
  {| apiKey := apiKey s; zipCodes := z; isLoading := isLoading s;
     progress := progress s; currentZip := currentZip s; sessionId := sessionId s;
     weatherData := weatherData s; errors := errors s;
     validationErrors := validationErrors s;
     isCompleted := isCompleted s; totalZips := totalZips s;
     processedZips := processedZips s; posted := posted s |}.

(** [handleFileUpload], with the callback of the reader run on the text of
    the file. *)
Definition handleFileUpload (file : option File) (s : State) : State :=
  match file with
  | Some f =>
      if String.eqb (type_ f) "text/csv"
      then setZipCodes (JsString.join (String JsString.newline EmptyString)
                                      (zipCodesFromFile (text f))) s
      else s
  | None => s
  end.

Definition directions : list string :=
  [ "N"; "NNE"; "NE"; "ENE"; "E"; "ESE"; "SE"; "SSE";
    "S"; "SSW"; "SW"; "WSW"; "W"; "WNW"; "NW"; "NNW" ].

(** [Math.round(degrees / 22.5) % 16]: the remainder has the sign of the
    rounded quotient; there is none for a quotient that is not finite. *)
Definition wind_index (degrees : float) : option Z :=
  match to_integer (Math_round (degrees / 22.5)%float) with
  | Some n => Some (Z.rem n 16)
  | None => None
  end.

(** [directions[index]] inside a template. *)
Definition direction_at (index : option Z) : string :=
  match index with
  | Some n =>
      if 0 <=? n then nth (Z.to_nat n) directions "undefined" else "undefined"
  | None => "undefined"
  end.

(** The degree sign. *)
Definition degree_sign : ascii := "176"%char.

(** [formatWindDirection]; [digits] gives the digits of a number that is
    not an integer. *)
Definition formatWindDirection (digits : float -> string) (degrees : float) : string :=
  direction_at (wind_index degrees) ++ " (" ++ Number_toString digits degrees
  ++ String degree_sign ")".

End StandardDisplay.

(** * Properties *)

(** ** Checking a decidable property on a range of integers *)

(** [p] holds on the [count] integers from [from] on. *)
Fixpoint all_from (p : Z -> bool) (count : nat) (from : Z) : bool :=
  match count with
  | O => true
  | S count' => if p from then all_from p count' (from + 1) else false
  end.

Lemma all_from_spec (p : Z -> bool) (count : nat) :
  forall from, all_from p count from = true ->
  forall k, from <= k < from + Z.of_nat count -> p k = true.
Proof.
  induction count as [|n IH]; intros from H k Hk; [lia|].
  cbn [all_from] in H. destruct (p from) eqn:Hp; [|discriminate].
  destruct (Z.eq_dec k from) as [-> | Hne]; [exact Hp|].
  apply (IH (from + 1) H). lia.
Qed.

Lemma all_from_range (p : Z -> bool) (from width : Z) :
  all_from p (Z.to_nat width) from = true ->
  forall k, from <= k < from + width -> p k = true.
Proof.
  intros H k Hk. apply (all_from_spec p (Z.to_nat width) from H). lia.
Qed.

(** ** The ZIP range generator *)

Module ZipRangesFacts.

Import ZipRanges.

(** *** Deduplication *)

Lemma Set_add_In (s : list string) (x y : string) :
  In y (Set_add s x) <-> In y s \/ y = x.
Proof.
  unfold Set_add. destruct (existsb (String.eqb x) s) eqn:E.
  - split; [auto|]. intros [H | ->]; [exact H|].
    apply existsb_exists in E. destruct E as [z [Hz Hxz]].
    apply String.eqb_eq in Hxz. now subst.
  - rewrite in_app_iff. simpl. intuition.
Qed.

Lemma Set_add_NoDup (s : list string) (x : string) :
  NoDup s -> NoDup (Set_add s x).
Proof.
  intros Hs. unfold Set_add. destruct (existsb (String.eqb x) s) eqn:E; [exact Hs|].
  apply NoDup_app; [exact Hs | repeat constructor; simpl; tauto |].
  intros y Hy [-> | []].
  assert (existsb (String.eqb y) s = true) as Habs; [|congruence].
  apply existsb_exists. exists y. split; [exact Hy | apply String.eqb_refl].
Qed.

Lemma fold_Set_add_In (l s : list string) (y : string) :
  In y (fold_left Set_add l s) <-> In y s \/ In y l.
Proof.
  revert s. induction l as [|x l IH]; intros s; simpl.
  - tauto.
  - rewrite IH, Set_add_In. intuition.
Qed.

Lemma fold_Set_add_NoDup (l s : list string) :
  NoDup s -> NoDup (fold_left Set_add l s).
Proof.
  revert s. induction l as [|x l IH]; intros s Hs; simpl; [exact Hs|].
  apply IH, Set_add_NoDup, Hs.
Qed.

Lemma new_Set_In (l : list string) (y : string) : In y (new_Set l) <-> In y l.
Proof. unfold new_Set. rewrite fold_Set_add_In. simpl. tauto. Qed.

Lemma new_Set_NoDup (l : list string) : NoDup (new_Set l).
Proof. apply fold_Set_add_NoDup. constructor. Qed.

(** *** The loops *)

Lemma push_loop_In (body : Z -> string) (count : nat) :
  forall (zip : Z) (zips : list string) (x : string),
    In x (push_loop count zip body zips) <->
    In x zips \/ exists k, zip <= k < zip + Z.of_nat count /\ x = body k.
Proof.
  induction count as [|n IH]; intros zip zips x.
  - simpl. split; [auto|]. intros [H | [k [Hk _]]]; [exact H | lia].
  - cbn [push_loop]. rewrite IH, in_app_iff. simpl. split.
    + intros [[H | [H | []]] | [k [Hk Hx]]].
      * now left.
      * right. exists zip. split; [lia | now subst].
      * right. exists k. split; [lia | exact Hx].
    + intros [H | [k [Hk Hx]]].
      * now left; left.
      * destruct (Z.eq_dec k zip) as [-> | Hne].
        -- left. right. left. now subst.
        -- right. exists k. split; [lia | exact Hx].
Qed.

Lemma for_range_In (from to : Z) (body : Z -> string) (zips : list string) (x : string) :
  In x (for_range from to body zips) <->
  In x zips \/ exists k, from <= k <= to /\ x = body k.
Proof.
  unfold for_range. rewrite push_loop_In.
  split; (intros [H | [k [Hk Hx]]]; [now left | right; exists k; split; [lia | exact Hx]]).
Qed.

(** *** The output is sorted and free of duplicates, for every argument *)

Lemma generateAllZipCodesForState_sorted (stateCode : string) :
  Sorted (fun a b => String.leb a b = true) (generateAllZipCodesForState stateCode).
Proof.
  unfold generateAllZipCodesForState.
  destruct (lookup stateCode zipRanges) as [range|]; [|constructor].
  exact (StringSort.Sorted_sort _).
Qed.

Lemma generateAllZipCodesForState_NoDup (stateCode : string) :
  NoDup (generateAllZipCodesForState stateCode).
Proof.
  unfold generateAllZipCodesForState.
  destruct (lookup stateCode zipRanges) as [range|]; [|constructor].
  eapply Permutation_NoDup; [apply StringSort.Permuted_sort | apply new_Set_NoDup].
Qed.

Lemma generateAllZipCodesForState_In (stateCode : string) (range : ZipRange) (x : string) :
  lookup stateCode zipRanges = Some range ->
  (In x (generateAllZipCodesForState stateCode) <-> In x (pushed_zips stateCode range)).
Proof.
  intros H. unfold generateAllZipCodesForState. rewrite H.
  rewrite <- (new_Set_In (pushed_zips stateCode range)). split; apply Permutation_in.
  - apply Permutation_sym, StringSort.Permuted_sort.
  - apply StringSort.Permuted_sort.
Qed.

(** *** The digits of the elements *)

(** A string of decimal digits. *)
Definition all_digits (s : string) : bool :=
  forallb JsString.is_digit (list_ascii_of_string s).

Lemma length_append (s1 s2 : string) :
  String.length (s1 ++ s2) = (String.length s1 + String.length s2)%nat.
Proof. induction s1 as [|c s1 IH]; cbn; [reflexivity | now rewrite IH]. Qed.

Lemma all_digits_append (s1 s2 : string) :
  all_digits (s1 ++ s2) = all_digits s1 && all_digits s2.
Proof.
  unfold all_digits. induction s1 as [|c s1 IH]; cbn; [reflexivity|].
  now rewrite IH, andb_assoc.
Qed.

Lemma append_assoc (s1 s2 s3 : string) : ((s1 ++ s2) ++ s3 = s1 ++ (s2 ++ s3))%string.
Proof. induction s1 as [|c s1 IH]; cbn; [reflexivity | now rewrite IH]. Qed.

Lemma append_empty (s : string) : (s ++ EmptyString)%string = s.
Proof. induction s as [|c s IH]; cbn; [reflexivity | now rewrite IH]. Qed.

Lemma is_digit_digit_char (d : Z) :
  0 <= d < 10 -> JsString.is_digit (JsString.digit_char d) = true.
Proof.
  intros H.
  assert (d = 0 \/ d = 1 \/ d = 2 \/ d = 3 \/ d = 4 \/ d = 5 \/ d = 6 \/ d = 7 \/ d = 8
          \/ d = 9) as Hd by lia.
  decompose [or] Hd; subst; reflexivity.
Qed.

(** With enough fuel, a number below [10 ^ (n + 1)], and not below [10 ^ n]
    unless [n] is zero, is written with [n + 1] digits. *)
Lemma digits_of_shape (n : nat) :
  forall (fuel : nat) (k : Z) (acc : string),
    (n < fuel)%nat -> 0 <= k < 10 ^ Z.of_nat (S n) -> (n <> O -> 10 ^ Z.of_nat n <= k) ->
    exists ds,
      String.length ds = S n /\ all_digits ds = true
      /\ JsString.digits_of fuel k acc = (ds ++ acc)%string.
Proof.
  induction n as [|n IH]; intros fuel k acc Hfuel Hk Hlow;
    (destruct fuel as [|fuel]; [lia|]); cbn [JsString.digits_of].
  - change (10 ^ Z.of_nat 1) with 10 in Hk.
    rewrite Z.div_small by lia. cbn [Z.eqb].
    exists (String (JsString.digit_char (k mod 10)) EmptyString).
    split; [reflexivity|]. split; [|reflexivity].
    unfold all_digits. cbn [list_ascii_of_string forallb].
    rewrite is_digit_digit_char; [reflexivity|].
    apply Z.mod_pos_bound. lia.
  - specialize (Hlow ltac:(discriminate)).
    assert (forall i : nat, 10 ^ Z.of_nat (S i) = 10 * 10 ^ Z.of_nat i) as Hpow
      by (intros i; rewrite Nat2Z.inj_succ, Z.pow_succ_r by lia; reflexivity).
    rewrite (Hpow (S n)) in Hk. rewrite (Hpow n) in Hk, Hlow.
    assert (0 < 10 ^ Z.of_nat n) as Hpos by (apply Z.pow_pos_nonneg; lia).
    assert (10 ^ Z.of_nat n <= k / 10 < 10 * 10 ^ Z.of_nat n) as Hdiv.
    { split; [apply Z.div_le_lower_bound | apply Z.div_lt_upper_bound]; lia. }
    destruct (Z.eqb_spec (k / 10) 0) as [E | _]; [lia|].
    destruct (IH fuel (k / 10) (String (JsString.digit_char (k mod 10)) acc))
      as (ds & Hlen & Hdig & ->).
    + lia.
    + rewrite (Hpow n). lia.
    + intros _. lia.
    + exists (ds ++ String (JsString.digit_char (k mod 10)) EmptyString)%string.
      rewrite length_append, all_digits_append, Hlen, Hdig, append_assoc.
      split; [cbn; lia|]. split; [|reflexivity].
      unfold all_digits. cbn [list_ascii_of_string forallb].
      rewrite is_digit_digit_char; [reflexivity|].
      apply Z.mod_pos_bound. lia.
Qed.

Lemma int_toString_shape (n : nat) (k : Z) :
  0 <= k < 10 ^ Z.of_nat (S n) -> (n <> O -> 10 ^ Z.of_nat n <= k) ->
  String.length (JsString.int_toString k) = S n
  /\ all_digits (JsString.int_toString k) = true.
Proof.
  intros Hk Hlow. unfold JsString.int_toString.
  destruct (Z.ltb_spec k 0) as [Hneg | _]; [lia|].
  destruct (digits_of_shape n (S (Z.to_nat (Z.log2 k))) k EmptyString) as (ds & Hlen & Hd & ->);
    [|exact Hk | exact Hlow | now rewrite append_empty].
  destruct n as [|n]; [lia|]. specialize (Hlow ltac:(discriminate)).
  assert (Z.of_nat (S n) <= Z.log2 k); [|lia].
  rewrite <- (Z.log2_pow2 (Z.of_nat (S n))) by lia.
  apply Z.log2_le_mono. etransitivity; [|exact Hlow].
  apply Z.pow_le_mono_l. lia.
Qed.

Lemma int_toString_five_digits (k : Z) :
  10000 <= k <= 99999 -> matches_five_digits (JsString.int_toString k) = true.
Proof.
  intros Hk. destruct (int_toString_shape 4 k) as [Hlen Hd].
  - change (10 ^ Z.of_nat 5) with 100000. lia.
  - intros _. change (10 ^ Z.of_nat 4) with 10000. lia.
  - unfold matches_five_digits. fold (all_digits (JsString.int_toString k)).
    now rewrite Hlen, Hd.
Qed.

(** The filler of [padStart] with zeros. *)
Lemma zeros_shape (m : nat) :
  String.length (String.substring 0 m (JsString.repeat "0" m)) = m
  /\ all_digits (String.substring 0 m (JsString.repeat "0" m)) = true.
Proof.
  induction m as [|m [IH1 IH2]]; [split; reflexivity|].
  cbn [JsString.repeat String.append String.substring String.length].
  split; [now rewrite IH1|]. unfold all_digits in *. cbn. exact IH2.
Qed.

Lemma padStart_five_digits (k : Z) :
  0 <= k <= 99999 ->
  matches_five_digits (JsString.padStart (JsString.int_toString k) 5 "0") = true.
Proof.
  intros Hk.
  assert (exists n, (n < 5)%nat
                    /\ String.length (JsString.int_toString k) = S n
                    /\ all_digits (JsString.int_toString k) = true) as (n & Hn & Hlen & Hd).
  { assert (k < 10 \/ 10 <= k < 100 \/ 100 <= k < 1000 \/ 1000 <= k < 10000
            \/ 10000 <= k) as Hcases by lia.
    destruct Hcases as [H | [H | [H | [H | H]]]].
    - exists 0%nat. split; [lia|]. apply int_toString_shape; [cbn; lia | congruence].
    - exists 1%nat. split; [lia|]. apply int_toString_shape; [cbn; lia | cbn; lia].
    - exists 2%nat. split; [lia|]. apply int_toString_shape; [cbn; lia | cbn; lia].
    - exists 3%nat. split; [lia|]. apply int_toString_shape; [cbn; lia | cbn; lia].
    - exists 4%nat. split; [lia|]. apply int_toString_shape; [cbn; lia | cbn; lia]. }
  unfold JsString.padStart, matches_five_digits. rewrite Hlen.
  destruct (Nat.leb_spec 5 (S n)) as [Hfull | Hpad].
  - fold (all_digits (JsString.int_toString k)). rewrite Hlen, Hd.
    replace (S n) with 5%nat by lia. reflexivity.
  - cbn [String.length Nat.eqb].
    destruct (zeros_shape (5 - S n)) as [Hz1 Hz2].
    match goal with |- context [list_ascii_of_string ?s] => fold (all_digits s) end.
    rewrite length_append, all_digits_append, Hz1, Hz2, Hlen, Hd.
    replace (5 - S n + S n)%nat with 5%nat by lia. reflexivity.
Qed.

Lemma lookup_Some_In (stateCode : string) (table : list (string * ZipRange)) (r : ZipRange) :
  lookup stateCode table = Some r -> In (stateCode, r) table.
Proof.
  induction table as [|[k r'] table IH]; simpl; [discriminate|].
  destruct (String.eqb k stateCode) eqn:E.
  - intros [= ->]. apply String.eqb_eq in E. subst. now left.
  - intros H. right. now apply IH.
Qed.

Lemma supported_lookup (stateCode : string) :
  supported stateCode -> exists r, lookup stateCode zipRanges = Some r.
Proof.
  unfold supported. generalize zipRanges. intros table.
  induction table as [|[k r'] table IH]; simpl; [tauto|].
  intros [-> | H].
  - rewrite String.eqb_refl. now exists r'.
  - destruct (String.eqb k stateCode); [now exists r' | now apply IH].
Qed.

(** A range all of whose codes print as five digits under the formatting
    of its state. *)
Definition five_digit_range (stateCode : string) (r : ZipRange) : bool :=
  if padded_state stateCode then (0 <=? start r) && (end_ r <=? 99999)
  else (10000 <=? start r) && (end_ r <=? 99999).

Lemma five_digit_range_format (stateCode : string) (r : ZipRange) (k : Z) :
  five_digit_range stateCode r = true -> start r <= k <= end_ r ->
  matches_five_digits (format_zip stateCode k) = true.
Proof.
  unfold five_digit_range, format_zip. intros H Hk.
  destruct (padded_state stateCode);
    apply andb_true_iff in H; destruct H as [H1 H2];
    apply Z.leb_le in H1, H2.
  - apply padStart_five_digits. lia.
  - apply int_toString_five_digits. lia.
Qed.

Lemma table_five_digit_ranges :
  forallb (fun kr => String.eqb (fst kr) "NJ" || five_digit_range (fst kr) (snd kr))
          zipRanges = true.
Proof. reflexivity. Qed.

(** What is pushed: a formatted code of the range of the state, or the
    plain digits of a code of one of the additional ranges, which all lie
    between 10000 and 99999. *)
Lemma pushed_zips_In (stateCode : string) (r : ZipRange) (x : string) :
  In x (pushed_zips stateCode r) ->
  (exists k, start r <= k <= end_ r /\ x = format_zip stateCode k)
  \/ (exists k, 10000 <= k <= 99999 /\ x = JsString.int_toString k).
Proof.
  unfold pushed_zips.
  destruct (String.eqb stateCode "TX"), (String.eqb stateCode "CA"),
    (String.eqb stateCode "NY");
    rewrite ?for_range_In; simpl In;
    intros H; decompose [or ex and] H; clear H; subst;
    try contradiction;
    solve [ left; eexists; split; [|reflexivity]; lia
          | right; eexists; split; [|reflexivity]; lia ].
Qed.

(** Every element the generator returns for a supported state other than
    New Jersey is a string of five digits. *)
Lemma generateAllZipCodesForState_five_digits (stateCode : string) :
  supported stateCode -> stateCode <> "NJ" ->
  Forall (fun z => matches_five_digits z = true) (generateAllZipCodesForState stateCode).
Proof.
  intros Hs Hnj. destruct (supported_lookup _ Hs) as [r Hr].
  assert (five_digit_range stateCode r = true) as Hok.
  { pose proof table_five_digit_ranges as Ht. rewrite forallb_forall in Ht.
    specialize (Ht _ (lookup_Some_In _ _ _ Hr)). simpl in Ht.
    apply orb_true_iff in Ht. destruct Ht as [Ht | Ht]; [|exact Ht].
    apply String.eqb_eq in Ht. congruence. }
  apply Forall_forall. intros x Hx.
  apply (generateAllZipCodesForState_In _ _ _ Hr) in Hx.
  destruct (pushed_zips_In _ _ _ Hx) as [[k [Hk ->]] | [k [Hk ->]]].
  - now apply (five_digit_range_format _ r).
  - now apply int_toString_five_digits.
Qed.

(** Among the supported states other than New Jersey, the padded ones are
    those whose range starts below 10000. *)
Lemma padded_iff_starts_below_10000 (stateCode : string) (r : ZipRange) :
  lookup stateCode zipRanges = Some r -> stateCode <> "NJ" ->
  (padded_state stateCode = true <-> start r < 10000).
Proof.
  intros Hr Hnj.
  assert (forallb (fun kr => String.eqb (fst kr) "NJ"
                             || Bool.eqb (padded_state (fst kr)) (start (snd kr) <? 10000))
                  zipRanges = true) as Ht by (vm_compute; reflexivity).
  rewrite forallb_forall in Ht. specialize (Ht _ (lookup_Some_In _ _ _ Hr)). simpl in Ht.
  apply orb_true_iff in Ht. destruct Ht as [Ht | Ht].
  - apply String.eqb_eq in Ht. congruence.
  - apply Bool.eqb_prop in Ht. rewrite Ht. apply Z.ltb_lt.
Qed.

(** What the generator returns for New Jersey: the plain digits of the
    codes of its range. *)
Lemma generateAllZipCodesForState_NJ_In (z : string) :
  In z (generateAllZipCodesForState "NJ")
  <-> exists k, 7001 <= k <= 8989 /\ z = JsString.int_toString k.
Proof.
  rewrite (generateAllZipCodesForState_In "NJ" {| start := 7001; end_ := 8989 |})
    by reflexivity.
  change (pushed_zips "NJ" {| start := 7001; end_ := 8989 |})
    with (for_range 7001 8989 (format_zip "NJ") []).
  rewrite for_range_In. cbn [In]. split.
  - intros [[] | H]. exact H.
  - intros H. right. exact H.
Qed.

(** C1 (the code departs from the claim at New Jersey).  "NJ" is a
    supported state whose range starts at 7001, below 10000, and it is
    missing from the states the generator pads: its list holds the
    four-character string 7001, and none of its elements is a string of
    five digits. *)
Theorem generateAllZipCodesForState_NJ_unpadded :
  supported "NJ"
  /\ lookup "NJ" zipRanges = Some {| start := 7001; end_ := 8989 |}
  /\ padded_state "NJ" = false
  /\ In "7001" (generateAllZipCodesForState "NJ")
  /\ (forall z, In z (generateAllZipCodesForState "NJ") -> matches_five_digits z = false).
Proof.
  split; [unfold supported; cbn; do 29 right; now left|].
  split; [reflexivity|]. split; [reflexivity|]. split.
  - apply (proj2 (generateAllZipCodesForState_NJ_In "7001")).
    exists 7001. split; [lia | reflexivity].
  - intros z Hz. apply (proj1 (generateAllZipCodesForState_NJ_In z)) in Hz.
    destruct Hz as (k & Hk & ->).
    destruct (int_toString_shape 3 k) as [Hlen _].
    + change (10 ^ Z.of_nat 4) with 10000. lia.
    + intros _. change (10 ^ Z.of_nat 3) with 1000. lia.
    + unfold matches_five_digits. now rewrite Hlen.
Qed.

End ZipRangesFacts.

(** ** The calendar *)

Module JsDateFacts.

Import JsDate.

Lemma doeOfDay_range (day : Z) : 0 <= doeOfDay day < daysPerEra.
Proof. unfold doeOfDay, daysPerEra. apply Z.mod_pos_bound. lia. Qed.

Lemma day_decomposition (day : Z) :
  day = eraOfDay day * daysPerEra + doeOfDay day - eraShift.
Proof.
  unfold eraOfDay, doeOfDay.
  pose proof (Z.div_mod (day + eraShift) daysPerEra) as H.
  unfold daysPerEra in *. lia.
Qed.

Definition january_or_february (m : Z) : Z := if m <=? 2 then 1 else 0.

Lemma is_leap_spec (y : Z) :
  is_leap y = true <-> y mod 4 = 0 /\ (y mod 100 <> 0 \/ y mod 400 = 0).
Proof.
  unfold is_leap. rewrite andb_true_iff, orb_true_iff, negb_true_iff,
    !Z.eqb_eq, Z.eqb_neq. tauto.
Qed.

(** *** The year of the era *)

(** The March-based year of a day of the era, and the day of that year; the
    366th day exists in the years before a leap February only. *)
Lemma year_of_doe (doe : Z) :
  0 <= doe < daysPerEra ->
  0 <= yoe_of_doe doe < 400
  /\ 0 <= doy_of_doe doe <= 365
  /\ (doy_of_doe doe = 365 -> is_leap (yoe_of_doe doe + 1) = true).
Proof.
  intros H. split; [|split].
  - unfold yoe_of_doe, daysPerEra in *. Z.to_euclidean_division_equations. lia.
  - unfold doy_of_doe, yoe_of_doe, daysPerEra in *. Z.to_euclidean_division_equations. lia.
  - intros Hdoy. apply is_leap_spec.
    unfold doy_of_doe, yoe_of_doe, daysPerEra in *. Z.to_euclidean_division_equations. lia.
Qed.

Lemma doe_of_year (yoe doy : Z) :
  0 <= yoe < 400 -> 0 <= doy <= 365 -> (doy = 365 -> is_leap (yoe + 1) = true) ->
  let doe := yoe * 365 + yoe / 4 - yoe / 100 + doy in
  0 <= doe < daysPerEra /\ yoe_of_doe doe = yoe /\ doy_of_doe doe = doy.
Proof.
  intros Hy Hd Hleap. cbv zeta.
  assert (doy = 365 ->
          (yoe + 1) mod 4 = 0 /\ ((yoe + 1) mod 100 <> 0 \/ (yoe + 1) mod 400 = 0))
    as Hleap' by (intros E; apply is_leap_spec, Hleap, E).
  clear Hleap.
  assert (0 <= yoe * 365 + yoe / 4 - yoe / 100 + doy < daysPerEra
          /\ yoe_of_doe (yoe * 365 + yoe / 4 - yoe / 100 + doy) = yoe) as [H1 H2].
  { unfold yoe_of_doe, daysPerEra. Z.to_euclidean_division_equations. lia. }
  split; [exact H1|]. split; [exact H2|]. unfold doy_of_doe. rewrite H2. lia.
Qed.

(** *** The month and the day of the month *)

(** The month (1 to 12) and the day of the month of a day of a March-based
    year, and back. *)
Definition month_of_doy (doy : Z) : Z :=
  let mp := (5 * doy + 2) / 153 in if mp <? 10 then mp + 3 else mp - 9.

Definition date_of_doy (doy : Z) : Z :=
  let mp := (5 * doy + 2) / 153 in doy - (153 * mp + 2) / 5 + 1.

Definition doy_of_civil (m d : Z) : Z := (153 * ((m + 9) mod 12) + 2) / 5 + d - 1.

Definition month_length (m : Z) (leap : bool) : Z :=
  if m =? 2 then (if leap then 29 else 28)
  else if (m =? 4) || (m =? 6) || (m =? 9) || (m =? 11) then 30
  else 31.

Lemma month_of_doe_doy (doe : Z) : month_of_doe doe = month_of_doy (doy_of_doe doe).
Proof. reflexivity. Qed.

Lemma date_of_doe_doy (doe : Z) : date_of_doe doe = date_of_doy (doy_of_doe doe).
Proof. reflexivity. Qed.

Lemma doe_of_civil_doy (yoe m d : Z) :
  doe_of_civil yoe m d = yoe * 365 + yoe / 4 - yoe / 100 + doy_of_civil m d.
Proof. reflexivity. Qed.

Lemma days_in_month_length (y m : Z) : days_in_month y m = month_length m (is_leap y).
Proof. reflexivity. Qed.

(** Each of the 366 days of a year has a valid month and day, which give
    the day back. *)
Definition doy_checks (doy : Z) : bool :=
  let m := month_of_doy doy in
  let d := date_of_doy doy in
  (1 <=? m) && (m <=? 12) && (1 <=? d) && (d <=? month_length m (doy =? 365))
  && (doy_of_civil m d =? doy).

Lemma doy_checks_all (doy : Z) : 0 <= doy <= 365 -> doy_checks doy = true.
Proof.
  intros H. apply (all_from_range doy_checks 0 366); [vm_cast_no_check (eq_refl true) | lia].
Qed.

(** Each day of each month is the month and day of its day of the year,
    which is the 366th for the 29th of February only. *)
Definition month_checks (m : Z) : bool :=
  all_from (fun d =>
    let doy := doy_of_civil m d in
    (month_length m true <? d)
    || ((0 <=? doy) && (doy <=? 365) && (month_of_doy doy =? m) && (date_of_doy doy =? d)
        && Bool.eqb (doy =? 365) ((m =? 2) && (d =? 29))))
    31 1.

Lemma month_checks_all (m : Z) : 1 <= m <= 12 -> month_checks m = true.
Proof.
  intros H. apply (all_from_range month_checks 1 12); [vm_cast_no_check (eq_refl true) | lia].
Qed.

Lemma month_length_bound (m : Z) (leap : bool) :
  month_length m leap <= month_length m true /\ month_length m true <= 31.
Proof.
  unfold month_length. destruct (m =? 2), leap,
    ((m =? 4) || (m =? 6) || (m =? 9) || (m =? 11)); lia.
Qed.

Ltac to_props :=
  repeat match goal with
         | H : _ && _ = true |- _ => apply andb_true_iff in H; destruct H
         | H : (_ <=? _) = true |- _ => apply Z.leb_le in H
         | H : (_ <? _) = true |- _ => apply Z.ltb_lt in H
         | H : (_ =? _) = true |- _ => apply Z.eqb_eq in H
         end.

Lemma civil_checks_at (yoe m d : Z) :
  0 <= yoe < 400 -> 1 <= m <= 12 ->
  1 <= d <= days_in_month (yoe + january_or_february m) m ->
  let doe := doe_of_civil yoe m d in
  0 <= doe < daysPerEra /\ yoe_of_doe doe = yoe /\ month_of_doe doe = m
  /\ date_of_doe doe = d.
Proof.
  intros Hy Hm Hd. cbv zeta. rewrite days_in_month_length in Hd.
  pose proof (month_length_bound m (is_leap (yoe + january_or_february m))) as [Hb1 Hb2].
  pose proof (month_checks_all m Hm) as H. unfold month_checks in H.
  pose proof (all_from_spec _ _ _ H d ltac:(simpl; lia)) as C. cbv beta zeta in C.
  apply orb_true_iff in C. destruct C as [C | C]; [apply Z.ltb_lt in C; lia|].
  apply andb_true_iff in C. destruct C as [C Hlast]. to_props.
  apply Bool.eqb_prop in Hlast.
  assert (doy_of_civil m d = 365 -> is_leap (yoe + 1) = true) as Hleap.
  { intros E. rewrite E in Hlast. cbn in Hlast. symmetry in Hlast.
    apply andb_true_iff in Hlast. destruct Hlast as [Em Ed].
    apply Z.eqb_eq in Em, Ed. subst m d. cbn in Hd.
    destruct (is_leap (yoe + 1)); [reflexivity | lia]. }
  rewrite month_of_doe_doy, date_of_doe_doy, doe_of_civil_doy.
  destruct (doe_of_year yoe (doy_of_civil m d) Hy ltac:(lia) Hleap) as (R1 & R2 & R3).
  rewrite R3. repeat split; try assumption; lia.
Qed.

Lemma doe_checks_at (doe : Z) :
  0 <= doe < daysPerEra ->
  let yoe := yoe_of_doe doe in
  let m := month_of_doe doe in
  let d := date_of_doe doe in
  0 <= yoe < 400 /\ 1 <= m <= 12
  /\ 1 <= d <= days_in_month (yoe + january_or_february m) m
  /\ doe_of_civil yoe m d = doe.
Proof.
  intros H. cbv zeta.
  destruct (year_of_doe doe H) as (Hy & Hdoy & Hleap).
  pose proof (doy_checks_all _ Hdoy) as C. unfold doy_checks in C. cbv zeta in C.
  rewrite month_of_doe_doy, date_of_doe_doy, doe_of_civil_doy, days_in_month_length.
  set (doy := doy_of_doe doe) in *.
  to_props.
  split; [exact Hy|]. split; [lia|]. split.
  - split; [lia|].
    assert (month_length (month_of_doy doy) (doy =? 365)
            <= month_length (month_of_doy doy)
                            (is_leap (yoe_of_doe doe + january_or_february (month_of_doy doy))))
      as Hlen; [|lia].
    unfold month_length. destruct (Z.eqb_spec (month_of_doy doy) 2) as [E | _]; [|lia].
    unfold january_or_february. rewrite E. cbn [Z.leb Z.compare Pos.compare Pos.compare_cont].
    destruct (Z.eqb_spec doy 365) as [E365 | _].
    + now rewrite (Hleap E365).
    + destruct (is_leap (yoe_of_doe doe + 1)); lia.
  - match goal with Hd : doy_of_civil _ _ = doy |- _ => rewrite Hd end.
    unfold doy, doy_of_doe. lia.
Qed.

Lemma is_leap_period (a era : Z) : is_leap (a + era * 400) = is_leap a.
Proof.
  unfold is_leap.
  replace ((a + era * 400) mod 4) with (a mod 4)
    by (replace (a + era * 400) with (a + (era * 100) * 4) by lia;
        now rewrite Z.mod_add).
  replace ((a + era * 400) mod 100) with (a mod 100)
    by (replace (a + era * 400) with (a + (era * 4) * 100) by lia;
        now rewrite Z.mod_add).
  now rewrite Z.mod_add.
Qed.

Lemma days_in_month_period (a era m : Z) :
  days_in_month (a + era * 400) m = days_in_month a m.
Proof. unfold days_in_month. now rewrite is_leap_period. Qed.

(** The March-based year of a civil year and month, split into its era
    and its year of the era. *)
Lemma march_year_split (yoe era : Z) :
  0 <= yoe < 400 ->
  (yoe + era * 400) / 400 = era /\ (yoe + era * 400) mod 400 = yoe.
Proof.
  intros H. rewrite Z.div_add, Z.mod_add by lia.
  rewrite Z.div_small, Z.mod_small by lia. lia.
Qed.

Lemma doe_of_civil_shift (yoe m d d' : Z) :
  doe_of_civil yoe m d' = doe_of_civil yoe m d + (d' - d).
Proof. unfold doe_of_civil. lia. Qed.

Lemma DayFromCivil_shift (y m d d' : Z) :
  DayFromCivil y m d' = DayFromCivil y m d + (d' - d).
Proof. unfold DayFromCivil. rewrite (doe_of_civil_shift _ m d d'). lia. Qed.

(** The civil date of a day is valid. *)
Lemma civil_date_valid (day : Z) :
  0 <= MonthFromDay day <= 11
  /\ 1 <= DateFromDay day <= days_in_month (YearFromDay day) (MonthFromDay day + 1).
Proof.
  destruct (doe_checks_at _ (doeOfDay_range day)) as (Hy & Hm & Hd & _).
  unfold MonthFromDay, DateFromDay, YearFromDay.
  replace (month_of_doe (doeOfDay day) - 1 + 1) with (month_of_doe (doeOfDay day)) by lia.
  replace (yoe_of_doe (doeOfDay day) + eraOfDay day * 400
           + (if month_of_doe (doeOfDay day) <=? 2 then 1 else 0))
    with (yoe_of_doe (doeOfDay day) + january_or_february (month_of_doe (doeOfDay day))
          + eraOfDay day * 400)
    by (unfold january_or_february; lia).
  rewrite days_in_month_period. lia.
Qed.

(** The day number of the civil date of a day, its date replaced. *)
Lemma DayFromCivil_of_day (day dt : Z) :
  DayFromCivil (YearFromDay day) (MonthFromDay day + 1) dt = day - DateFromDay day + dt.
Proof.
  destruct (doe_checks_at _ (doeOfDay_range day)) as (Hy & Hm & Hd & Hdoe).
  unfold MonthFromDay, DateFromDay, YearFromDay, DayFromCivil.
  replace (month_of_doe (doeOfDay day) - 1 + 1) with (month_of_doe (doeOfDay day)) by lia.
  set (m := month_of_doe (doeOfDay day)) in *.
  set (yoe := yoe_of_doe (doeOfDay day)) in *.
  replace (if m <=? 2
           then yoe + eraOfDay day * 400 + (if m <=? 2 then 1 else 0) - 1
           else yoe + eraOfDay day * 400 + (if m <=? 2 then 1 else 0))
    with (yoe + eraOfDay day * 400) by (destruct (m <=? 2); lia).
  destruct (march_year_split yoe (eraOfDay day) Hy) as [-> ->].
  rewrite (doe_of_civil_shift yoe m (date_of_doe (doeOfDay day)) dt), Hdoe.
  pose proof (day_decomposition day). lia.
Qed.

Lemma MakeDay_of_day (day dt : Z) :
  MakeDay (YearFromDay day) (MonthFromDay day) dt = day - DateFromDay day + dt.
Proof.
  pose proof (civil_date_valid day) as [Hm _].
  unfold MakeDay. rewrite Z.div_small, Z.mod_small by lia.
  rewrite Z.add_0_r, DayFromCivil_of_day. lia.
Qed.

(** The civil date of the day number of a valid civil date. *)
Lemma civil_of_DayFromCivil (y m d : Z) :
  1 <= m <= 12 -> 1 <= d <= days_in_month y m ->
  YearFromDay (DayFromCivil y m d) = y
  /\ MonthFromDay (DayFromCivil y m d) = m - 1
  /\ DateFromDay (DayFromCivil y m d) = d.
Proof.
  intros Hm Hd.
  set (y' := if m <=? 2 then y - 1 else y).
  assert (0 <= y' mod 400 < 400) as Hyoe by (apply Z.mod_pos_bound; lia).
  assert (y = y' mod 400 + january_or_february m + (y' / 400) * 400) as Hy.
  { pose proof (Z.div_mod y' 400 ltac:(lia)).
    unfold january_or_february, y' in *. destruct (m <=? 2); lia. }
  assert (1 <= d <= days_in_month (y' mod 400 + january_or_february m) m) as Hd'.
  { rewrite Hy, days_in_month_period in Hd. exact Hd. }
  destruct (civil_checks_at _ _ _ Hyoe Hm Hd') as (Hdoe & Hy1 & Hm1 & Hd1).
  set (doe := doe_of_civil (y' mod 400) m d) in *.
  assert (DayFromCivil y m d + eraShift = doe + (y' / 400) * daysPerEra) as Hday.
  { unfold DayFromCivil. fold y'. fold doe. lia. }
  assert (eraOfDay (DayFromCivil y m d) = y' / 400) as Hera.
  { unfold eraOfDay. rewrite Hday. unfold daysPerEra in *.
    rewrite Z.div_add, Z.div_small by lia. lia. }
  assert (doeOfDay (DayFromCivil y m d) = doe) as Hdoe'.
  { unfold doeOfDay. rewrite Hday. unfold daysPerEra in *.
    rewrite Z.mod_add, Z.mod_small by lia. reflexivity. }
  unfold YearFromDay, MonthFromDay, DateFromDay. rewrite Hera, Hdoe', Hy1, Hm1, Hd1.
  split; [|split; reflexivity].
  unfold january_or_february in Hy. lia.
Qed.

(** *** Dates: [setDate] and [setFullYear] *)

Lemma Day_MakeDate (day time : Z) :
  0 <= time < msPerDay ->
  Day (MakeDate day time) = day /\ TimeWithinDay (MakeDate day time) = time.
Proof.
  intros H. unfold Day, TimeWithinDay, MakeDate, msPerDay in *.
  rewrite (Z.add_comm (day * 86400000)), Z.div_add, Z.mod_add by lia.
  rewrite Z.div_small, Z.mod_small by lia. lia.
Qed.

Lemma TimeWithinDay_range (t : Z) : 0 <= TimeWithinDay t < msPerDay.
Proof. unfold TimeWithinDay, msPerDay. apply Z.mod_pos_bound. lia. Qed.

Lemma time_decomposition (t : Z) : t = MakeDate (Day t) (TimeWithinDay t).
Proof.
  unfold MakeDate, Day, TimeWithinDay, msPerDay.
  pose proof (Z.div_mod t 86400000). lia.
Qed.

(** A date moved by whole days. *)
Definition addDays (d : Date) (k : Z) : Date := d + k * msPerDay.

Lemma Day_addDays (t k : Z) :
  Day (addDays t k) = Day t + k /\ TimeWithinDay (addDays t k) = TimeWithinDay t.
Proof.
  unfold addDays, Day, TimeWithinDay, msPerDay.
  rewrite Z.div_add, Z.mod_add by lia. lia.
Qed.

(** [d.setDate(d.getDate() + k)] moves [d] by [k] days. *)
Lemma setDate_getDate (tza : Z) (d : Date) (k : Z) :
  setDate tza d (getDate tza d + k) = addDays d k.
Proof.
  unfold setDate, getDate, DateFromTime, YearFromTime, MonthFromTime, UTC, LocalTime, addDays.
  rewrite MakeDay_of_day.
  pose proof (time_decomposition (d + tza)) as H. unfold MakeDate in *. lia.
Qed.

Lemma getDay_range (tza : Z) (d : Date) : 0 <= getDay tza d < 7.
Proof. unfold getDay, WeekDay. apply Z.mod_pos_bound. lia. Qed.

Lemma LocalTime_setFullYear (tza : Z) (d : Date) (y : Z) :
  LocalTime tza (setFullYear tza d y)
  = MakeDate (MakeDay y (getMonth tza d) (getDate tza d)) (TimeWithinDay (LocalTime tza d)).
Proof. unfold getMonth, getDate, setFullYear, UTC, LocalTime. lia. Qed.

(** The days of a month do not depend on the year, February apart. *)
Lemma date_fits_previous_year (y m d : Z) :
  1 <= d <= days_in_month y m -> ~ (m = 2 /\ d = 29) ->
  1 <= d <= days_in_month (y - 1) m.
Proof.
  unfold days_in_month. intros H Hne.
  destruct (Z.eqb_spec m 2) as [-> | Hm]; [|exact H].
  destruct (is_leap y), (is_leap (y - 1)); lia.
Qed.

(** The calendar day of [last] is the one of [this] a year before. *)
Definition previous_year_same_day (tza : Z) (this last : Date) : Prop :=
  getFullYear tza last = getFullYear tza this - 1
  /\ getMonth tza last = getMonth tza this
  /\ getDate tza last = getDate tza this.

(** [d.setFullYear(d.getFullYear() - 1)] keeps the month, the day of the
    month and the time of day of every date but a 29th of February. *)
Lemma setFullYear_previous (tza : Z) (d : Date) :
  ~ (getMonth tza d = 1 /\ getDate tza d = 29) ->
  previous_year_same_day tza d (setFullYear tza d (getFullYear tza d - 1))
  /\ TimeWithinDay (LocalTime tza (setFullYear tza d (getFullYear tza d - 1)))
     = TimeWithinDay (LocalTime tza d).
Proof.
  intros Hne.
  set (day := Day (LocalTime tza d)).
  destruct (civil_date_valid day) as [Hm Hd].
  assert (MakeDay (getFullYear tza d - 1) (getMonth tza d) (getDate tza d)
          = DayFromCivil (YearFromDay day - 1) (MonthFromDay day + 1) (DateFromDay day))
    as Hmake.
  { unfold getFullYear, getMonth, getDate, YearFromTime, MonthFromTime, DateFromTime.
    fold day. unfold MakeDay. rewrite Z.div_small, Z.mod_small, Z.add_0_r by lia.
    rewrite (DayFromCivil_shift _ _ (DateFromDay day) 1). lia. }
  destruct (Day_MakeDate (MakeDay (getFullYear tza d - 1) (getMonth tza d) (getDate tza d))
                         (TimeWithinDay (LocalTime tza d))
                         (TimeWithinDay_range _)) as [Hday Htime].
  rewrite <- LocalTime_setFullYear in Hday, Htime. rewrite Hmake in Hday.
  assert (1 <= DateFromDay day
          <= days_in_month (YearFromDay day - 1) (MonthFromDay day + 1)) as Hfit.
  { apply date_fits_previous_year; [exact Hd|].
    unfold getMonth, getDate, MonthFromTime, DateFromTime in Hne. fold day in Hne. lia. }
  destruct (civil_of_DayFromCivil (YearFromDay day - 1) (MonthFromDay day + 1)
                                  (DateFromDay day) ltac:(lia) Hfit) as (Hy' & Hm' & Hd').
  split; [|exact Htime].
  set (d' := setFullYear tza d (getFullYear tza d - 1)) in *.
  unfold previous_year_same_day, getFullYear, getMonth, getDate,
    YearFromTime, MonthFromTime, DateFromTime.
  rewrite Hday, Hy', Hm', Hd'. fold day. repeat split; lia.
Qed.

End JsDateFacts.

(** ** The weekend calendar *)

Module WeekendDatesFacts.

Import JsDate JsDateFacts Weekend.

(** The table of the specification, by day of the week from Sunday. *)
Definition weekday_offsets : list Z := [5; 4; 3; 2; 1; 0; 6].

Definition offset_of_weekday (currentDay : Z) : Z :=
  nth (Z.to_nat currentDay) weekday_offsets 0.

Lemma daysUntilFriday_table (currentDay : Z) :
  0 <= currentDay < 7 -> daysUntilFriday currentDay = offset_of_weekday currentDay.
Proof.
  intros H.
  assert (currentDay = 0 \/ currentDay = 1 \/ currentDay = 2 \/ currentDay = 3
          \/ currentDay = 4 \/ currentDay = 5 \/ currentDay = 6) as Hcases by lia.
  decompose [or] Hcases; subst; reflexivity.
Qed.

(** The local calendar day of a date, as a day number. *)
Definition local_day (tza : Z) (d : Date) : Z := Day (LocalTime tza d).

Lemma local_day_addDays (tza : Z) (d : Date) (k : Z) :
  local_day tza (addDays d k) = local_day tza d + k.
Proof.
  unfold local_day, LocalTime.
  replace (addDays d k + tza) with (addDays (d + tza) k) by (unfold addDays; lia).
  apply Day_addDays.
Qed.

(** This weekend and the next one, as the specification places them, in
    local calendar days. *)
Definition this_and_next_weekend (tza : Z) (today : Date) (w : WeekendDates) : Prop :=
  local_day tza (thisFriday w) = local_day tza today + offset_of_weekday (getDay tza today)
  /\ local_day tza (thisSaturday w) = local_day tza (thisFriday w) + 1
  /\ local_day tza (thisSunday w) = local_day tza (thisFriday w) + 2
  /\ local_day tza (nextFriday w) = local_day tza (thisFriday w) + 7
  /\ local_day tza (nextSaturday w) = local_day tza (thisSaturday w) + 7
  /\ local_day tza (nextSunday w) = local_day tza (thisSunday w) + 7.

(** The dates of this weekend and the next one as time values, where the
    offset of local time is the constant of this development. *)
Definition moved_by_whole_days (tza : Z) (today : Date) (w : WeekendDates) : Prop :=
  thisFriday w = addDays today (offset_of_weekday (getDay tza today))
  /\ thisSaturday w = addDays (thisFriday w) 1
  /\ thisSunday w = addDays (thisFriday w) 2
  /\ nextFriday w = addDays (thisFriday w) 7
  /\ nextSaturday w = addDays (thisSaturday w) 7
  /\ nextSunday w = addDays (thisSunday w) 7.

(** The statement of the specification about [getWeekendDates], for the
    time zone [tza] and the current date [today]. *)
Definition weekend_dates_claim (tza : Z) (today : Date) : Prop :=
  let w := weekendDatesOf tza today in
  this_and_next_weekend tza today w
  /\ previous_year_same_day tza (thisFriday w) (lastYearFriday w)
  /\ previous_year_same_day tza (thisSaturday w) (lastYearSaturday w)
  /\ previous_year_same_day tza (thisSunday w) (lastYearSunday w).

(** A date that is not a 29th of February (months count from 0). *)
Definition not_leap_day (tza : Z) (d : Date) : Prop :=
  ~ (getMonth tza d = 1 /\ getDate tza d = 29).

(** Noon of Friday the 28th of February 2020, in a zone on UTC. *)
Definition friday_2020_02_28 : Date := MakeDate (DayFromCivil 2020 2 28) 43200000.

(** Noon of Monday the 2nd of November 2026. *)
Definition monday_2026_11_02 : Date := MakeDate (DayFromCivil 2026 11 2) 43200000.

Lemma getWeekendDates_value (host : Host) (s : State) :
  fst (getWeekendDates host s) = weekendDatesOf (LocalTZA host) (clock host (clock_reads s)).
Proof. reflexivity. Qed.

Lemma weekendDatesOf_this_and_next (tza : Z) (today : Date) :
  moved_by_whole_days tza today (weekendDatesOf tza today).
Proof.
  unfold moved_by_whole_days, weekendDatesOf. cbn [thisFriday thisSaturday thisSunday
    nextFriday nextSaturday nextSunday].
  rewrite !setDate_getDate, (daysUntilFriday_table _ (getDay_range tza today)).
  unfold addDays. repeat split; lia.
Qed.

Lemma weekendDatesOf_lastYear (tza : Z) (today : Date) :
  let w := weekendDatesOf tza today in
  lastYearFriday w = setFullYear tza (thisFriday w) (getFullYear tza (thisFriday w) - 1)
  /\ lastYearSaturday w
     = setFullYear tza (thisSaturday w) (getFullYear tza (thisSaturday w) - 1)
  /\ lastYearSunday w = setFullYear tza (thisSunday w) (getFullYear tza (thisSunday w) - 1).
Proof. cbv zeta. unfold weekendDatesOf. cbn [lastYearFriday lastYearSaturday lastYearSunday
  thisFriday thisSaturday thisSunday]. repeat split. Qed.

Lemma weekendDatesOf_local_offsets (tza : Z) (today : Date) :
  this_and_next_weekend tza today (weekendDatesOf tza today).
Proof.
  destruct (weekendDatesOf_this_and_next tza today) as (F & S & U & NF & NS & NU).
  unfold this_and_next_weekend.
  set (w := weekendDatesOf tza today) in *. clearbody w.
  rewrite NU, NS, NF, U, S, F, !local_day_addDays. repeat split; lia.
Qed.

(** C5, as the code has it.  For every time zone and every current date,
    in local calendar days, [getWeekendDates] places this Friday on the day
    of today plus the offset of the table (Sunday 5, Monday 4, Tuesday 3,
    Wednesday 2, Thursday 1, Friday 0, Saturday 6), this Saturday and
    Sunday one and two days later, the next weekend seven days after this
    one day by day, and each day of last year's weekend on the calendar day
    of its day of this weekend with the year decremented, month and day of
    the month unchanged, whenever that day of this weekend is not a 29th of
    February. *)
Theorem getWeekendDates_offsets (tza : Z) (today : Date) :
  let w := weekendDatesOf tza today in
  this_and_next_weekend tza today w
  /\ (not_leap_day tza (thisFriday w) ->
      previous_year_same_day tza (thisFriday w) (lastYearFriday w))
  /\ (not_leap_day tza (thisSaturday w) ->
      previous_year_same_day tza (thisSaturday w) (lastYearSaturday w))
  /\ (not_leap_day tza (thisSunday w) ->
      previous_year_same_day tza (thisSunday w) (lastYearSunday w)).
Proof.
  intros w. split; [apply weekendDatesOf_local_offsets|].
  unfold not_leap_day.
  destruct (weekendDatesOf_lastYear tza today) as (Hfri & Hsat & Hsun). fold w in Hfri, Hsat, Hsun.
  rewrite Hfri, Hsat, Hsun. clearbody w.
  split; [|split]; intros H; apply setFullYear_previous; exact H.
Qed.

(** The theorem at a Monday: this Friday is four days later, and last
    year's Friday is the 6th of November 2025. *)
Lemma getWeekendDates_offsets_witness :
  let w := weekendDatesOf 0 monday_2026_11_02 in
  local_day 0 (thisFriday w) = local_day 0 monday_2026_11_02 + 4
  /\ previous_year_same_day 0 (thisFriday w) (lastYearFriday w).
Proof.
  intros w.
  destruct (getWeekendDates_offsets 0 monday_2026_11_02) as (Hthis & Hfriday & _).
  split.
  - exact (proj1 Hthis).
  - apply Hfriday. vm_compute. intros [Hmonth _]. discriminate Hmonth.
Defined.

(** C5, as the specification states it, fails: on Friday the 28th of
    February 2020 this Saturday is the 29th of February, and last year's
    Saturday is the 1st of March 2019. *)
Lemma weekend_dates_claim_fails_on_leap_day :
  ~ weekend_dates_claim 0 friday_2020_02_28.
Proof.
  unfold weekend_dates_claim. intros (_ & _ & (_ & Hmonth & _) & _).
  vm_compute in Hmonth. discriminate Hmonth.
Qed.

End WeekendDatesFacts.

Local Open Scope list_scope.

(** ** Trimming and splitting *)

Module JsStringFacts.

Import JsString.

(** A string of white space only. *)
Fixpoint blank (s : string) : bool :=
  match s with
  | EmptyString => true
  | String c rest => is_space c && blank rest
  end.

Lemma trimStart_blank (s : string) : blank s = true -> trimStart s = EmptyString.
Proof.
  induction s as [|c rest IH]; [reflexivity|]. cbn. intros H.
  apply andb_true_iff in H. destruct H as [-> H]. now apply IH.
Qed.

Lemma blank_trimStart (s : string) : blank (trimStart s) = true -> blank s = true.
Proof.
  induction s as [|c rest IH]; [reflexivity|]. cbn.
  destruct (is_space c) eqn:E; [exact IH|]. cbn. now rewrite E.
Qed.

Lemma trimEnd_blank (s : string) : blank s = true -> trimEnd s = EmptyString.
Proof.
  induction s as [|c rest IH]; [reflexivity|]. cbn. intros H.
  apply andb_true_iff in H. destruct H as [-> H]. now rewrite (IH H).
Qed.

Lemma blank_trimEnd (s : string) : trimEnd s = EmptyString -> blank s = true.
Proof.
  induction s as [|c rest IH]; [reflexivity|]. cbn.
  destruct (trimEnd rest) eqn:E; [|discriminate].
  destruct (is_space c); [|discriminate]. intros _. now rewrite IH.
Qed.

Lemma trim_blank (s : string) : is_empty (trim s) = true <-> blank s = true.
Proof.
  unfold trim. split.
  - intros H. apply blank_trimStart, blank_trimEnd.
    destruct (trimEnd (trimStart s)); [reflexivity | discriminate].
  - intros H. now rewrite (trimStart_blank s H).
Qed.

(** The pieces of a blank string are blank. *)
Lemma split_char_blank (sep : ascii) (s : string) :
  blank s = true -> Forall (fun piece => blank piece = true) (split_char sep s).
Proof.
  induction s as [|c rest IH]; cbn; intros H.
  - repeat constructor.
  - apply andb_true_iff in H. destruct H as [Hc H]. specialize (IH H).
    destruct (Ascii.eqb c sep).
    + constructor; [reflexivity | exact IH].
    + destruct (split_char sep rest) as [|h t].
      * repeat constructor. cbn. now rewrite Hc.
      * inversion IH as [|? ? Hh Ht]; subst. constructor; [|exact Ht].
        cbn. now rewrite Hc, Hh.
Qed.

(** The pieces between runs of separators hold no separator. *)
Lemma split_runs_no_separator (sep : ascii -> bool) (s : string) :
  forall in_run,
    Forall (fun piece => forallb (fun c => negb (sep c)) (list_ascii_of_string piece) = true)
           (split_runs sep in_run s).
Proof.
  induction s as [|c rest IH]; intros in_run; cbn.
  - repeat constructor.
  - destruct (sep c) eqn:E.
    + destruct in_run; [apply IH | constructor; [reflexivity | apply IH]].
    + specialize (IH false). destruct (split_runs sep false rest) as [|h t].
      * repeat constructor. cbn. now rewrite E.
      * inversion IH as [|? ? Hh Ht]; subst. constructor; [|exact Ht].
        cbn. now rewrite E, Hh.
Qed.

(** A string that holds no white space is its own trimming. *)
Lemma trimEnd_no_space (s : string) :
  forallb (fun c => negb (is_space c)) (list_ascii_of_string s) = true -> trimEnd s = s.
Proof.
  induction s as [|c rest IH]; [reflexivity|]. cbn. intros H.
  apply andb_true_iff in H. destruct H as [Hc H]. rewrite (IH H).
  destruct rest; [|reflexivity].
  destruct (is_space c); [discriminate | reflexivity].
Qed.

Lemma trim_no_space (s : string) :
  forallb (fun c => negb (is_space c)) (list_ascii_of_string s) = true -> trim s = s.
Proof.
  intros H. unfold trim.
  assert (trimStart s = s) as ->; [|now apply trimEnd_no_space].
  destruct s as [|c rest]; [reflexivity|]. cbn in *.
  apply andb_true_iff in H. destruct H as [Hc _].
  destruct (is_space c); [discriminate | reflexivity].
Qed.

End JsStringFacts.

(** ** The provider queries and the fetch loop *)

Module WeekendFetchFacts.

Import JsNumber JsStringFacts Weekend.

(** *** Running a computation *)

Lemma bind_run {A B : Type} (c : M A) (k : A -> M B) (s : State) :
  bind c k s = k (fst (c s)) (snd (c s)).
Proof. unfold bind. destruct (c s). reflexivity. Qed.

(** The log of [s'] continues the log of [s]. *)
Definition grows (s s' : State) : Prop := exists more, logs s' = logs s ++ more.

Lemma grows_refl (s : State) : grows s s.
Proof. exists []. now rewrite app_nil_r. Qed.

Lemma grows_same (s s' : State) : logs s' = logs s -> grows s s'.
Proof. intros H. exists []. now rewrite app_nil_r. Qed.

Lemma grows_trans (s1 s2 s3 : State) : grows s1 s2 -> grows s2 s3 -> grows s1 s3.
Proof.
  intros [m1 H1] [m2 H2]. exists (m1 ++ m2). now rewrite H2, H1, app_assoc.
Qed.

Lemma grows_In (s s' : State) (line : string) :
  grows s s' -> In line (logs s) -> In line (logs s').
Proof. intros [more ->] H. apply in_or_app. now left. Qed.

(** A step that issues [n] requests and only adds to the log. *)
Definition issues (n : nat) (s s' : State) : Prop :=
  requests s' = (requests s + n)%nat /\ grows s s'.

Lemma issues_trans (n m : nat) (s1 s2 s3 : State) :
  issues n s1 s2 -> issues m s2 s3 -> issues (n + m) s1 s3.
Proof.
  intros [R1 G1] [R2 G2]. split; [lia | exact (grows_trans _ _ _ G1 G2)].
Qed.

(** The line [addLog] writes in state [s]. *)
Definition log_line (host : Host) (s : State) (message : string) : string :=
  (toLocaleTimeString host (clock host (clock_reads s)) ++ ": " ++ message)%string.

Lemma addLog_logs (host : Host) (message : string) (s : State) :
  logs (snd (addLog host message s)) = logs s ++ [log_line host s message].
Proof. reflexivity. Qed.

Lemma addLog_issues (host : Host) (message : string) (s : State) :
  issues 0 s (snd (addLog host message s)).
Proof. split; [cbn; lia | eexists; apply addLog_logs]. Qed.

Lemma setProgress_issues (p : option ProgressUpdate.t) (s : State) :
  issues 0 s (snd (setProgress p s)).
Proof. split; [cbn; lia | now apply grows_same]. Qed.

Lemma tick_entropy_issues (s : State) : issues 0 s (snd (tick_entropy s)).
Proof. split; [cbn; lia | now apply grows_same]. Qed.

Lemma getWeekendDates_issues (host : Host) (s : State) :
  issues 0 s (snd (getWeekendDates host s)).
Proof. split; [cbn; lia | now apply grows_same]. Qed.

(** Whether the stop button is pressed or not, an [await] issues no request
    and loses no log line. *)
Lemma await_issues (host : Host) (s : State) : issues 0 s (snd (await host s)).
Proof.
  unfold await. destruct (stop_pressed host (awaits s) && isProcessing s).
  - split; [cbn; lia | eexists; cbn; reflexivity].
  - split; [cbn; lia | now apply grows_same].
Qed.

Lemma json_run (host : Host) (body : Body) (s : State) :
  fst (json host body s) = body /\ issues 0 s (snd (json host body s)).
Proof.
  unfold json. rewrite bind_run. split; [reflexivity | apply await_issues].
Qed.

Lemma fetch_run (host : Host) (url : string) (s : State) :
  fst (fetch host url s) = network host (requests s) url
  /\ issues 1 s (snd (fetch host url s)).
Proof.
  unfold fetch.
  destruct (tick_requests s) as [u s1] eqn:E1.
  destruct (await host s1) as [u' s2] eqn:E2.
  split; [reflexivity|]. cbn [snd].
  pose proof (await_issues host s1) as [R G]. rewrite E2 in R, G. cbn [snd] in R, G.
  injection E1 as _ <-. split; [cbn in *; lia | exact G].
Qed.


(** *** The two provider queries of one ZIP code *)

(** The network answers its [n]-th request with [outcome], whatever the
    address requested. *)
Definition answers (host : Host) (n : nat) (outcome : FetchOutcome) : Prop :=
  forall url, network host n url = outcome.

Ltac run_bind := rewrite bind_run; cbv beta zeta.

(** The historical query is refused: the error of the table of statuses. *)
Lemma historical_refused (host : Host) (zipCode apiKey : string) (s : State)
    (status : Z) (body : Body) :
  answers host (requests s) (Responded status body) -> ok status = false ->
  fst (fetchWeekendWeatherForZip host zipCode apiKey s) = Throw (historical_error status)
  /\ issues 1 s (snd (fetchWeekendWeatherForZip host zipCode apiKey s)).
Proof.
  intros Hnet Hok. unfold fetchWeekendWeatherForZip.
  run_bind. set (dates := fst (getWeekendDates host s)).
  set (s1 := snd (getWeekendDates host s)).
  run_bind. match goal with |- context [addLog host ?m s1] => set (s2 := snd (addLog host m s1)) end.
  run_bind. match goal with |- context [fetch host ?u s2] =>
    destruct (fetch_run host u s2) as [Hfst Hsnd]; rewrite Hfst;
    set (s3 := snd (fetch host u s2)) in * end.
  change (requests s2) with (requests s). rewrite Hnet, Hok. cbn [negb fst snd ret].
  split; [reflexivity|].
  destruct Hsnd as [R G]. split; [exact R|].
  refine (grows_trans s s2 s3 _ G). eexists. reflexivity.
Qed.

(** What [fetchWeekendWeatherForZip] returns for what its object literal
    gives. *)
Definition returned (built : Completion WeekendWeatherData)
  : Completion (option WeekendWeatherData) :=
  match built with
  | Throw reason => Throw reason
  | Normal result => Normal (Some result)
  end.

(** A record the object literal gives is a record of the ZIP code. *)
Lemma parse_result_zip_code (host : Host) (zipCode : string) (dates : WeekendDates)
    (historicalData forecastData : JsonValue) (result : WeekendWeatherData) :
  parse_result host zipCode dates historicalData forecastData = Normal result ->
  zip_code result = zipCode.
Proof.
  unfold parse_result. destruct forecastData as [|forecast]; [discriminate|].
  destruct (days forecast); [|discriminate].
  destruct historicalData as [|historical]; [discriminate|].
  destruct (days historical); [|discriminate].
  intros H. injection H as <-. reflexivity.
Qed.

(** The state in which the forecast query is issued, when the historical
    query was answered with data. *)
Lemma forecast_stage (host : Host) (zipCode apiKey : string) (s : State)
    (historicalStatus : Z) (historicalData : JsonValue) :
  answers host (requests s) (Responded historicalStatus (Json historicalData)) ->
  ok historicalStatus = true ->
  exists (s' : State) (k : FetchOutcome -> M (Completion (option WeekendWeatherData)))
         (url : string),
    issues 1 s s'
    /\ fetchWeekendWeatherForZip host zipCode apiKey s = bind (fetch host url) k s'
    /\ (forall reason, k (Rejected reason) = ret (Throw reason))
    /\ (forall status body, ok status = false ->
          k (Responded status body) = ret (Throw (forecast_error status)))
    /\ (forall status reason (s'' : State), ok status = true ->
          fst (k (Responded status (BadJson reason)) s'') = Throw reason)
    /\ (forall status forecastData (s'' : State), ok status = true ->
          fst (k (Responded status (Json forecastData)) s'')
          = returned (parse_result host zipCode (fst (getWeekendDates host s))
                                   historicalData forecastData))
    /\ (forall outcome (s'' : State), issues 0 s'' (snd (k outcome s''))).
Proof.
  intros Hnet Hok. unfold fetchWeekendWeatherForZip.
  run_bind. set (dates := fst (getWeekendDates host s)).
  set (s1 := snd (getWeekendDates host s)).
  run_bind. match goal with |- context [addLog host ?m s1] => set (s2 := snd (addLog host m s1)) end.
  run_bind. match goal with |- context [fetch host ?u s2] =>
    destruct (fetch_run host u s2) as [Hfst [R3 G3]]; rewrite Hfst;
    set (s3 := snd (fetch host u s2)) in * end.
  change (requests s2) with (requests s) in *. rewrite Hnet, Hok. cbn [negb].
  run_bind. destruct (json_run host (Json historicalData) s3) as [-> [R4 G4]].
  set (s4 := snd (json host (Json historicalData) s3)) in *.
  run_bind. match goal with |- context [addLog host ?m s4] => set (s5 := snd (addLog host m s4)) end.
  match goal with |- context [bind (fetch host ?u) ?k] => exists s5, k, u end.
  split; [|split; [reflexivity|]].
  - split.
    + change (requests s5) with (requests s4). lia.
    + apply (grows_trans s s2); [eexists; reflexivity|].
      apply (grows_trans s2 s3 _ G3), (grows_trans s3 s4 _ G4). eexists. reflexivity.
  - split; [|split; [|split; [|split]]].
    + reflexivity.
    + intros status body H. now rewrite H.
    + intros status reason s'' H. rewrite H. cbn [negb]. run_bind.
      now destruct (json_run host (BadJson reason) s'') as [-> _].
    + intros status forecastData s'' H. rewrite H. cbn [negb]. run_bind.
      now destruct (json_run host (Json forecastData) s'') as [-> _].
    + intros outcome s''. destruct outcome as [reason | status body].
      * split; [cbn; lia | now apply grows_same].
      * destruct (ok status); cbn [negb].
        -- run_bind. destruct (json_run host body s'') as [-> Hj].
           destruct body; exact Hj.
        -- split; [cbn; lia | now apply grows_same].
Qed.

(** The forecast query is refused: the error carries the status, whatever
    the status. *)
Lemma forecast_refused (host : Host) (zipCode apiKey : string) (s : State)
    (historicalStatus : Z) (historicalData : JsonValue) (status : Z) (body : Body) :
  answers host (requests s) (Responded historicalStatus (Json historicalData)) ->
  ok historicalStatus = true ->
  answers host (S (requests s)) (Responded status body) -> ok status = false ->
  fst (fetchWeekendWeatherForZip host zipCode apiKey s) = Throw (forecast_error status)
  /\ issues 2 s (snd (fetchWeekendWeatherForZip host zipCode apiKey s)).
Proof.
  intros Hnet Hok Hnet' Hok'.
  destruct (forecast_stage host zipCode apiKey s _ _ Hnet Hok)
    as (s' & k & url & Hs' & -> & _ & Hrefused & _ & _ & Hk).
  rewrite bind_run. destruct (fetch_run host url s') as [-> Hf].
  destruct Hs' as [R G]. replace (requests s') with (S (requests s)) by lia.
  rewrite Hnet', (Hrefused _ _ Hok'). split; [reflexivity|].
  cbn [ret snd]. apply (issues_trans 1 1 s s'); [now split | exact Hf].
Qed.


(** *** One turn of the loop *)

(** What the body of the loop does with one ZIP code in test mode and in
    live mode. *)
Definition produce (host : Host) (testMode : bool) (apiKey zipCode : string)
  : M (Completion (option WeekendWeatherData)) :=
  if testMode then
    bind tick_entropy (fun _ =>
    bind (await host) (fun _ =>
    bind (generateSampleWeekendData host zipCode) (fun result =>
    ret (Normal (Some result)))))
  else fetchWeekendWeatherForZip host zipCode apiKey.

(** What the body does with the outcome: a log line, and the new values of
    [results] and [errors]. *)
Definition record_outcome (host : Host) (zipCode : string)
    (results : list WeekendWeatherData) (errors : Z)
    (outcome : Completion (option WeekendWeatherData))
  : M (list WeekendWeatherData * Z) :=
  match outcome with
  | Normal (Some result) =>
      bind (addLog host (success_line host zipCode result)) (fun _ =>
      ret (results ++ [result], errors))
  | Normal None =>
      bind (addLog host (Glyph.cross_mark ++ " " ++ zipCode ++ ": No data returned")%string)
           (fun _ => ret (results, errors + 1))
  | Throw errorMessage =>
      bind (addLog host (failure_line zipCode errorMessage)) (fun _ =>
      ret (results, errors + 1))
  end.

(** The end of the body: the progress report and the pause between two
    live queries. *)
Definition finish_turn (host : Host) (testMode : bool) (total : Z) (zipCode : string)
    (completed : Z) : M unit :=
  bind (setProgress (Some {| ProgressUpdate.current := completed + 1;
                             ProgressUpdate.total := total;
                             ProgressUpdate.zip_code := zipCode;
                             ProgressUpdate.status := Completed;
                             ProgressUpdate.message := None |})) (fun _ =>
  if negb testMode && (completed + 1 <? total) then
    bind (addLog host (Glyph.hourglass ++ " Waiting to respect API rate limits...")%string)
         (fun _ => await host)
  else ret tt).

(** The state in which the body starts to produce the record. *)
Definition announced (host : Host) (total : Z) (zipCode : string) (completed : Z)
    (s : State) : State :=
  snd (setProgress (Some {| ProgressUpdate.current := completed;
                            ProgressUpdate.total := total;
                            ProgressUpdate.zip_code := zipCode;
                            ProgressUpdate.status := Processing;
                            ProgressUpdate.message := None |})
         (snd (addLog host ("Processing weekend data for " ++ zipCode ++ "...")%string s))).

(** The loop, one turn unfolded. *)
Lemma fetch_loop_turn (host : Host) (testMode : bool) (apiKey : string) (total : Z)
    (zipCode : string) (rest : list string) (results : list WeekendWeatherData)
    (completed errors : Z) (s : State) :
  let s1 := announced host total zipCode completed s in
  let produced := produce host testMode apiKey zipCode s1 in
  let recorded := record_outcome host zipCode results errors (fst produced) (snd produced) in
  let s4 := snd (finish_turn host testMode total zipCode completed (snd recorded)) in
  fetch_loop host testMode apiKey total (zipCode :: rest) results completed errors s
  = fetch_loop host testMode apiKey total rest (fst (fst recorded)) (completed + 1)
               (snd (fst recorded)) s4.
Proof.
  cbv zeta. cbn [fetch_loop]. unfold announced.
  run_bind. run_bind.
  change (if testMode then _ else fetchWeekendWeatherForZip host zipCode apiKey)
    with (produce host testMode apiKey zipCode).
  run_bind.
  match goal with |- context [produce host testMode apiKey zipCode ?st] =>
    generalize (produce host testMode apiKey zipCode st) end.
  intros [outcome s2]. cbn [fst snd].
  run_bind. unfold finish_turn.
  destruct outcome as [reason | [result |]]; cbn [record_outcome];
    run_bind; cbn [fst snd]; run_bind;
    destruct (negb testMode && (completed + 1 <? total)); run_bind; reflexivity.
Qed.

Lemma announced_issues (host : Host) (total : Z) (zipCode : string) (completed : Z)
    (s : State) :
  issues 0 s (announced host total zipCode completed s).
Proof. split; [cbn; lia | eexists; reflexivity]. Qed.

Lemma record_outcome_issues (host : Host) (zipCode : string)
    (results : list WeekendWeatherData) (errors : Z)
    (outcome : Completion (option WeekendWeatherData)) (s : State) :
  issues 0 s (snd (record_outcome host zipCode results errors outcome s)).
Proof.
  destruct outcome as [reason | [result |]]; cbn [record_outcome]; run_bind;
    (split; [cbn; lia | eexists; reflexivity]).
Qed.

Lemma finish_turn_issues (host : Host) (testMode : bool) (total : Z) (zipCode : string)
    (completed : Z) (s : State) :
  issues 0 s (snd (finish_turn host testMode total zipCode completed s)).
Proof.
  unfold finish_turn. run_bind.
  destruct (negb testMode && (completed + 1 <? total)).
  - run_bind.
    match goal with
    | |- issues _ s (snd (await host ?st)) =>
        apply (issues_trans 0 0 s st);
        [split; [cbn; lia | eexists; reflexivity] | apply await_issues]
    end.
  - split; [cbn; lia | now apply grows_same].
Qed.

(** A turn issues the requests its production issues, and keeps the log. *)
Lemma turn_issues (host : Host) (testMode : bool) (apiKey : string) (total : Z)
    (zipCode : string) (results : list WeekendWeatherData) (completed errors : Z)
    (s : State) (n : nat) :
  let s1 := announced host total zipCode completed s in
  let produced := produce host testMode apiKey zipCode s1 in
  let recorded := record_outcome host zipCode results errors (fst produced) (snd produced) in
  let s4 := snd (finish_turn host testMode total zipCode completed (snd recorded)) in
  issues n s1 (snd produced) ->
  issues n s s4 /\ grows (snd recorded) s4.
Proof.
  intros s1 produced recorded s4 H.
  pose proof (finish_turn_issues host testMode total zipCode completed (snd recorded)) as Hf.
  split; [|exact (proj2 Hf)].
  apply (issues_trans 0 n s s1 s4); [apply announced_issues|].
  replace n with (n + (0 + 0))%nat by lia.
  apply (issues_trans n (0 + 0) s1 (snd produced) s4 H).
  apply (issues_trans 0 0 _ (snd recorded) s4); [apply record_outcome_issues | exact Hf].
Qed.

(** A failure is written to the log under the ZIP code. *)
Lemma record_outcome_failure (host : Host) (zipCode : string)
    (results : list WeekendWeatherData) (errors : Z) (reason : string) (s : State) :
  let recorded := record_outcome host zipCode results errors (Throw reason) s in
  fst recorded = (results, errors + 1)
  /\ In (log_line host s (failure_line zipCode reason)) (logs (snd recorded)).
Proof.
  cbv zeta. cbn [record_outcome]. run_bind. split; [reflexivity|].
  cbn [snd ret]. rewrite addLog_logs. apply in_or_app. right. now left.
Qed.

Lemma record_outcome_success (host : Host) (zipCode : string)
    (results : list WeekendWeatherData) (errors : Z) (result : WeekendWeatherData)
    (s : State) :
  fst (record_outcome host zipCode results errors (Normal (Some result)) s)
  = (results ++ [result], errors).
Proof. cbn [record_outcome]. run_bind. reflexivity. Qed.

(** *** Test mode *)

Lemma generateSampleWeekendData_zip_code (host : Host) (zipCode : string) (s : State) :
  zip_code (fst (generateSampleWeekendData host zipCode s)) = zipCode.
Proof. reflexivity. Qed.

Lemma generateSampleWeekendData_issues (host : Host) (zipCode : string) (s : State) :
  issues 0 s (snd (generateSampleWeekendData host zipCode s)).
Proof. split; [cbn; lia | now apply grows_same]. Qed.

(** In test mode the body always produces a record of its ZIP code, whether
    the stop button is pressed during the wait or not. *)
Lemma produce_test (host : Host) (apiKey zipCode : string) (s : State) :
  exists result,
    fst (produce host true apiKey zipCode s) = Normal (Some result)
    /\ zip_code result = zipCode
    /\ issues 0 s (snd (produce host true apiKey zipCode s)).
Proof.
  unfold produce. run_bind. run_bind. run_bind.
  eexists. split; [reflexivity|]. split; [reflexivity|]. cbn [snd ret].
  set (s1 := snd (tick_entropy s)). set (s2 := snd (await host s1)).
  apply (issues_trans 0 0 s s1); [apply tick_entropy_issues|].
  apply (issues_trans 0 0 s1 s2); [apply await_issues|].
  apply generateSampleWeekendData_issues.
Qed.

(** The line [stopFetching] writes. *)
Definition stop_line : string := (Glyph.stop_sign ++ " Process stopped by user")%string.

(** A press of the stop button during the wait of test mode runs
    [stopFetching]: its line is in the log. *)
Lemma produce_test_stopped (host : Host) (apiKey zipCode : string) (s : State) :
  stop_pressed host (awaits s) = true -> isProcessing s = true ->
  In (log_line host s stop_line) (logs (snd (produce host true apiKey zipCode s))).
Proof.
  intros Hpress Hproc. unfold produce. run_bind. run_bind. run_bind. cbn [snd ret].
  set (s1 := snd (tick_entropy s)).
  apply (grows_In (snd (await host s1))).
  - apply generateSampleWeekendData_issues.
  - unfold await. change (awaits s1) with (awaits s).
    change (isProcessing s1) with (isProcessing s). rewrite Hpress, Hproc. cbn [andb].
    unfold stopFetching. run_bind. rewrite addLog_logs. apply in_or_app. right. now left.
Qed.

(** The loop in test mode processes every ZIP code of its list, whatever
    the host does: each one adds a record of that ZIP code. *)
Lemma fetch_loop_test (host : Host) (apiKey : string) (total : Z) (zipList : list string) :
  forall (results : list WeekendWeatherData) (completed errors : Z) (s : State),
    let out := fetch_loop host true apiKey total zipList results completed errors s in
    map zip_code (fst (fst (fst out))) = map zip_code results ++ zipList
    /\ snd (fst (fst out)) = completed + Z.of_nat (List.length zipList)
    /\ snd (fst out) = errors
    /\ issues 0 s (snd out).
Proof.
  induction zipList as [|zipCode rest IH]; intros results completed errors s.
  - cbn. rewrite app_nil_r.
    split; [reflexivity|]. split; [lia|]. split; [reflexivity|].
    split; [lia | now apply grows_same].
  - cbv zeta. rewrite fetch_loop_turn. cbv zeta.
    set (s1 := announced host total zipCode completed s).
    destruct (produce_test host apiKey zipCode s1) as (result & Hfst & Hzip & Hiss).
    pose proof (turn_issues host true apiKey total zipCode results completed errors s 0 Hiss)
      as [Hturn _]. fold s1 in Hturn. cbv zeta in Hturn.
    rewrite Hfst in *. rewrite record_outcome_success. cbn [fst snd].
    match goal with |- context [fetch_loop host true apiKey total rest ?r ?c ?e ?st] =>
      specialize (IH r c e st); cbv zeta in IH;
      destruct IH as (IH1 & IH2 & IH3 & IH4); set (out := fetch_loop host true apiKey total rest r c e st) in * end.
    rewrite IH1, IH2, IH3, map_app. cbn [map]. rewrite Hzip, <- app_assoc. cbn [app].
    split; [reflexivity|]. split; [cbn [List.length]; lia|]. split; [reflexivity|].
    exact (issues_trans 0 0 _ _ _ Hturn IH4).
Qed.

(** *** The whole handler *)

Lemma zipListOf_blank (zipCodes : string) :
  JsString.is_empty (JsString.trim zipCodes) = true -> zipListOf zipCodes = [].
Proof.
  intros H. apply trim_blank in H. unfold zipListOf.
  pose proof (split_char_blank JsString.newline zipCodes H) as Hpieces.
  induction Hpieces as [|piece pieces Hpiece _ IH]; [reflexivity|].
  cbn [filter]. apply trim_blank in Hpiece. rewrite Hpiece. exact IH.
Qed.

(** The report [startFetching] ends with. *)
Definition final_progress (total : Z) : ProgressUpdate.t :=
  {| ProgressUpdate.current := total;
     ProgressUpdate.total := total;
     ProgressUpdate.zip_code := "Completed";
     ProgressUpdate.status := Completed;
     ProgressUpdate.message := None |}.

(** Past its guards, [startFetching] runs the loop over the whole list from
    a state in which [isProcessing] holds, and publishes what the loop
    returns. *)
Lemma startFetching_run (host : Host) (s0 : State) :
  negb (testMode s0) && JsString.is_empty (JsString.trim (apiKey s0)) = false ->
  zipListOf (zipCodes s0) <> [] ->
  let zipList := zipListOf (zipCodes s0) in
  let total := Z.of_nat (List.length zipList) in
  exists s1,
    requests s1 = requests s0 /\ awaits s1 = awaits s0 /\ isProcessing s1 = true
    /\ let out := fetch_loop host (testMode s0) (apiKey s0) total zipList [] 0 0 s1 in
       let s2 := snd (startFetching host s0) in
       weatherData s2 = fst (fst (fst out))
       /\ previewData s2 = firstn 3 (fst (fst (fst out)))
       /\ showPreview s2 = true
       /\ progress s2 = Some (final_progress total)
       /\ isProcessing s2 = false
       /\ issues 0 (snd out) s2.
Proof.
  intros Hkey Hlist zipList total. unfold startFetching. rewrite Hkey.
  destruct (JsString.is_empty (JsString.trim (zipCodes s0))) eqn:Hblank;
    [now apply zipListOf_blank in Hblank|].
  assert (total <> 0) as Hne.
  { unfold total, zipList. destruct (zipListOf (zipCodes s0));
      [contradiction | cbn [List.length]; lia]. }
  fold zipList. fold total.
  destruct (Z.eqb_spec total 0) as [Hzero | _]; [contradiction|].
  do 8 run_bind.
  destruct (testMode s0); do 6 run_bind;
    (match goal with |- context [fetch_loop host ?m _ total zipList [] 0 0 ?st] =>
       exists st; set (s1 := st);
       destruct (fetch_loop host m (apiKey s0) total zipList [] 0 0 s1)
         as [[[results completed] errors] s'] eqn:Eloop
     end);
    (split; [reflexivity|]); (split; [reflexivity|]); (split; [reflexivity|]);
    cbv zeta; cbn [fst snd]; do 4 run_bind;
    destruct (Z.of_nat (Datatypes.length results) =? total); run_bind;
    repeat (split; [reflexivity|]);
    (split; [cbn; lia | eexists; cbn; reflexivity]).
Qed.


(** *** The stop button *)

(** C2 (the code departs from the claim).  In test mode, whatever the
    host does and whenever the stop button is pressed, [startFetching] with
    a list of ZIP codes processes all of them: the records published are
    those of the whole list in order, and the last report counts them all.
    When the button is pressed during the wait of the first ZIP code,
    [stopFetching] has run (its line is in the log) and the ZIP codes after
    the first are processed all the same: the loop never reads the flag. *)
Theorem stop_does_not_end_the_loop (host : Host) (s0 : State) :
  testMode s0 = true -> zipListOf (zipCodes s0) <> [] ->
  let zipList := zipListOf (zipCodes s0) in
  let s2 := snd (startFetching host s0) in
  map zip_code (weatherData s2) = zipList
  /\ progress s2 = Some (final_progress (Z.of_nat (List.length zipList)))
  /\ (stop_pressed host (awaits s0) = true ->
      exists logged, In (log_line host logged stop_line) (logs s2)).
Proof.
  intros Hmode Hlist zipList s2.
  destruct (startFetching_run host s0) as (s1 & _ & Hawaits & Hproc & Hrun);
    [now rewrite Hmode | exact Hlist |].
  cbv zeta in Hrun. fold zipList s2 in Hrun. rewrite Hmode in Hrun.
  destruct Hrun as (Hdata & _ & _ & Hprogress & _ & Hend).
  destruct (fetch_loop_test host (apiKey s0) (Z.of_nat (List.length zipList)) zipList
                            [] 0 0 s1) as (Hzips & _ & _ & Hloop).
  split; [now rewrite Hdata, Hzips|]. split; [exact Hprogress|].
  intros Hpress.
  destruct zipList as [|zipCode rest] eqn:Ezips; [contradiction|].
  rewrite fetch_loop_turn in Hend. cbv zeta in Hend.
  set (total := Z.of_nat (List.length (zipCode :: rest))) in *.
  set (s1' := announced host total zipCode 0 s1) in *.
  exists s1'.
  assert (In (log_line host s1' stop_line)
             (logs (snd (produce host true (apiKey s0) zipCode s1')))) as Hline.
  { apply produce_test_stopped; [|exact Hproc].
    change (awaits s1') with (awaits s1). now rewrite Hawaits. }
  destruct (produce_test host (apiKey s0) zipCode s1') as (result & Hfst & _ & Hiss).
  pose proof (turn_issues host true (apiKey s0) total zipCode [] 0 0 s1 0 Hiss)
    as [_ Hgrows]. fold s1' in Hgrows. cbv zeta in Hgrows.
  match type of Hend with
  | issues 0 (snd (fetch_loop host true ?k ?t rest ?r ?c ?e ?st)) s2 =>
      destruct (fetch_loop_test host k t rest r c e st) as (_ & _ & _ & Hrest);
      apply (grows_In _ _ _ (proj2 Hend)), (grows_In _ _ _ (proj2 Hrest)),
        (grows_In _ _ _ Hgrows)
  end.
  exact (grows_In _ _ _ (proj2 (record_outcome_issues host zipCode [] 0 _ _)) Hline).
Qed.


(** *** The statuses of the two queries *)

(** The message thrown on status 429 by the historical query. *)
Definition rate_limit_message : string := "Rate limit exceeded - Please wait and try again".

(** The historical query maps the statuses as the specification says. *)
Lemma historical_error_table (status : Z) :
  historical_error 401
  = "Invalid API key - Please check your Visual Crossing API key"%string
  /\ historical_error 429 = rate_limit_message
  /\ historical_error 400 = "Invalid ZIP code or date range"%string
  /\ (status <> 401 -> status <> 429 -> status <> 400 ->
      historical_error status
      = ("Historical API Error " ++ JsString.int_toString status)%string).
Proof.
  repeat (split; [reflexivity|]). intros H1 H2 H3. unfold historical_error.
  destruct (Z.eqb_spec status 401); [contradiction|].
  destruct (Z.eqb_spec status 429); [contradiction|].
  destruct (Z.eqb_spec status 400); [contradiction|]. reflexivity.
Qed.

(** C3 (the code departs from the claim on the forecast query).  When the
    historical query is answered with data and the forecast query with
    status 401, 429 or 400, [fetchWeekendWeatherForZip] throws the generic
    error that carries the status, not the error the historical query
    throws on the same status. *)
Theorem forecast_statuses_not_mapped (host : Host) (zipCode apiKey : string) (s : State)
    (historicalData : Payload) (status : Z) (body : Body) :
  answers host (requests s) (Responded 200 (Json historicalData)) ->
  answers host (S (requests s)) (Responded status body) ->
  In status [401; 429; 400] ->
  fst (fetchWeekendWeatherForZip host zipCode apiKey s)
  = Throw ("Forecast API Error " ++ JsString.int_toString status)%string
  /\ forecast_error status <> historical_error status.
Proof.
  intros Hnet Hnet' Hstatus.
  assert (ok status = false /\ forecast_error status <> historical_error status) as [Hok Hne].
  { cbn [In] in Hstatus. decompose [or] Hstatus; subst; try contradiction;
      (split; [reflexivity | vm_compute; discriminate]). }
  split; [|exact Hne].
  exact (proj1 (forecast_refused host zipCode apiKey s 200 historicalData status body
                                 Hnet eq_refl Hnet' Hok)).
Qed.


(** *** A host and an input to run the page on *)

(** A stand-in for the sine of the engine: its cubic Taylor polynomial. *)
Definition demo_sin (x : float) : float := (x - x * x * x / 6)%float.

Definition demo_payload : Payload :=
  {| resolvedAddress := Some "Washington, DC, United States";
     days := Some [ {| tempmax := Some 71.5%float; conditions := Some "Clear" |};
                    {| tempmax := Some 68%float; conditions := Some "Rain" |} ] |}.

(** The messages of one engine for the reads that throw. *)
Definition demo_TypeError_message (site : Unreadable) : string :=
  match site with
  | forecast_null => "Cannot read properties of null (reading 'resolvedAddress')"
  | historical_null => "Cannot read properties of null (reading 'days')"
  | forecast_days_absent | historical_days_absent =>
      "Cannot read properties of undefined (reading '0')"
  end.

(** A host on UTC whose clock starts at noon of Monday the 2nd of November
    2026 and advances by a second at each reading; [answer] gives the answer
    of the network to each request and [stop] the presses of the stop
    button. *)
Definition demo_host (answer : nat -> FetchOutcome) (stop : nat -> bool) : Host :=
  {| LocalTZA := 0;
     Math_sin := demo_sin;
     Number_digits := fun _ => "?";
     TypeError_message := demo_TypeError_message;
     toLocaleTimeString := fun d => JsString.int_toString (JsDate.TimeWithinDay d / 1000);
     clock := fun n => WeekendDatesFacts.monday_2026_11_02 + 1000 * Z.of_nat n;
     entropy := fun _ => 0.5%float;
     network := fun n _ => answer n;
     stop_pressed := stop |}.

(** The first render, with the form filled in. *)
Definition entered (key zips : string) (mode : bool) : State :=
  {| apiKey := key; zipCodes := zips; isProcessing := false;
     progress := None; logs := []; weatherData := []; error_ := None;
     previewData := []; showPreview := false; testMode := mode;
     clock_reads := O; entropy_reads := O; requests := O; awaits := O |}.

Definition lines (l : list string) : string :=
  JsString.join (String JsString.newline EmptyString) l.

(** The stop button pressed during the wait of the first of two ZIP codes:
    both are processed. *)
Lemma stop_does_not_end_the_loop_witness :
  let host := demo_host (fun _ => Rejected "offline") (fun n => Nat.eqb n 0) in
  let s2 := snd (startFetching host (entered EmptyString (lines ["10001"; "90210"]) true)) in
  map zip_code (weatherData s2) = ["10001"; "90210"]
  /\ exists logged, In (log_line host logged stop_line) (logs s2).
Proof.
  intros host s2.
  destruct (stop_does_not_end_the_loop
              host (entered EmptyString (lines ["10001"; "90210"]) true) eq_refl)
    as (Hzips & _ & Hstop).
  - vm_compute. discriminate.
  - split; [exact Hzips | apply Hstop; reflexivity].
Defined.

(** The forecast query answered with status 401. *)
Lemma forecast_statuses_not_mapped_witness :
  let host := demo_host (fun n => if Nat.eqb n 1 then Responded 401 (BadJson "Unauthorized")
                                  else Responded 200 (Json demo_payload))
                        (fun _ => false) in
  fst (fetchWeekendWeatherForZip host "10001" "KEY" (entered "KEY" "10001" false))
  = Throw "Forecast API Error 401"%string.
Proof.
  intros host.
  exact (proj1 (forecast_statuses_not_mapped
                  host "10001" "KEY" (entered "KEY" "10001" false) demo_payload 401
                  (BadJson "Unauthorized") (fun _ => eq_refl) (fun _ => eq_refl)
                  (or_introl eq_refl))).
Defined.

End WeekendFetchFacts.

(** ** The sample generator *)

Module WeekendSampleFacts.

Import JsDate JsDateFacts JsNumber Weekend WeekendDatesFacts WeekendFetchFacts.

Lemma local_day_setFullYear (tza : Z) (d : Date) (y : Z) :
  local_day tza (setFullYear tza d y)
  = MakeDay y (MonthFromDay (local_day tza d)) (DateFromDay (local_day tza d)).
Proof.
  unfold local_day at 1. rewrite LocalTime_setFullYear.
  exact (proj1 (Day_MakeDate _ _ (TimeWithinDay_range _))).
Qed.

(** The short date shows the local calendar day and nothing else. *)
Lemma formatShortDate_local_day (tza : Z) (d1 d2 : Date) :
  local_day tza d1 = local_day tza d2 -> formatShortDate tza d1 = formatShortDate tza d2.
Proof.
  intros H. unfold formatShortDate, getMonth, getDate, getFullYear,
    MonthFromTime, DateFromTime, YearFromTime.
  fold (local_day tza d1). fold (local_day tza d2). now rewrite H.
Qed.

Lemma setFullYear_previous_local_day (tza : Z) (d1 d2 : Date) :
  local_day tza d1 = local_day tza d2 ->
  local_day tza (setFullYear tza d1 (getFullYear tza d1 - 1))
  = local_day tza (setFullYear tza d2 (getFullYear tza d2 - 1)).
Proof.
  intros H. rewrite !local_day_setFullYear. unfold getFullYear, YearFromTime.
  fold (local_day tza d1). fold (local_day tza d2). now rewrite H.
Qed.

(** The nine dates of two results of [getWeekendDates] fall on the same
    calendar days. *)
Definition same_local_days (tza : Z) (w1 w2 : WeekendDates) : Prop :=
  local_day tza (thisFriday w1) = local_day tza (thisFriday w2)
  /\ local_day tza (thisSaturday w1) = local_day tza (thisSaturday w2)
  /\ local_day tza (thisSunday w1) = local_day tza (thisSunday w2)
  /\ local_day tza (nextFriday w1) = local_day tza (nextFriday w2)
  /\ local_day tza (nextSaturday w1) = local_day tza (nextSaturday w2)
  /\ local_day tza (nextSunday w1) = local_day tza (nextSunday w2)
  /\ local_day tza (lastYearFriday w1) = local_day tza (lastYearFriday w2)
  /\ local_day tza (lastYearSaturday w1) = local_day tza (lastYearSaturday w2)
  /\ local_day tza (lastYearSunday w1) = local_day tza (lastYearSunday w2).

(** The calendar days of the three weekends depend on the calendar day of
    today only, not on the time of day. *)
Lemma weekendDatesOf_local_days (tza : Z) (today1 today2 : Date) :
  local_day tza today1 = local_day tza today2 ->
  same_local_days tza (weekendDatesOf tza today1) (weekendDatesOf tza today2).
Proof.
  intros H.
  destruct (weekendDatesOf_this_and_next tza today1) as (F1 & S1 & U1 & NF1 & NS1 & NU1).
  destruct (weekendDatesOf_this_and_next tza today2) as (F2 & S2 & U2 & NF2 & NS2 & NU2).
  destruct (weekendDatesOf_lastYear tza today1) as (LF1 & LS1 & LU1).
  destruct (weekendDatesOf_lastYear tza today2) as (LF2 & LS2 & LU2).
  cbv zeta in *.
  set (w1 := weekendDatesOf tza today1) in *. set (w2 := weekendDatesOf tza today2) in *.
  clearbody w1 w2.
  assert (local_day tza (thisFriday w1) = local_day tza (thisFriday w2)) as HF.
  { rewrite F1, F2, !local_day_addDays. unfold getDay, WeekDay.
    fold (local_day tza today1). fold (local_day tza today2). now rewrite H. }
  assert (local_day tza (thisSaturday w1) = local_day tza (thisSaturday w2)) as HS
    by (rewrite S1, S2, !local_day_addDays; now rewrite HF).
  assert (local_day tza (thisSunday w1) = local_day tza (thisSunday w2)) as HU
    by (rewrite U1, U2, !local_day_addDays; now rewrite HF).
  unfold same_local_days.
  split; [exact HF|]. split; [exact HS|]. split; [exact HU|].
  split; [rewrite NF1, NF2, !local_day_addDays; now rewrite HF|].
  split; [rewrite NS1, NS2, !local_day_addDays; now rewrite HS|].
  split; [rewrite NU1, NU2, !local_day_addDays; now rewrite HU|].
  rewrite LF1, LF2, LS1, LS2, LU1, LU2.
  split; [exact (setFullYear_previous_local_day tza _ _ HF)|].
  split; [exact (setFullYear_previous_local_day tza _ _ HS)|].
  exact (setFullYear_previous_local_day tza _ _ HU).
Qed.

(** C4.  Two calls of [generateSampleWeekendData] with the same ZIP code,
    in any two states of the page and on hosts that have the same time zone
    and the same sine, give the same record in every field as soon as the
    clock shows the same calendar day to both: the record depends neither
    on the time of day, nor on [Math.random], the network, the stop button
    or the state of the component. *)
Theorem generateSampleWeekendData_deterministic (host1 host2 : Host) (s1 s2 : State)
    (zipCode : string) :
  LocalTZA host1 = LocalTZA host2 ->
  (forall x, Math_sin host1 x = Math_sin host2 x) ->
  local_day (LocalTZA host1) (clock host1 (clock_reads s1))
  = local_day (LocalTZA host1) (clock host2 (clock_reads s2)) ->
  fst (generateSampleWeekendData host1 zipCode s1)
  = fst (generateSampleWeekendData host2 zipCode s2).
Proof.
  intros Htza Hsin Hday.
  destruct (weekendDatesOf_local_days (LocalTZA host1) _ _ Hday)
    as (D1 & D2 & D3 & D4 & D5 & D6 & D7 & D8 & D9).
  unfold generateSampleWeekendData. rewrite !bind_run. cbv beta zeta. cbn [fst ret].
  rewrite !getWeekendDates_value. unfold random. rewrite <- Htza.
  rewrite (formatShortDate_local_day _ _ _ D1), (formatShortDate_local_day _ _ _ D2),
    (formatShortDate_local_day _ _ _ D3), (formatShortDate_local_day _ _ _ D4),
    (formatShortDate_local_day _ _ _ D5), (formatShortDate_local_day _ _ _ D6),
    (formatShortDate_local_day _ _ _ D7), (formatShortDate_local_day _ _ _ D8),
    (formatShortDate_local_day _ _ _ D9).
  rewrite !Hsin. reflexivity.
Qed.

(** Two calls for New York, one at noon in a fresh state and one ten hours
    later (36000 readings of a clock that advances by a second) in a state
    that has issued requests, on hosts with different networks. *)
Lemma generateSampleWeekendData_deterministic_witness :
  let host1 := demo_host (fun _ => Rejected "offline") (fun _ => false) in
  let host2 := demo_host (fun _ => Responded 200 (Json demo_payload)) (fun _ => true) in
  let later :=
    {| apiKey := "KEY"; zipCodes := "10001"; isProcessing := true;
       progress := None; logs := ["earlier"]; weatherData := []; error_ := None;
       previewData := []; showPreview := false; testMode := true;
       clock_reads := Z.to_nat 36000; entropy_reads := 7; requests := 3; awaits := 9 |} in
  fst (generateSampleWeekendData host1 "10001" initial)
  = fst (generateSampleWeekendData host2 "10001" later).
Proof.
  intros host1 host2 later.
  apply (generateSampleWeekendData_deterministic host1 host2 initial later "10001").
  - reflexivity.
  - intros x. reflexivity.
  - vm_compute. reflexivity.
Defined.

(** The temperatures and the descriptions of a record, slot by slot. *)
Definition weather_values (r : WeekendWeatherData) : list float * list (option string) :=
  ([ this_friday_high r; this_saturday_high r; this_sunday_high r;
     last_year_friday_high r; last_year_saturday_high r; last_year_sunday_high r;
     next_friday_high r; next_saturday_high r; next_sunday_high r ],
   [ this_friday_description r; this_saturday_description r; this_sunday_description r;
     last_year_friday_description r; last_year_saturday_description r;
     last_year_sunday_description r;
     next_friday_description r; next_saturday_description r; next_sunday_description r ]).

(** [Number.parseInt] gives NaN or zero (of either sign). *)
Definition parses_to_nothing (zipCode : string) : Prop :=
  is_nan (parseInt zipCode) = true \/ is_zero (parseInt zipCode) = true.

Lemma or_else_fallback (x fallback : float) :
  is_nan x = true \/ is_zero x = true -> or_else x fallback = fallback.
Proof.
  unfold or_else, truthy. intros [H | H]; rewrite H.
  - now rewrite orb_true_r.
  - reflexivity.
Qed.

(** The temperatures and the descriptions the generator computes from a
    seed: the base temperature from the seed itself, the nine temperatures
    from the seed advanced by the odd numbers 1 to 17, and the nine
    descriptions from the seed advanced by the even numbers 2 to 18. *)
Definition values_of_seed (host : Host) (zipSeed : float)
  : list float * list (option string) :=
  let baseTemp := (40 + random host zipSeed * 40)%float in
  let high (k : float) :=
    Math_round (baseTemp + (random host (zipSeed + k) * 15 - 15 / 2))%float in
  let description (k : float) :=
    array_get weatherDescriptions (Math_floor (random host (zipSeed + k) * 10)%float) in
  (map high [1; 3; 5; 7; 9; 11; 13; 15; 17]%float,
   map description [2; 4; 6; 8; 10; 12; 14; 16; 18]%float).

(** The values of a record of the generator are those of the seed it
    takes: the number [Number.parseInt] reads, or its fallback. *)
Lemma generateSampleWeekendData_values (host : Host) (s : State) (zipCode : string)
    (seed : float) :
  or_else (parseInt zipCode) 12345%float = seed ->
  weather_values (fst (generateSampleWeekendData host zipCode s)) = values_of_seed host seed.
Proof.
  intros E. unfold generateSampleWeekendData. rewrite !bind_run. cbv beta zeta.
  unfold weather_values, values_of_seed.
  cbn [fst ret map this_friday_high this_saturday_high this_sunday_high
    last_year_friday_high last_year_saturday_high last_year_sunday_high
    next_friday_high next_saturday_high next_sunday_high
    this_friday_description this_saturday_description this_sunday_description
    last_year_friday_description last_year_saturday_description last_year_sunday_description
    next_friday_description next_saturday_description next_sunday_description].
  rewrite E. reflexivity.
Qed.

(** C10.  When [Number.parseInt] gives NaN or zero for a ZIP code, the
    generator takes 12345 as its seed: the temperatures and the
    descriptions of its record are those computed from the seed 12345,
    which are those of the record of the ZIP code 12345 itself; so two such
    ZIP codes get the same temperature and the same description in every
    slot, whatever the state and the date. *)
Theorem generateSampleWeekendData_seed_fallback (host : Host) (s1 s2 : State)
    (zipCode1 zipCode2 : string) :
  parses_to_nothing zipCode1 -> parses_to_nothing zipCode2 ->
  weather_values (fst (generateSampleWeekendData host zipCode1 s1))
  = values_of_seed host 12345%float
  /\ weather_values (fst (generateSampleWeekendData host zipCode1 s1))
     = weather_values (fst (generateSampleWeekendData host "12345" s2))
  /\ weather_values (fst (generateSampleWeekendData host zipCode1 s1))
     = weather_values (fst (generateSampleWeekendData host zipCode2 s2)).
Proof.
  intros H1 H2.
  rewrite (generateSampleWeekendData_values host s1 zipCode1 12345%float
             (or_else_fallback _ _ H1)).
  rewrite (generateSampleWeekendData_values host s2 zipCode2 12345%float
             (or_else_fallback _ _ H2)).
  rewrite (generateSampleWeekendData_values host s2 "12345" 12345%float eq_refl).
  repeat split.
Qed.

(** A ZIP code that is no number and one that is zero; on the host of the
    examples their values are not those of the ZIP code 10001. *)
Lemma generateSampleWeekendData_seed_fallback_witness :
  let host := demo_host (fun _ => Rejected "offline") (fun _ => false) in
  weather_values (fst (generateSampleWeekendData host "abcde" initial))
  = values_of_seed host 12345%float
  /\ weather_values (fst (generateSampleWeekendData host "abcde" initial))
     = weather_values (fst (generateSampleWeekendData host "00000" initial))
  /\ weather_values (fst (generateSampleWeekendData host "abcde" initial))
     <> weather_values (fst (generateSampleWeekendData host "10001" initial)).
Proof.
  intros host.
  destruct (generateSampleWeekendData_seed_fallback
              host initial initial "abcde" "00000"
              (or_introl eq_refl) (or_intror eq_refl)) as (Hseed & _ & Hsame).
  split; [exact Hseed|]. split; [exact Hsame|].
  vm_compute. discriminate.
Defined.

End WeekendSampleFacts.

(** ** The unit round trip *)

Module UnitRoundTripFacts.

Import QArith Weekend.
Local Open Scope Z_scope.

(** The expression of the page over the rational numbers. *)
Definition rational_round_trip (x : Q) : Q :=
  unit_round_trip Qplus Qminus Qmult Qdiv inject_Z x.

(** C9.  Over exact rational arithmetic, the expression applied to the
    forecast temperatures of this weekend,
    [((((x - 32) * 5) / 9) * 9) / 5 + 32], is the identity. *)
Theorem unit_round_trip_identity (x : Q) : Qeq (rational_round_trip x) x.
Proof. unfold rational_round_trip, unit_round_trip. field. Qed.

(** On the doubles of the page it is not: the round trip of 0.1 is another
    double. *)
Lemma fahrenheit_round_trip_inexact :
  fahrenheit_round_trip 0x1.999999999999ap-4%float <> 0x1.999999999999ap-4%float.
Proof. vm_compute. discriminate. Qed.

End UnitRoundTripFacts.

(** ** The CSV escaping *)

Module CsvFacts.

Import JsString Weekend.

(** The fields [escapeCSV] wraps in quotes. *)
Definition needs_quotes (s : string) : bool :=
  includes_char s "," || includes_char s dquote || includes_char s newline.

(** Modelled from the spec: the collapsing of doubled quotes by the reader
    of an exported field, which the repository does not contain. *)
Fixpoint collapse_quotes (s : string) : string :=
  match s with
  | String a ((String b rest) as tail) =>
      if Ascii.eqb a dquote && Ascii.eqb b dquote
      then String dquote (collapse_quotes rest)
      else String a (collapse_quotes tail)
  | _ => s
  end.

(** [s] without its last character, when that is a quote. *)
Fixpoint drop_closing_quote (s : string) : option string :=
  match s with
  | EmptyString => None
  | String c EmptyString => if Ascii.eqb c dquote then Some EmptyString else None
  | String c rest => option_map (String c) (drop_closing_quote rest)
  end.

(** Modelled from the spec: the reader of an exported field, which the
    repository does not contain.  The wrapping quotes are stripped and
    every doubled quote is collapsed into one; a field that is not wrapped
    in quotes is taken as it stands. *)
Definition unescapeCSV (field : string) : string :=
  match field with
  | String q rest =>
      if Ascii.eqb q dquote then
        match drop_closing_quote rest with
        | Some inner => collapse_quotes inner
        | None => field
        end
      else field
  | EmptyString => EmptyString
  end.

Lemma drop_closing_quote_append (s : string) :
  drop_closing_quote (s ++ String dquote EmptyString)%string = Some s.
Proof.
  induction s as [|c rest IH]; [reflexivity|].
  cbn [String.append drop_closing_quote]. rewrite IH.
  destruct rest; reflexivity.
Qed.

Lemma collapse_quotes_other (c : ascii) (s : string) :
  Ascii.eqb c dquote = false -> collapse_quotes (String c s) = String c (collapse_quotes s).
Proof. intros E. destruct s as [|b rest]; [reflexivity|]. cbn. now rewrite E. Qed.

Lemma collapse_quotes_pair (s : string) :
  collapse_quotes (String dquote (String dquote s)) = String dquote (collapse_quotes s).
Proof. reflexivity. Qed.

Lemma collapse_double_quotes (s : string) : collapse_quotes (double_quotes s) = s.
Proof.
  induction s as [|c rest IH]; [reflexivity|].
  cbn [double_quotes]. destruct (Ascii.eqb c dquote) eqn:E.
  - apply Ascii.eqb_eq in E. subst c. now rewrite collapse_quotes_pair, IH.
  - now rewrite (collapse_quotes_other c _ E), IH.
Qed.

Lemma includes_char_head (c : ascii) (rest : string) (needle : ascii) :
  includes_char (String c rest) needle = false -> Ascii.eqb c needle = false.
Proof. cbn. destruct (Ascii.eqb c needle); [discriminate | reflexivity]. Qed.

(** The city of the example of the specification. *)
Definition washington : string := "Washington, D.C.".

(** C8.  [escapeCSV] wraps a field that holds a comma, a double quote or a
    line feed in double quotes, with every inner quote doubled, and leaves
    any other field as it is; reading the escaped field back (wrapping
    quotes stripped, doubled quotes collapsed) gives the field.  The city
    of the example is exported between quotes and read back unchanged. *)
Theorem escapeCSV_round_trip :
  (forall s : string,
      (needs_quotes s = true ->
       escapeCSV (Str s)
       = String dquote (double_quotes s ++ String dquote EmptyString)%string)
      /\ (needs_quotes s = false -> escapeCSV (Str s) = s)
      /\ unescapeCSV (escapeCSV (Str s)) = s)
  /\ escapeCSV (Str washington)
     = String dquote (washington ++ String dquote EmptyString)%string
  /\ unescapeCSV (escapeCSV (Str washington)) = washington.
Proof.
  assert (forall s, unescapeCSV (escapeCSV (Str s)) = s) as Hround.
  { intros s. unfold escapeCSV. fold (needs_quotes s).
    destruct (needs_quotes s) eqn:E.
    - cbn [unescapeCSV]. rewrite Ascii.eqb_refl, drop_closing_quote_append.
      apply collapse_double_quotes.
    - destruct s as [|c rest]; [reflexivity|]. cbn [unescapeCSV].
      unfold needs_quotes in E. apply orb_false_iff in E. destruct E as [E _].
      apply orb_false_iff in E. destruct E as [_ E].
      now rewrite (includes_char_head _ _ _ E). }
  split; [|split; [reflexivity | apply Hround]].
  intros s. unfold escapeCSV at 1 2. fold (needs_quotes s).
  split; [now intros -> | split; [now intros -> | apply Hround]].
Qed.

End CsvFacts.

(** ** The validation of ZIP codes in the standard variant *)

Module StandardFacts.

Import JsString JsStringFacts Standard.

Lemma is_space_separator (c : ascii) : is_space c = true -> is_separator c = true.
Proof. unfold is_separator. intros ->. apply orb_true_r. Qed.

(** A token is trimmed and not empty. *)
Lemma tokens_trimmed (zipString token : string) :
  In token (tokens zipString) -> trim token = token /\ is_empty token = false.
Proof.
  unfold tokens. rewrite filter_In, in_map_iff. intros [[piece [<- Hin]] Hlen].
  pose proof (split_runs_no_separator is_separator zipString false) as Hpieces.
  rewrite Forall_forall in Hpieces. specialize (Hpieces _ Hin).
  assert (forallb (fun c => negb (is_space c)) (list_ascii_of_string piece) = true) as Hsp.
  { rewrite forallb_forall in *. intros c Hc. specialize (Hpieces c Hc).
    destruct (is_space c) eqn:E; [|reflexivity].
    now rewrite (is_space_separator c E) in Hpieces. }
  rewrite (trim_no_space piece Hsp) in *. split; [now apply trim_no_space|].
  destruct piece; [discriminate Hlen | reflexivity].
Qed.

(** A blank input has no token. *)
Lemma split_runs_all_separators (sep : ascii -> bool) (s : string) :
  forallb sep (list_ascii_of_string s) = true ->
  forall in_run, Forall (fun piece => piece = EmptyString) (split_runs sep in_run s).
Proof.
  induction s as [|c rest IH]; cbn; intros H in_run.
  - repeat constructor.
  - apply andb_true_iff in H. destruct H as [-> H].
    destruct in_run; [now apply IH | constructor; [reflexivity | now apply IH]].
Qed.

Lemma tokens_blank (zipString : string) :
  is_empty (trim zipString) = true -> tokens zipString = [].
Proof.
  intros H. apply trim_blank in H.
  assert (forallb is_separator (list_ascii_of_string zipString) = true) as Hsep.
  { induction zipString as [|c rest IH]; [reflexivity|]. cbn in *.
    apply andb_true_iff in H. destruct H as [Hc H].
    now rewrite (is_space_separator c Hc), IH. }
  unfold tokens.
  pose proof (split_runs_all_separators is_separator zipString Hsep false) as Hpieces.
  induction Hpieces as [|piece pieces -> _ IH]; [reflexivity | exact IH].
Qed.

(** The tokens that fail the pattern, in the order of the input. *)
Definition offending (zipString : string) : list string :=
  filter (fun token => negb (isValidZipCode token)) (tokens zipString).

Lemma validate_one_invalid (acc : Validation) (token : string) :
  trim token = token -> is_empty token = false ->
  invalid (validate_one acc token)
  = invalid acc ++ (if isValidZipCode token then [] else [token]).
Proof.
  intros Htrim Hne. unfold validate_one. rewrite Htrim, Hne. cbn [negb andb].
  destruct (isValidZipCode token).
  - destruct (negb (includes (valid acc) _)); cbn [invalid]; now rewrite app_nil_r.
  - reflexivity.
Qed.

Lemma fold_validate_invalid (l : list string) :
  (forall token, In token l -> trim token = token /\ is_empty token = false) ->
  forall acc,
    invalid (fold_left validate_one l acc)
    = invalid acc ++ filter (fun token => negb (isValidZipCode token)) l.
Proof.
  induction l as [|token l IH]; intros Hl acc; cbn [fold_left filter].
  - now rewrite app_nil_r.
  - rewrite IH by (intros t Ht; apply Hl; now right).
    destruct (Hl token (or_introl eq_refl)) as [Htrim Hne].
    rewrite (validate_one_invalid acc token Htrim Hne).
    destruct (isValidZipCode token); cbn [negb]; now rewrite <- app_assoc.
Qed.

(** [validateZipCodes] reports exactly the tokens that fail the pattern. *)
Lemma validateZipCodes_invalid (zipString : string) :
  invalid (validateZipCodes zipString) = offending zipString.
Proof.
  unfold validateZipCodes, validateAndCleanZipCodes, offending.
  now rewrite (fold_validate_invalid _ (tokens_trimmed zipString)).
Qed.

(** The messages of a submission rejected for its ZIP codes. *)
Definition invalid_zip_messages (zipString : string) : list string :=
  [ ("Invalid ZIP codes found: " ++ join ", " (offending zipString))%string;
    "Please use 5-digit ZIP codes (e.g., 12345 or 12345-6789)" ].

(** The input of the example of the specification: three lines. *)
Definition example_input : string :=
  ("12345" ++ String newline ("abcde" ++ String newline "67890"))%string.

Definition submission (key zips : string) : State :=
  {| apiKey := key; zipCodes := zips; isLoading := false; progress := 0;
     currentZip := EmptyString; sessionId := EmptyString; weatherData := [];
     errors := []; validationErrors := []; isCompleted := false; totalZips := 0;
     processedZips := 0; posted := [] |}.

(** C6, as the code has it.  When some token of the input fails the
    pattern, [handleSubmit] rejects the submission as a whole: no request
    is posted, and the state changes in its validation messages only;
    [validateZipCodes] reports exactly the tokens that fail, in order.
    With an API key entered the messages enumerate exactly those tokens;
    without one the check of the key comes first, and its message is the
    only one.  For the three lines 12345, abcde, 67890 and a key the tokens
    reported are abcde alone, and nothing is posted. *)
Theorem zip_validation_rejects_batch :
  (forall s : State,
      (exists token, In token (tokens (zipCodes s)) /\ isValidZipCode token = false) ->
      invalid (validateZipCodes (zipCodes s)) = offending (zipCodes s)
      /\ offending (zipCodes s) <> []
      /\ (exists messages, handleSubmit s = setValidationErrors messages s)
      /\ posted (handleSubmit s) = posted s
      /\ (is_empty (trim (apiKey s)) = false ->
          handleSubmit s = setValidationErrors (invalid_zip_messages (zipCodes s)) s)
      /\ (is_empty (trim (apiKey s)) = true ->
          handleSubmit s
          = setValidationErrors ["Please enter your OpenWeatherMap API key"%string] s))
  /\ invalid (validateZipCodes example_input) = ["abcde"]
  /\ validationErrors (handleSubmit (submission "key" example_input))
     = [ "Invalid ZIP codes found: abcde";
         "Please use 5-digit ZIP codes (e.g., 12345 or 12345-6789)" ]
  /\ posted (handleSubmit (submission "key" example_input)) = [].
Proof.
  split; [|repeat split; reflexivity].
  intros s (token & Hin & Hbad).
  assert (offending (zipCodes s) <> []) as Hoff.
  { intros Hnil. assert (In token (offending (zipCodes s))) as H.
    { unfold offending. apply filter_In. split; [exact Hin | now rewrite Hbad]. }
    now rewrite Hnil in H. }
  assert (is_empty (trim (zipCodes s)) = false) as Hzips.
  { destruct (is_empty (trim (zipCodes s))) eqn:E; [|reflexivity].
    now rewrite (tokens_blank _ E) in Hin. }
  assert (is_empty (trim (apiKey s)) = false ->
          handleSubmit s = setValidationErrors (invalid_zip_messages (zipCodes s)) s) as Hkey.
  { intros Hk. unfold handleSubmit. rewrite Hk, Hzips, validateZipCodes_invalid.
    destruct (offending (zipCodes s)) eqn:E; [contradiction|].
    cbn [List.length Nat.ltb Nat.leb]. unfold invalid_zip_messages. now rewrite E. }
  split; [apply validateZipCodes_invalid|]. split; [exact Hoff|].
  assert (exists messages, handleSubmit s = setValidationErrors messages s) as Hrej.
  { destruct (is_empty (trim (apiKey s))) eqn:Hk.
    - eexists. unfold handleSubmit. rewrite Hk. reflexivity.
    - eexists. now apply Hkey. }
  split; [exact Hrej|]. split; [|split; [exact Hkey|]].
  - destruct Hrej as [messages ->]. reflexivity.
  - intros Hk. unfold handleSubmit. now rewrite Hk.
Qed.

(** The example, through the theorem. *)
Lemma zip_validation_rejects_batch_witness :
  invalid (validateZipCodes example_input) = ["abcde"]
  /\ handleSubmit (submission "key" example_input)
     = setValidationErrors
         [ "Invalid ZIP codes found: abcde";
           "Please use 5-digit ZIP codes (e.g., 12345 or 12345-6789)" ]
         (submission "key" example_input).
Proof.
  destruct (proj1 zip_validation_rejects_batch (submission "key" example_input))
    as (Hinvalid & _ & _ & _ & Hmessages & _).
  - exists "abcde". split; [vm_compute; tauto | reflexivity].
  - split; [exact Hinvalid | exact (Hmessages eq_refl)].
Defined.

(** The statement of the specification about a submission: when some
    token fails the pattern, nothing is posted and the tokens that fail
    are what is reported. *)
Definition zip_validation_claim (s : State) : Prop :=
  (exists token, In token (tokens (zipCodes s)) /\ isValidZipCode token = false) ->
  posted (handleSubmit s) = posted s
  /\ validationErrors (handleSubmit s) = invalid_zip_messages (zipCodes s).

(** C6, as the specification states it, fails: for the three lines 12345,
    abcde, 67890 and no API key, the only message is the one that asks for
    the key, and abcde is not reported. *)
Lemma zip_validation_claim_fails_without_key :
  ~ zip_validation_claim (submission EmptyString example_input).
Proof.
  intros Hclaim. destruct Hclaim as [_ Hmessages].
  - exists "abcde"%string. split; [vm_compute; tauto | reflexivity].
  - vm_compute in Hmessages. discriminate Hmessages.
Qed.

End StandardFacts.

(** ** Trimming twice, and splitting where no separator is *)

Module JsStringSplitFacts.

Import JsString JsStringFacts.

(** *** Trimming twice *)

Lemma trimEnd_cons (c : ascii) (s : string) :
  trimEnd (String c s)
  = match trimEnd s with
    | EmptyString => if is_space c then EmptyString else String c EmptyString
    | String d r => String c (String d r)
    end.
Proof. reflexivity. Qed.

Lemma trimEnd_idempotent (s : string) : trimEnd (trimEnd s) = trimEnd s.
Proof.
  induction s as [|c s IH]; [reflexivity|]. rewrite trimEnd_cons.
  destruct (trimEnd s) as [|d r] eqn:E.
  - destruct (is_space c) eqn:Ec; [reflexivity|]. rewrite trimEnd_cons. cbn [trimEnd].
    now rewrite Ec.
  - rewrite trimEnd_cons, IH. reflexivity.
Qed.

(** A string that does not start with white space. *)
Definition starts_dark (s : string) : bool :=
  match s with
  | EmptyString => true
  | String c _ => negb (is_space c)
  end.

Lemma trimStart_dark (s : string) : starts_dark (trimStart s) = true.
Proof.
  induction s as [|c s IH]; [reflexivity|]. cbn [trimStart].
  destruct (is_space c) eqn:E; [exact IH|]. cbn. now rewrite E.
Qed.

Lemma trimStart_of_dark (s : string) : starts_dark s = true -> trimStart s = s.
Proof.
  destruct s as [|c s]; [reflexivity|]. cbn. now destruct (is_space c).
Qed.

Lemma trimEnd_dark (s : string) : starts_dark s = true -> starts_dark (trimEnd s) = true.
Proof.
  destruct s as [|c s]; [reflexivity|]. cbn [starts_dark trimEnd]. intros H.
  destruct (trimEnd s); [|exact H].
  apply negb_true_iff in H. rewrite H. cbn. now rewrite H.
Qed.

Lemma trim_idempotent (s : string) : trim (trim s) = trim s.
Proof.
  unfold trim.
  rewrite (trimStart_of_dark (trimEnd (trimStart s)))
    by apply trimEnd_dark, trimStart_dark.
  apply trimEnd_idempotent.
Qed.

(** *** Pieces *)

Lemma split_char_not_nil (sep : ascii) (s : string) : split_char sep s <> [].
Proof.
  induction s as [|c s IH]; cbn [split_char]; [discriminate|].
  destruct (Ascii.eqb c sep); [discriminate|].
  destruct (split_char sep s); discriminate.
Qed.

Lemma split_char_no_separator (sep : ascii) (s : string) :
  includes_char s sep = false -> split_char sep s = [s].
Proof.
  induction s as [|c s IH]; [reflexivity|]. cbn [includes_char split_char].
  destruct (Ascii.eqb c sep); [discriminate|]. intros H. now rewrite (IH H).
Qed.

Lemma split_char_append (sep : ascii) (s rest : string) :
  includes_char s sep = false ->
  split_char sep (s ++ String sep rest)%string = s :: split_char sep rest.
Proof.
  induction s as [|c s IH]; cbn [includes_char String.append split_char].
  - now rewrite Ascii.eqb_refl.
  - destruct (Ascii.eqb c sep); [discriminate|]. intros H. now rewrite (IH H).
Qed.

End JsStringSplitFacts.

(** ** The number of ZIP codes of a state *)

Module ZipCountFacts.

Import JsString JsNumber ZipRanges ZipRangesFacts.

(** *** Reading the digits back *)

Lemma digit_value_digit_char (d : Z) :
  0 <= d < 10 -> digit_value 10 (digit_char d) = Some d.
Proof.
  intros H.
  assert (d = 0 \/ d = 1 \/ d = 2 \/ d = 3 \/ d = 4 \/ d = 5 \/ d = 6 \/ d = 7 \/ d = 8
          \/ d = 9) as Hd by lia.
  decompose [or] Hd; subst; reflexivity.
Qed.

(** The value read does not depend on the number of digits read before. *)
Lemma read_digits_value (radix : Z) (s : string) :
  forall (acc : Z) (count count' : nat),
    fst (read_digits radix s acc count) = fst (read_digits radix s acc count').
Proof.
  induction s as [|c rest IH]; intros acc count count'; cbn [read_digits]; [reflexivity|].
  destruct (digit_value radix c); [apply IH | reflexivity].
Qed.

(** The value [Number.parseInt] reads from the digits of [n] followed by
    [rest] is the value it reads from [rest], started at [n]. *)
Lemma read_digits_digits_of (fuel : nat) :
  forall (n : Z) (rest : string) (count : nat),
    0 <= n < 10 ^ Z.of_nat fuel ->
    fst (read_digits 10 (digits_of fuel n rest) 0 count) = fst (read_digits 10 rest n count).
Proof.
  induction fuel as [|fuel IH]; intros n rest count Hn.
  - change (10 ^ Z.of_nat 0) with 1 in Hn. assert (n = 0) as -> by lia. reflexivity.
  - rewrite Nat2Z.inj_succ, Z.pow_succ_r in Hn by lia.
    cbn [digits_of].
    pose proof (Z.mod_pos_bound n 10 ltac:(lia)) as Hmod.
    pose proof (Z.div_mod n 10 ltac:(lia)) as Hdiv.
    destruct (Z.eqb_spec (n / 10) 0) as [E | E].
    + cbn [read_digits]. rewrite (digit_value_digit_char _ Hmod).
      replace (0 * 10 + n mod 10) with n by lia. apply read_digits_value.
    + rewrite IH.
      * cbn [read_digits]. rewrite (digit_value_digit_char _ Hmod).
        replace (n / 10 * 10 + n mod 10) with n by lia. apply read_digits_value.
      * split; [apply Z.div_pos; lia | apply Z.div_lt_upper_bound; lia].
Qed.

(** Enough fuel for the digits of [n]. *)
Lemma int_toString_fuel (n : Z) : 0 <= n -> n < 10 ^ Z.of_nat (S (Z.to_nat (Z.log2 n))).
Proof.
  intros H. rewrite Nat2Z.inj_succ, Z2Nat.id by apply Z.log2_nonneg.
  destruct (Z.eq_dec n 0) as [-> | Hne]; [reflexivity|].
  apply Z.lt_le_trans with (2 ^ Z.succ (Z.log2 n)).
  - apply Z.log2_spec. lia.
  - apply Z.pow_le_mono_l. lia.
Qed.

(** The digits of a number that is not negative read back as the number. *)
Lemma read_digits_int_toString (n : Z) (count : nat) :
  0 <= n -> fst (read_digits 10 (int_toString n) 0 count) = n.
Proof.
  intros H. unfold int_toString. destruct (Z.ltb_spec n 0) as [Hneg | _]; [lia|].
  rewrite read_digits_digits_of by (split; [exact H | now apply int_toString_fuel]).
  reflexivity.
Qed.

(** Zeros in front do not change the value read. *)
Lemma read_digits_zeros (m : nat) (s : string) :
  forall count,
    fst (read_digits 10 (String.substring 0 m (JsString.repeat "0" m) ++ s)%string 0 count)
    = fst (read_digits 10 s 0 count).
Proof.
  induction m as [|m IH]; intros count; [reflexivity|].
  cbn [JsString.repeat String.append String.substring read_digits].
  change (digit_value 10 "0") with (Some 0). cbn [Z.mul Z.add].
  rewrite IH. apply read_digits_value.
Qed.

Lemma read_digits_padStart (n : Z) (width : nat) (count : nat) :
  0 <= n -> fst (read_digits 10 (padStart (int_toString n) width "0") 0 count) = n.
Proof.
  intros H. unfold padStart.
  destruct (width <=? String.length (int_toString n))%nat;
    [now apply read_digits_int_toString|].
  cbn [String.length Nat.eqb]. rewrite read_digits_zeros.
  now apply read_digits_int_toString.
Qed.

(** The formatting of a state gives different strings to different
    codes. *)
Lemma format_zip_value (stateCode : string) (k : Z) :
  0 <= k -> fst (read_digits 10 (format_zip stateCode k) 0 0) = k.
Proof.
  intros H. unfold format_zip. destruct (padded_state stateCode).
  - now apply read_digits_padStart.
  - now apply read_digits_int_toString.
Qed.

Lemma format_zip_injective (stateCode : string) (i j : Z) :
  0 <= i -> 0 <= j -> format_zip stateCode i = format_zip stateCode j -> i = j.
Proof.
  intros Hi Hj E.
  rewrite <- (format_zip_value stateCode i Hi), <- (format_zip_value stateCode j Hj).
  now rewrite E.
Qed.

(** *** The width of a number *)

(** A number below [10 ^ width] is written with [width] digits at most. *)
Lemma int_toString_width (width : nat) :
  forall n, 0 <= n < 10 ^ Z.of_nat (S width) ->
  (1 <= String.length (JsString.int_toString n) <= S width)%nat
  /\ all_digits (JsString.int_toString n) = true.
Proof.
  induction width as [|width IH]; intros n Hn.
  - destruct (int_toString_shape 0 n Hn ltac:(congruence)) as [-> Hd]. split; [lia | exact Hd].
  - destruct (Z.lt_ge_cases n (10 ^ Z.of_nat (S width))) as [Hlt | Hge].
    + destruct (IH n ltac:(lia)) as [Hlen Hd]. split; [lia | exact Hd].
    + destruct (int_toString_shape (S width) n Hn ltac:(intros _; lia)) as [-> Hd].
      split; [lia | exact Hd].
Qed.

(** [padStart] with zeros writes such a number with exactly [width]
    digits. *)
Lemma padStart_width (width : nat) (n : Z) :
  0 <= n < 10 ^ Z.of_nat (S width) ->
  String.length (JsString.padStart (JsString.int_toString n) (S width) "0") = S width
  /\ all_digits (JsString.padStart (JsString.int_toString n) (S width) "0") = true.
Proof.
  intros Hn. destruct (int_toString_width width n Hn) as [Hlen Hd].
  unfold JsString.padStart.
  destruct (Nat.leb_spec (S width) (String.length (JsString.int_toString n))) as [Hfull | Hpad].
  - split; [lia | exact Hd].
  - cbn [String.length Nat.eqb].
    destruct (zeros_shape (S width - String.length (JsString.int_toString n))) as [Hz1 Hz2].
    rewrite length_append, all_digits_append, Hz1, Hz2, Hd. split; [lia | reflexivity].
Qed.

(** The digits of a number that is not negative: one at least. *)
Lemma int_toString_digits (n : Z) :
  0 <= n ->
  all_digits (int_toString n) = true /\ int_toString n <> EmptyString.
Proof.
  intros H.
  destruct (int_toString_width (Z.to_nat (Z.log2 n)) n) as [Hlen Hd].
  - split; [exact H | now apply int_toString_fuel].
  - split; [exact Hd|]. intros E. rewrite E in Hlen. cbn in Hlen. lia.
Qed.

Lemma padStart_digits (s : string) (width : nat) :
  all_digits s = true -> s <> EmptyString ->
  all_digits (padStart s width "0") = true /\ padStart s width "0" <> EmptyString.
Proof.
  intros Hd Hne. unfold padStart.
  destruct (width <=? String.length s)%nat; [now split|].
  cbn [String.length Nat.eqb].
  destruct (zeros_shape (width - String.length s)) as [_ Hz].
  rewrite all_digits_append, Hz, Hd. split; [reflexivity|].
  intros E. apply (f_equal String.length) in E. rewrite length_append in E.
  destruct s; [contradiction | cbn in E; lia].
Qed.

Lemma format_zip_digits (stateCode : string) (k : Z) :
  0 <= k ->
  all_digits (format_zip stateCode k) = true /\ format_zip stateCode k <> EmptyString.
Proof.
  intros H. destruct (int_toString_digits k H) as [Hd Hne]. unfold format_zip.
  destruct (padded_state stateCode); [now apply padStart_digits | now split].
Qed.

(** A string of digits holds no white space. *)
Lemma digits_no_space (s : string) :
  all_digits s = true ->
  forallb (fun c => negb (JsString.is_space c)) (list_ascii_of_string s) = true
  /\ JsString.includes_char s JsString.newline = false.
Proof.
  unfold all_digits. induction s as [|c s IH]; [split; reflexivity|].
  cbn [list_ascii_of_string forallb JsString.includes_char]. intros H.
  apply andb_true_iff in H. destruct H as [Hc H]. destruct (IH H) as [IH1 IH2].
  rewrite IH1, IH2.
  assert (JsString.is_space c = false /\ Ascii.eqb c JsString.newline = false) as [-> ->]; [|split; reflexivity].
  unfold JsString.is_digit in Hc. unfold JsString.is_space.
  destruct (Ascii.eqb_spec c JsString.newline) as [-> | _]; [discriminate Hc|].
  set (n := nat_of_ascii c) in *.
  apply andb_true_iff in Hc. destruct Hc as [H1 H2].
  apply Nat.leb_le in H1, H2. split; [|reflexivity].
  destruct (Nat.leb_spec 9 n), (Nat.leb_spec n 13), (Nat.eqb_spec n 32),
    (Nat.eqb_spec n 160); cbn; try reflexivity; lia.
Qed.

(** *** The loop over a range *)

Lemma push_loop_length (body : Z -> string) (count : nat) :
  forall zip zips,
    List.length (push_loop count zip body zips) = (List.length zips + count)%nat.
Proof.
  induction count as [|n IH]; intros zip zips; cbn [push_loop]; [lia|].
  rewrite IH, length_app. cbn [List.length]. lia.
Qed.

Lemma push_loop_NoDup (body : Z -> string) (count : nat) :
  forall zip zips,
    (forall i j, zip <= i < zip + Z.of_nat count -> zip <= j < zip + Z.of_nat count ->
                 body i = body j -> i = j) ->
    (forall k, zip <= k < zip + Z.of_nat count -> ~ In (body k) zips) ->
    NoDup zips -> NoDup (push_loop count zip body zips).
Proof.
  induction count as [|n IH]; intros zip zips Hinj Hfresh Hzips; cbn [push_loop];
    [exact Hzips|].
  apply IH.
  - intros i j Hi Hj. apply Hinj; lia.
  - intros k Hk Hin. apply in_app_or in Hin. destruct Hin as [Hin | [Hin | []]].
    + apply (Hfresh k); [lia | exact Hin].
    + assert (zip = k); [apply Hinj; [lia | lia | exact Hin] | lia].
  - apply NoDup_app; [exact Hzips | repeat constructor; simpl; tauto |].
    intros x Hx [<- | []]. apply (Hfresh zip); [lia | exact Hx].
Qed.

(** The main loop of the generator pushes one string for each code of the
    range, all different. *)
Lemma main_range_distinct (stateCode : string) (from to : Z) :
  0 <= from ->
  let zips := for_range from to (format_zip stateCode) [] in
  NoDup zips /\ List.length zips = Z.to_nat (to + 1 - from).
Proof.
  intros Hfrom zips. split.
  - apply push_loop_NoDup; [|intros k _ []|constructor].
    intros i j Hi Hj. apply format_zip_injective; lia.
  - unfold zips, for_range. now rewrite push_loop_length.
Qed.

(** *** The additional ranges add nothing *)

Lemma lookup_In_keys (stateCode : string) (r : ZipRange) :
  lookup stateCode zipRanges = Some r -> supported stateCode.
Proof.
  intros H. apply lookup_Some_In in H. unfold supported.
  apply in_map_iff. exists (stateCode, r). split; [reflexivity | exact H].
Qed.

(** Every range of the table starts at a positive code. *)
Lemma table_positive (stateCode : string) (r : ZipRange) :
  lookup stateCode zipRanges = Some r -> 0 <= start r.
Proof.
  intros H. apply lookup_Some_In in H.
  assert (forallb (fun kr => 0 <=? start (snd kr)) zipRanges = true) as Ht by reflexivity.
  rewrite forallb_forall in Ht. specialize (Ht _ H). now apply Z.leb_le in Ht.
Qed.

(** What the generator pushes in all is what its main loop pushes: the
    additional ranges of New York, California and Texas lie inside the
    range of their state. *)
Lemma pushed_zips_main_range (stateCode : string) (r : ZipRange) (z : string) :
  lookup stateCode zipRanges = Some r ->
  (In z (pushed_zips stateCode r)
   <-> exists k, start r <= k <= end_ r /\ z = format_zip stateCode k).
Proof.
  intros Hr. unfold pushed_zips.
  destruct (String.eqb_spec stateCode "TX") as [-> | _];
    [injection Hr as <-; cbn [String.eqb Ascii.eqb Bool.eqb]; cbn [start end_];
     rewrite !for_range_In; cbn [In]; split;
     [intros H; decompose [or ex and] H; clear H; subst; try contradiction;
      eexists; (split; [|reflexivity]); lia
     | intros (k & Hk & ->); left; left; right; now exists k]|].
  destruct (String.eqb_spec stateCode "CA") as [-> | _];
    [injection Hr as <-; cbn [String.eqb Ascii.eqb Bool.eqb]; cbn [start end_];
     rewrite !for_range_In; cbn [In]; split;
     [intros H; decompose [or ex and] H; clear H; subst; try contradiction;
      eexists; (split; [|reflexivity]); lia
     | intros (k & Hk & ->); left; right; now exists k]|].
  destruct (String.eqb_spec stateCode "NY") as [-> | _];
    [injection Hr as <-; cbn [String.eqb Ascii.eqb Bool.eqb]; cbn [start end_];
     rewrite !for_range_In; cbn [In]; split;
     [intros H; decompose [or ex and] H; clear H; subst; try contradiction;
      eexists; (split; [|reflexivity]); lia
     | intros (k & Hk & ->); left; right; now exists k]|].
  rewrite for_range_In. cbn [In]. tauto.
Qed.

Lemma generated_In (stateCode : string) (r : ZipRange) (z : string) :
  lookup stateCode zipRanges = Some r ->
  (In z (generateAllZipCodesForState stateCode)
   <-> exists k, start r <= k <= end_ r /\ z = format_zip stateCode k).
Proof.
  intros Hr. rewrite (generateAllZipCodesForState_In _ _ _ Hr).
  now apply pushed_zips_main_range.
Qed.

Lemma generateAllZipCodesForState_Permutation (stateCode : string) (r : ZipRange) :
  lookup stateCode zipRanges = Some r ->
  Permutation (generateAllZipCodesForState stateCode)
              (for_range (start r) (end_ r) (format_zip stateCode) []).
Proof.
  intros Hr. apply NoDup_Permutation.
  - apply generateAllZipCodesForState_NoDup.
  - apply main_range_distinct. exact (table_positive _ _ Hr).
  - intros z. rewrite (generated_In _ _ _ Hr), for_range_In.
    cbn [In]. tauto.
Qed.

Lemma generated_count (stateCode : string) (r : ZipRange) :
  lookup stateCode zipRanges = Some r ->
  Z.of_nat (List.length (generateAllZipCodesForState stateCode)) = end_ r - start r + 1.
Proof.
  intros Hr.
  rewrite (Permutation_length (generateAllZipCodesForState_Permutation _ _ Hr)).
  rewrite (proj2 (main_range_distinct stateCode (start r) (end_ r) (table_positive _ _ Hr))).
  assert (forallb (fun kr => start (snd kr) <=? end_ (snd kr)) zipRanges = true) as Ht
    by reflexivity.
  rewrite forallb_forall in Ht. specialize (Ht _ (lookup_Some_In _ _ _ Hr)).
  apply Z.leb_le in Ht. cbn [snd] in Ht. lia.
Qed.

Lemma lookup_None_empty (stateCode : string) :
  lookup stateCode zipRanges = None -> generateAllZipCodesForState stateCode = [].
Proof. intros H. unfold generateAllZipCodesForState. now rewrite H. Qed.

(** X1.  For a state of the table, the generator returns exactly the
    codes of the range of the state, each formatted once: the additional
    loops for New York, California and Texas add no code that the main loop
    has not pushed. *)
Theorem generateAllZipCodesForState_main_range (stateCode : string) (r : ZipRange)
    (z : string) :
  lookup stateCode zipRanges = Some r ->
  (In z (generateAllZipCodesForState stateCode)
   <-> exists k, start r <= k <= end_ r /\ z = format_zip stateCode k).
Proof. apply generated_In. Qed.

(** The last code of the additional range of New York. *)
Lemma generateAllZipCodesForState_main_range_witness :
  In "11697" (generateAllZipCodesForState "NY")
  /\ ~ In "14926" (generateAllZipCodesForState "NY").
Proof.
  pose proof (generateAllZipCodesForState_main_range
                "NY" {| start := 10001; end_ := 14925 |}) as H.
  split.
  - apply (proj2 (H "11697" eq_refl)). exists 11697.
    split; [cbn [start end_]; lia | reflexivity].
  - intros Hin. apply (proj1 (H "14926" eq_refl)) in Hin. destruct Hin as (k & Hk & E).
    cbn [start end_] in Hk.
    assert (k = 14926); [|lia].
    rewrite <- (format_zip_value "NY" k), <- E by lia. reflexivity.
Defined.

(** X2.  The number of codes the generator returns: the size of the range
    of the state, and none for a code that is not in the table. *)
Theorem generateAllZipCodesForState_length (stateCode : string) :
  match lookup stateCode zipRanges with
  | Some r =>
      Z.of_nat (List.length (generateAllZipCodesForState stateCode)) = end_ r - start r + 1
  | None => generateAllZipCodesForState stateCode = []
  end.
Proof.
  destruct (lookup stateCode zipRanges) as [r|] eqn:Hr.
  - now apply generated_count.
  - now apply lookup_None_empty.
Qed.

(** Whatever its argument, the generator returns strings of digits, none
    of them empty. *)
Lemma generated_digits (stateCode z : string) :
  In z (generateAllZipCodesForState stateCode) ->
  all_digits z = true /\ z <> EmptyString.
Proof.
  destruct (lookup stateCode zipRanges) as [r|] eqn:Hr.
  - intros H. apply (generated_In _ _ _ Hr) in H. destruct H as (k & Hk & ->).
    apply format_zip_digits. pose proof (table_positive _ _ Hr). lia.
  - rewrite (lookup_None_empty _ Hr). intros [].
Qed.

End ZipCountFacts.

(** ** The state selector *)

Module SelectorFacts.

Import JsString JsStringFacts JsStringSearch ZipRanges ZipRangesFacts ZipCountFacts Weekend
  WeekendPage.

(** *** The estimate of the selector and the codes generated *)

Lemma lookup_info_In (stateCode : string) (table : list (string * StateInfo.t))
    (info : StateInfo.t) :
  lookup_info stateCode table = Some info -> In (stateCode, info) table.
Proof.
  induction table as [|[k i] table IH]; simpl; [discriminate|].
  destruct (String.eqb k stateCode) eqn:E.
  - intros [= ->]. apply String.eqb_eq in E. subst. now left.
  - intros H. right. now apply IH.
Qed.

Lemma lookup_info_None (stateCode : string) (table : list (string * StateInfo.t)) :
  lookup_info stateCode table = None -> ~ In stateCode (map fst table).
Proof.
  induction table as [|[k i] table IH]; simpl; [tauto|].
  destruct (String.eqb_spec k stateCode) as [E | E]; [discriminate|].
  intros H [Hk | Hin]; [contradiction | now apply IH].
Qed.

(** The keys of [stateInfo] are different from one another. *)
Lemma stateInfo_keys_NoDup : NoDup (map fst stateInfo).
Proof.
  assert (new_Set (map fst stateInfo) = map fst stateInfo) as <- by reflexivity.
  apply new_Set_NoDup.
Qed.

(** Each state of the selector has a range, which holds more codes than
    the selector announces. *)
Definition announced_below_range (entry : string * StateInfo.t) : bool :=
  match lookup (fst entry) zipRanges with
  | Some r =>
      (0 <? StateInfo.zipCount (snd entry))
      && (StateInfo.zipCount (snd entry) <? end_ r - start r + 1)
  | None => false
  end.

Lemma stateInfo_below_ranges : forallb announced_below_range stateInfo = true.
Proof. vm_compute. reflexivity. Qed.

(** X3.  For every state the selector offers, the generator returns more
    ZIP codes than the selector announces for it ([zipCount]): the total
    the selector shows is an underestimate of what is loaded. *)
Theorem zipCount_below_generated (stateCode : string) (info : StateInfo.t) :
  lookup_info stateCode stateInfo = Some info ->
  0 < StateInfo.zipCount info
    < Z.of_nat (List.length (generateAllZipCodesForState stateCode)).
Proof.
  intros H. apply lookup_info_In in H.
  pose proof stateInfo_below_ranges as Ht. rewrite forallb_forall in Ht.
  specialize (Ht _ H). unfold announced_below_range in Ht. cbn [fst snd] in Ht.
  destruct (lookup stateCode zipRanges) as [r|] eqn:Hr; [|discriminate].
  rewrite (generated_count _ _ Hr).
  apply andb_true_iff in Ht. destruct Ht as [H0 H1].
  apply Z.ltb_lt in H0. apply Z.ltb_lt in H1. lia.
Qed.

(** Rhode Island: 89 announced, 140 generated. *)
Lemma zipCount_below_generated_witness :
  0 < 89 < Z.of_nat (List.length (generateAllZipCodesForState "RI")).
Proof.
  exact (zipCount_below_generated
           "RI" {| StateInfo.name := "Rhode Island"; StateInfo.zipCount := 89 |} eq_refl).
Defined.

(** *** Selecting states *)

Lemma existsb_eqb_In (x : string) (l : list string) :
  existsb (String.eqb x) l = true <-> In x l.
Proof.
  rewrite existsb_exists. split.
  - intros (y & Hy & E). apply String.eqb_eq in E. now subst.
  - intros H. exists x. split; [exact H | apply String.eqb_refl].
Qed.

Lemma toggled_In (stateCode : string) (prev : list string) (x : string) :
  In x (toggled stateCode prev)
  <-> (x = stateCode /\ ~ In stateCode prev) \/ (x <> stateCode /\ In x prev).
Proof.
  unfold toggled. destruct (existsb (String.eqb stateCode) prev) eqn:E.
  - apply existsb_eqb_In in E. rewrite filter_In, negb_true_iff, String.eqb_neq.
    split; [intros [H1 H2]; now right | intros [[_ H] | [H1 H2]]; [contradiction | tauto]].
  - assert (~ In stateCode prev) as Hn
      by (intros H; apply existsb_eqb_In in H; congruence).
    rewrite in_app_iff. cbn [In]. split.
    + intros [H | [<- | []]]; [|now left].
      right. split; [intros ->; contradiction | exact H].
    + intros [[-> _] | [_ H]]; [right; now left | now left].
Qed.

Lemma toggled_NoDup (stateCode : string) (prev : list string) :
  NoDup prev -> NoDup (toggled stateCode prev).
Proof.
  intros H. unfold toggled. destruct (existsb (String.eqb stateCode) prev) eqn:E.
  - now apply NoDup_filter.
  - apply NoDup_app; [exact H | repeat constructor; simpl; tauto |].
    intros x Hx [<- | []]. apply existsb_eqb_In in Hx. congruence.
Qed.

(** X4.  [toggleStateSelection] changes the selection at its state only:
    the state is selected afterwards exactly when it was not before, every
    other state keeps its place in or out of the selection, a selection
    without duplicates stays so, and no other cell of the page changes. *)
Theorem toggleStateSelection_flips (stateCode : string) (p : Page) :
  let p' := snd (toggleStateSelection stateCode p) in
  (In stateCode (selectedStates p') <-> ~ In stateCode (selectedStates p))
  /\ (forall other, other <> stateCode ->
        (In other (selectedStates p') <-> In other (selectedStates p)))
  /\ (NoDup (selectedStates p) -> NoDup (selectedStates p'))
  /\ component p' = component p
  /\ showStateSelector p' = showStateSelector p
  /\ stateSearchTerm p' = stateSearchTerm p
  /\ isLoadingZips p' = isLoadingZips p
  /\ downloads p' = downloads p.
Proof.
  cbv zeta. cbn [toggleStateSelection setSelectedStates snd selectedStates component
    showStateSelector stateSearchTerm isLoadingZips downloads].
  split; [|split; [|split; [apply toggled_NoDup | repeat split]]].
  - rewrite toggled_In. tauto.
  - intros other Hne. rewrite toggled_In. tauto.
Qed.

(** *** The total the selector shows *)

Definition sum_counts (l : list string) : Z :=
  fold_left (fun total stateCode => total + zipCount_or_zero stateCode) l 0.

Lemma fold_counts_from (l : list string) (a : Z) :
  fold_left (fun total stateCode => total + zipCount_or_zero stateCode) l a
  = a + sum_counts l.
Proof.
  unfold sum_counts. revert a. induction l as [|x l IH]; intros a; cbn [fold_left]; [lia|].
  rewrite (IH (a + zipCount_or_zero x)), (IH (0 + zipCount_or_zero x)). lia.
Qed.

Lemma sum_counts_cons (x : string) (l : list string) :
  sum_counts (x :: l) = zipCount_or_zero x + sum_counts l.
Proof. unfold sum_counts at 1. cbn [fold_left]. rewrite fold_counts_from. lia. Qed.

Lemma sum_counts_app (l1 l2 : list string) :
  sum_counts (l1 ++ l2) = sum_counts l1 + sum_counts l2.
Proof.
  induction l1 as [|x l1 IH]; [reflexivity|].
  cbn [app]. rewrite !sum_counts_cons, IH. lia.
Qed.

Lemma sum_counts_remove (stateCode : string) (l : list string) :
  NoDup l -> In stateCode l ->
  sum_counts (filter (fun code => negb (String.eqb code stateCode)) l)
  = sum_counts l - zipCount_or_zero stateCode.
Proof.
  induction l as [|x l IH]; intros Hl Hin; [contradiction|].
  inversion Hl as [|? ? Hx Hl']; subst. cbn [filter].
  destruct (String.eqb_spec x stateCode) as [-> | Hne]; cbn [negb].
  - rewrite sum_counts_cons.
    assert (filter (fun code => negb (String.eqb code stateCode)) l = l) as ->; [|lia].
    clear IH Hl Hin Hl'. induction l as [|y l IH]; [reflexivity|]. cbn [filter].
    destruct (String.eqb_spec y stateCode) as [-> | _];
      [exfalso; apply Hx; now left|].
    cbn [negb]. f_equal. apply IH. intros H. apply Hx. now right.
  - destruct Hin as [-> | Hin]; [contradiction|].
    rewrite !sum_counts_cons, (IH Hl' Hin). lia.
Qed.

(** X5.  On a selection without duplicates, ticking a state adds the
    number announced for it to the total of [getTotalZipCount], and
    unticking it takes that number off again; a name that is no state of
    the selector counts for nothing. *)
Theorem getTotalZipCount_toggle (stateCode : string) (p : Page) :
  NoDup (selectedStates p) ->
  getTotalZipCount (snd (toggleStateSelection stateCode p))
  = (if existsb (String.eqb stateCode) (selectedStates p)
     then getTotalZipCount p - zipCount_or_zero stateCode
     else getTotalZipCount p + zipCount_or_zero stateCode)
  /\ (lookup_info stateCode stateInfo = None -> zipCount_or_zero stateCode = 0).
Proof.
  intros Hnd. split.
  - unfold getTotalZipCount. cbn [toggleStateSelection setSelectedStates snd selectedStates].
    fold (sum_counts (toggled stateCode (selectedStates p))).
    fold (sum_counts (selectedStates p)).
    unfold toggled. destruct (existsb (String.eqb stateCode) (selectedStates p)) eqn:E.
    + apply sum_counts_remove; [exact Hnd | now apply existsb_eqb_In].
    + rewrite sum_counts_app, sum_counts_cons. change (sum_counts []) with 0. lia.
  - intros H. unfold zipCount_or_zero. now rewrite H.
Qed.

(** Texas ticked on a page with California selected, then unticked. *)
Lemma getTotalZipCount_toggle_witness :
  let p := snd (toggleStateSelection "CA" first_render) in
  getTotalZipCount p = 2597
  /\ getTotalZipCount (snd (toggleStateSelection "TX" p)) = 2597 + 2789
  /\ getTotalZipCount
       (snd (toggleStateSelection "TX" (snd (toggleStateSelection "TX" p)))) = 2597.
Proof.
  intros p. split; [reflexivity|]. split.
  - exact (proj1 (getTotalZipCount_toggle "TX" p
                    ltac:(repeat constructor; simpl; tauto))).
  - exact (proj1 (getTotalZipCount_toggle "TX" (snd (toggleStateSelection "TX" p))
                    ltac:(repeat constructor; simpl; intuition discriminate))).
Defined.

(** *** The selections the page can reach *)

Lemma filteredStates_eq (p : Page) :
  filteredStates p = filter (matches_search (stateSearchTerm p)) stateInfo.
Proof. reflexivity. Qed.

Lemma filteredStates_In (p : Page) (entry : string * StateInfo.t) :
  In entry (filteredStates p)
  <-> In entry stateInfo /\ matches_search (stateSearchTerm p) entry = true.
Proof. rewrite filteredStates_eq. apply filter_In. Qed.

(** A selection of states of the selector, each at most once. *)
Definition well_selected (p : Page) : Prop :=
  NoDup (selectedStates p) /\ incl (selectedStates p) (map fst stateInfo).

(** X6.  The selection of the first render and every selection the three
    handlers of the selector make from it holds states of the selector
    only, each at most once: [toggleStateSelection] on a state the list
    offers, [selectAllStates] and [clearStateSelection] keep it so. *)
Theorem selection_stays_well_formed :
  well_selected first_render
  /\ (forall p stateCode, well_selected p -> In stateCode (map fst (filteredStates p)) ->
        well_selected (snd (toggleStateSelection stateCode p)))
  /\ (forall p, well_selected (snd (selectAllStates p))
                /\ selectedStates (snd (selectAllStates p)) = map fst stateInfo)
  /\ (forall p, well_selected (snd (clearStateSelection p))
                /\ selectedStates (snd (clearStateSelection p)) = []).
Proof.
  split; [split; [constructor | intros x []]|]. split; [|split].
  - intros p stateCode [Hnd Hincl] Hoffered. split.
    + now apply toggled_NoDup.
    + intros x Hx. cbn [toggleStateSelection setSelectedStates snd selectedStates] in Hx.
      apply toggled_In in Hx. destruct Hx as [[-> _] | [_ Hx]]; [|now apply Hincl].
      apply in_map_iff in Hoffered. destruct Hoffered as (entry & <- & Hentry).
      apply filteredStates_In in Hentry. apply in_map. exact (proj1 Hentry).
  - intros p. split; [|reflexivity]. split; [apply stateInfo_keys_NoDup | intros x Hx; exact Hx].
  - intros p. split; [|reflexivity]. split; [constructor | intros x []].
Qed.

(** *** Searching the states *)

Lemma prefix_refl (s : string) : String.prefix s s = true.
Proof. induction s as [|c s IH]; [reflexivity|]. cbn. now destruct (ascii_dec c c). Qed.

Lemma prefix_empty (s : string) : String.prefix EmptyString s = true.
Proof. destruct s; reflexivity. Qed.

Lemma includes_empty (s : string) : includes s EmptyString = true.
Proof. destruct s; reflexivity. Qed.

Lemma prefix_toLowerCase (needle s : string) :
  String.prefix needle s = true ->
  String.prefix (toLowerCase needle) (toLowerCase s) = true.
Proof.
  revert s. induction needle as [|c needle IH]; intros s; [intros _; apply prefix_empty|].
  destruct s as [|d s]; [discriminate|]. cbn [String.prefix toLowerCase].
  destruct (ascii_dec c d) as [-> | Hne]; [|discriminate].
  intros H. destruct (ascii_dec (lower d) (lower d)); [now apply IH | contradiction].
Qed.

(** A piece of a string is found in it whatever the case of the letters. *)
Lemma includes_toLowerCase (s needle : string) :
  includes s needle = true -> includes (toLowerCase s) (toLowerCase needle) = true.
Proof.
  induction s as [|c s IH]; cbn [includes toLowerCase].
  - rewrite !orb_false_r. intros H.
    apply (prefix_toLowerCase needle EmptyString) in H. exact H.
  - intros H. apply orb_true_iff in H. destruct H as [H | H].
    + apply (prefix_toLowerCase needle (String c s)) in H. cbn [toLowerCase] in H.
      now rewrite H.
    + rewrite (IH H). apply orb_true_r.
Qed.

Lemma includes_refl (s : string) : includes s s = true.
Proof. destruct s; cbn [includes]; now rewrite prefix_refl. Qed.

(** X7.  The search of the selector lists states of the table only, all
    of them for an empty search term, and it finds a state by any piece of
    its name or of its code, whatever the case of the letters of the
    piece and of the term. *)
Theorem filteredStates_finds (p : Page) (stateCode : string) (info : StateInfo.t) :
  In (stateCode, info) stateInfo ->
  (stateSearchTerm p = EmptyString -> filteredStates p = stateInfo)
  /\ (forall piece,
        includes (StateInfo.name info) piece = true \/ includes stateCode piece = true ->
        toLowerCase (stateSearchTerm p) = toLowerCase piece ->
        In (stateCode, info) (filteredStates p))
  /\ (forall entry, In entry (filteredStates p) -> In entry stateInfo).
Proof.
  intros Hin. split; [|split].
  - intros H. rewrite filteredStates_eq, H. reflexivity.
  - intros piece Hpiece Hterm. apply filteredStates_In.
    split; [exact Hin|]. unfold matches_search. rewrite Hterm.
    destruct Hpiece as [H | H]; rewrite (includes_toLowerCase _ _ H);
      [reflexivity | apply orb_true_r].
  - intros entry H. apply filteredStates_In in H. exact (proj1 H).
Qed.

(** The term [york] in capitals finds New York. *)
Lemma filteredStates_finds_witness :
  let p := {| component := initial; selectedStates := []; showStateSelector := true;
              stateSearchTerm := "YORK"; isLoadingZips := false; downloads := [] |} in
  In ("NY", {| StateInfo.name := "New York"; StateInfo.zipCount := 1789 |})
     (filteredStates p).
Proof.
  intros p.
  refine (proj1 (proj2 (filteredStates_finds
                          p "NY" {| StateInfo.name := "New York"; StateInfo.zipCount := 1789 |}
                          _)) "York" _ _).
  - do 31 right. now left.
  - left. reflexivity.
  - reflexivity.
Defined.

End SelectorFacts.

(** ** A run of the fetch loop as a whole *)

Module WeekendRunFacts.

Import JsString JsStringFacts JsNumber Weekend WeekendFetchFacts.
Local Open Scope weekend_scope.

(** *** What a run leaves alone *)

(** The cells the fetch loop never writes: what the user entered, the
    error of the form, and what is published at the end of a run. *)
Definition settled (s : State)
  : string * string * bool * option string * list WeekendWeatherData
    * list WeekendWeatherData * bool :=
  (apiKey s, zipCodes s, testMode s, error_ s, weatherData s, previewData s, showPreview s).

(** A computation that leaves those cells as they are. *)
Definition keeps {A : Type} (c : M A) : Prop := forall s, settled (snd (c s)) = settled s.

Lemma keeps_ret {A : Type} (a : A) : keeps (ret a).
Proof. intros s. reflexivity. Qed.

Lemma keeps_bind {A B : Type} (c : M A) (k : A -> M B) :
  keeps c -> (forall a, keeps (k a)) -> keeps (bind c k).
Proof. intros Hc Hk s. rewrite bind_run, Hk. apply Hc. Qed.

Lemma keeps_addLog (host : Host) (message : string) : keeps (addLog host message).
Proof. intros s. reflexivity. Qed.

Lemma keeps_setProgress (p : option ProgressUpdate.t) : keeps (setProgress p).
Proof. intros s. reflexivity. Qed.

Lemma keeps_await (host : Host) : keeps (await host).
Proof.
  intros s. unfold await. destruct (stop_pressed host (awaits s) && isProcessing s); reflexivity.
Qed.

Lemma keeps_fetch (host : Host) (url : string) : keeps (fetch host url).
Proof.
  intros s. unfold fetch. cbn [tick_requests modify]. 
  match goal with |- context [await host ?st] =>
    pose proof (keeps_await host st) as H; destruct (await host st) as [u s'] end.
  cbn [snd] in *. exact H.
Qed.

Lemma keeps_json (host : Host) (body : Body) : keeps (json host body).
Proof. apply keeps_bind; [apply keeps_await | intros; apply keeps_ret]. Qed.

Lemma keeps_getWeekendDates (host : Host) : keeps (getWeekendDates host).
Proof. intros s. reflexivity. Qed.

Lemma keeps_tick_entropy : keeps tick_entropy.
Proof. intros s. reflexivity. Qed.

Lemma keeps_generateSampleWeekendData (host : Host) (zipCode : string) :
  keeps (generateSampleWeekendData host zipCode).
Proof. intros s. reflexivity. Qed.

Ltac keeps_step :=
  lazymatch goal with
  | |- keeps (bind _ _) => apply keeps_bind; [|intros ?]
  | |- keeps (ret _) => apply keeps_ret
  | |- keeps (addLog _ _) => apply keeps_addLog
  | |- keeps (setProgress _) => apply keeps_setProgress
  | |- keeps (await _) => apply keeps_await
  | |- keeps (fetch _ _) => apply keeps_fetch
  | |- keeps (json _ _) => apply keeps_json
  | |- keeps (getWeekendDates _) => apply keeps_getWeekendDates
  | |- keeps tick_entropy => apply keeps_tick_entropy
  | |- keeps (generateSampleWeekendData _ _) => apply keeps_generateSampleWeekendData
  | |- keeps (match ?x with _ => _ end) => destruct x
  end.

Lemma keeps_fetchWeekendWeatherForZip (host : Host) (zipCode apiKey : string) :
  keeps (fetchWeekendWeatherForZip host zipCode apiKey).
Proof. unfold fetchWeekendWeatherForZip. repeat keeps_step. Qed.

Lemma keeps_fetch_loop (host : Host) (testMode : bool) (apiKey : string) (total : Z)
    (zipList : list string) :
  forall results completed errors,
    keeps (fetch_loop host testMode apiKey total zipList results completed errors).
Proof.
  induction zipList as [|zipCode rest IH]; intros results completed errors;
    cbn [fetch_loop]; [apply keeps_ret|].
  repeat keeps_step; try apply keeps_fetchWeekendWeatherForZip; apply IH.
Qed.

(** *** The requests of a run *)

(** A step that issues between [lo] and [hi] requests and only adds to the
    log. *)
Definition spends (lo hi : nat) (s s' : State) : Prop :=
  (requests s + lo <= requests s' <= requests s + hi)%nat /\ grows s s'.

Lemma issues_spends (n : nat) (s s' : State) : issues n s s' -> spends n n s s'.
Proof. intros [R G]. split; [lia | exact G]. Qed.

Lemma spends_trans (lo hi lo' hi' : nat) (s1 s2 s3 : State) :
  spends lo hi s1 s2 -> spends lo' hi' s2 s3 -> spends (lo + lo') (hi + hi') s1 s3.
Proof.
  intros [R1 G1] [R2 G2]. split; [lia | exact (grows_trans _ _ _ G1 G2)].
Qed.

Lemma spends_weaken (lo hi lo' hi' : nat) (s s' : State) :
  (lo' <= lo)%nat -> (hi <= hi')%nat -> spends lo hi s s' -> spends lo' hi' s s'.
Proof. intros H1 H2 [R G]. split; [lia | exact G]. Qed.

(** Whatever the network answers, the queries of one ZIP code issue one
    request or two, and what they return is an error or a record of that
    ZIP code. *)
Lemma fetchWeekendWeatherForZip_any (host : Host) (zipCode apiKey : string) (s : State) :
  let out := fetchWeekendWeatherForZip host zipCode apiKey s in
  (exists reason, fst out = Throw reason
   \/ exists result, fst out = Normal (Some result) /\ zip_code result = zipCode)
  /\ spends 1 2 s (snd out).
Proof.
  cbv zeta. unfold fetchWeekendWeatherForZip.
  run_bind. set (dates := fst (getWeekendDates host s)).
  set (s1 := snd (getWeekendDates host s)).
  run_bind. match goal with |- context [addLog host ?m s1] => set (s2 := snd (addLog host m s1)) end.
  assert (issues 0 s s2) as H02 by (split; [cbn; lia | eexists; reflexivity]).
  run_bind. match goal with |- context [fetch host ?u s2] =>
    destruct (fetch_run host u s2) as [Hfst H23]; rewrite Hfst;
    set (s3 := snd (fetch host u s2)) in *; clearbody s3;
    destruct (network host (requests s2) u) as [reason | status body] end;
    pose proof (issues_trans 0 1 _ _ _ H02 H23) as H03; cbn [Nat.add] in H03.
  { split; [exists reason; now left|].
    apply (spends_weaken 1 1); [lia | lia | now apply issues_spends]. }
  destruct (ok status); cbn [negb];
    [|split; [eexists; now left
             | apply (spends_weaken 1 1); [lia | lia | now apply issues_spends]]].
  run_bind. destruct (json_run host body s3) as [-> H34].
  set (s4 := snd (json host body s3)) in *. clearbody s4.
  pose proof (issues_trans 1 0 _ _ _ H03 H34) as H04. cbn [Nat.add] in H04.
  destruct body as [reason | historicalData].
  { split; [exists reason; now left|].
    apply (spends_weaken 1 1); [lia | lia | now apply issues_spends]. }
  run_bind. match goal with |- context [addLog host ?m s4] => set (s5 := snd (addLog host m s4)) end.
  assert (issues 0 s4 s5) as H45 by (split; [cbn; lia | eexists; reflexivity]).
  run_bind. match goal with |- context [fetch host ?u s5] =>
    destruct (fetch_run host u s5) as [Hfst' H56]; rewrite Hfst';
    set (s6 := snd (fetch host u s5)) in *; clearbody s6;
    destruct (network host (requests s5) u) as [reason | status' body'] end;
    pose proof (issues_trans 1 1 _ _ _ (issues_trans 1 0 _ _ _ H04 H45) H56) as H06;
    cbn [Nat.add] in H06.
  { split; [exists reason; now left|].
    apply (spends_weaken 2 2); [lia | lia | now apply issues_spends]. }
  destruct (ok status'); cbn [negb];
    [|split; [eexists; now left
             | apply (spends_weaken 2 2); [lia | lia | now apply issues_spends]]].
  run_bind. destruct (json_run host body' s6) as [-> H67].
  set (s7 := snd (json host body' s6)) in *. clearbody s7.
  pose proof (issues_trans 2 0 _ _ _ H06 H67) as H07. cbn [Nat.add] in H07.
  destruct body' as [reason | forecastData].
  - split; [exists reason; now left|].
    apply (spends_weaken 2 2); [lia | lia | now apply issues_spends].
  - split; [|apply (spends_weaken 2 2); [lia | lia | now apply issues_spends]].
    cbn [ret fst].
    destruct (parse_result host zipCode dates historicalData forecastData)
      as [reason | result] eqn:E.
    + exists reason. now left.
    + exists EmptyString. right. exists result.
      split; [reflexivity | exact (parse_result_zip_code _ _ _ _ _ _ E)].
Qed.

(** The body of the loop in either mode: an error or a record of the ZIP
    code; no request in test mode, one or two in live mode. *)
Definition least (testMode : bool) : nat := if testMode then 0%nat else 1%nat.
Definition most (testMode : bool) : nat := if testMode then 0%nat else 2%nat.

Lemma produce_any (host : Host) (testMode : bool) (apiKey zipCode : string) (s : State) :
  let out := produce host testMode apiKey zipCode s in
  (exists reason, fst out = Throw reason
   \/ exists result, fst out = Normal (Some result) /\ zip_code result = zipCode)
  /\ spends (least testMode) (most testMode) s (snd out).
Proof.
  destruct testMode.
  - destruct (produce_test host apiKey zipCode s) as (result & Hfst & Hzip & Hiss).
    split; [exists EmptyString; right; now exists result | now apply issues_spends].
  - apply fetchWeekendWeatherForZip_any.
Qed.

(** [sub] holds some of the elements of [l], in the order of [l]. *)
Inductive subsequence {A : Type} : list A -> list A -> Prop :=
| subsequence_nil : subsequence [] []
| subsequence_skip (x : A) (sub l : list A) : subsequence sub l -> subsequence sub (x :: l)
| subsequence_take (x : A) (sub l : list A) :
    subsequence sub l -> subsequence (x :: sub) (x :: l).

Lemma subsequence_length {A : Type} (sub l : list A) :
  subsequence sub l -> (List.length sub <= List.length l)%nat.
Proof. induction 1; cbn [List.length]; lia. Qed.

Lemma subsequence_refl {A : Type} (l : list A) : subsequence l l.
Proof. induction l; constructor; assumption. Qed.

Lemma subsequence_In {A : Type} (sub l : list A) (x : A) :
  subsequence sub l -> In x sub -> In x l.
Proof.
  induction 1 as [|y sub l _ IH|y sub l _ IH]; cbn [In]; [tauto | auto |].
  intros [-> | H]; auto.
Qed.

(** The loop accounts for every ZIP code of its list once: it adds the
    record of the ZIP code to [results] or adds one to [errors]. *)
Lemma fetch_loop_accounts (host : Host) (testMode : bool) (apiKey : string) (total : Z)
    (zipList : list string) :
  forall (results : list WeekendWeatherData) (completed errors : Z) (s : State),
    let out := fetch_loop host testMode apiKey total zipList results completed errors s in
    let n := List.length zipList in
    exists new,
      fst (fst (fst out)) = results ++ new
      /\ subsequence (map zip_code new) zipList
      /\ snd (fst (fst out)) = completed + Z.of_nat n
      /\ snd (fst out) = errors + (Z.of_nat n - Z.of_nat (List.length new))
      /\ spends (least testMode * n) (most testMode * n) s (snd out).
Proof.
  induction zipList as [|zipCode rest IH]; intros results completed errors s.
  - cbv zeta. cbn [fetch_loop ret fst snd List.length]. exists []. rewrite app_nil_r.
    split; [reflexivity|]. split; [constructor|]. split; [lia|].
    split; [cbn [List.length]; lia|].
    rewrite !Nat.mul_0_r. split; [lia | apply grows_refl].
  - cbv zeta. rewrite fetch_loop_turn. cbv zeta.
    set (s1 := announced host total zipCode completed s).
    destruct (produce_any host testMode apiKey zipCode s1) as [[reason Hout] Hsp].
    pose proof (announced_issues host total zipCode completed s) as H01. fold s1 in H01.
    set (produced := produce host testMode apiKey zipCode s1) in *.
    pose proof (record_outcome_issues host zipCode results errors (fst produced) (snd produced))
      as H23.
    set (recorded := record_outcome host zipCode results errors (fst produced) (snd produced))
      in *.
    pose proof (finish_turn_issues host testMode total zipCode completed (snd recorded)) as H34.
    set (s4 := snd (finish_turn host testMode total zipCode completed (snd recorded))) in *.
    assert (spends (least testMode) (most testMode) s s4) as Hturn.
    { replace (least testMode) with (0 + (least testMode + (0 + 0)))%nat by lia.
      replace (most testMode) with (0 + (most testMode + (0 + 0)))%nat by lia.
      apply (spends_trans _ _ _ _ s s1 s4 (issues_spends _ _ _ H01)).
      apply (spends_trans _ _ _ _ s1 (snd produced) s4 Hsp).
      apply (spends_trans _ _ _ _ _ (snd recorded) s4 (issues_spends _ _ _ H23)).
      now apply issues_spends. }
    destruct (IH (fst (fst recorded)) (completed + 1) (snd (fst recorded)) s4)
      as (new & Hres & Hsub & Hcomp & Herr & Hrest).
    cbv zeta in Hres, Hcomp, Herr, Hrest.
    assert (spends (least testMode * List.length (zipCode :: rest))
                   (most testMode * List.length (zipCode :: rest)) s
                   (snd (fetch_loop host testMode apiKey total rest (fst (fst recorded))
                                    (completed + 1) (snd (fst recorded)) s4))) as Hall.
    { cbn [List.length].
      replace (least testMode * S (List.length rest))%nat
        with (least testMode + least testMode * List.length rest)%nat by lia.
      replace (most testMode * S (List.length rest))%nat
        with (most testMode + most testMode * List.length rest)%nat by lia.
      exact (spends_trans _ _ _ _ _ _ _ Hturn Hrest). }
    destruct Hout as [Hout | (result & Hout & Hzip)].
    + assert (fst recorded = (results, errors + 1)) as Hrec.
      { unfold recorded. rewrite Hout.
        exact (proj1 (record_outcome_failure host zipCode results errors reason _)). }
      rewrite Hrec in *. cbn [fst snd] in *.
      exists new. split; [exact Hres|]. split; [now constructor|].
      split; [rewrite Hcomp; cbn [List.length]; lia|].
      split; [rewrite Herr; cbn [List.length]; lia | exact Hall].
    + assert (fst recorded = (results ++ [result], errors)) as Hrec.
      { unfold recorded. rewrite Hout. apply record_outcome_success. }
      rewrite Hrec in *. cbn [fst snd] in *.
      exists (result :: new). split; [rewrite Hres, <- app_assoc; reflexivity|].
      split; [cbn [map]; rewrite Hzip; now constructor|].
      split; [rewrite Hcomp; cbn [List.length]; lia|].
      split; [rewrite Herr; cbn [List.length]; lia | exact Hall].
Qed.

(** *** The whole run *)

(** The message of the line [startFetching] ends its log with. *)
Definition summary (successCount total errors : Z) : string :=
  (if (successCount =? total)%Z then
     Glyph.party ++ " Completed! Weekend weather data for "
     ++ JsString.int_toString successCount ++ " locations ready"
   else
     Glyph.warning ++ " Completed with " ++ JsString.int_toString errors
     ++ " errors. Successfully processed "
     ++ JsString.int_toString successCount ++ " out of "
     ++ JsString.int_toString total ++ " ZIP codes")%string.

(** Past its guards, [startFetching] clears the error, runs the loop and
    publishes what the loop returns; the last line of its log is the
    summary. *)
Lemma startFetching_publishes (host : Host) (s0 : State) :
  negb (testMode s0) && JsString.is_empty (JsString.trim (apiKey s0)) = false ->
  zipListOf (zipCodes s0) <> [] ->
  let zipList := zipListOf (zipCodes s0) in
  let total := Z.of_nat (List.length zipList) in
  exists s1,
    requests s1 = requests s0
    /\ settled s1 = (apiKey s0, zipCodes s0, testMode s0, None, [], [], false)
    /\ let out := fetch_loop host (testMode s0) (apiKey s0) total zipList [] 0 0 s1 in
       let results := fst (fst (fst out)) in
       let s2 := snd (startFetching host s0) in
       settled s2
       = (apiKey (snd out), zipCodes (snd out), testMode (snd out), error_ (snd out),
          results, firstn 3 results, true)
       /\ progress s2 = Some (final_progress total)
       /\ isProcessing s2 = false
       /\ requests s2 = requests (snd out)
       /\ logs s2
          = logs (snd out)
            ++ [log_line host (snd out)
                  (summary (Z.of_nat (List.length results)) total (snd (fst out)))].
Proof.
  intros Hkey Hlist zipList total. unfold startFetching. rewrite Hkey.
  destruct (JsString.is_empty (JsString.trim (zipCodes s0))) eqn:Hblank;
    [now apply zipListOf_blank in Hblank|].
  assert (total <> 0) as Hne.
  { unfold total, zipList. destruct (zipListOf (zipCodes s0));
      [contradiction | cbn [List.length]; lia]. }
  fold zipList. fold total.
  destruct (Z.eqb_spec total 0) as [Hzero | _]; [contradiction|].
  do 8 run_bind.
  destruct (testMode s0) eqn:Hmode; do 6 run_bind;
    (match goal with |- context [fetch_loop host ?m _ total zipList [] 0 0 ?st] =>
       exists st; set (s1 := st);
       destruct (fetch_loop host m (apiKey s0) total zipList [] 0 0 s1)
         as [[[results completed] errors] s'] eqn:Eloop
     end);
    (split; [reflexivity|]); (split; [unfold settled; cbn; now rewrite Hmode|]);
    cbv zeta; cbn [fst snd]; do 4 run_bind; unfold summary;
    destruct (Z.of_nat (Datatypes.length results) =? total); run_bind;
    repeat (split; [reflexivity|]); reflexivity.
Qed.

(** X8.  A run of [startFetching] that passes its guards accounts for
    every ZIP code of the list once, whatever the host does: the records
    published are records of ZIP codes of the list, in the order of the
    list; the preview is their first three; the last line of the log is
    the summary, whose number of errors is the number of ZIP codes
    without a record; no request is issued in test mode, and in live mode
    at least one and at most two for each ZIP code; the error of the form
    is cleared and what the user entered is left as it was. *)
Theorem startFetching_accounts_for_every_zip (host : Host) (s0 : State) :
  negb (testMode s0) && JsString.is_empty (JsString.trim (apiKey s0)) = false ->
  zipListOf (zipCodes s0) <> [] ->
  let zipList := zipListOf (zipCodes s0) in
  let total := Z.of_nat (List.length zipList) in
  let s2 := snd (startFetching host s0) in
  let successCount := Z.of_nat (List.length (weatherData s2)) in
  subsequence (map zip_code (weatherData s2)) zipList
  /\ previewData s2 = firstn 3 (weatherData s2)
  /\ (exists logged,
        last (logs s2) EmptyString
        = log_line host logged (summary successCount total (total - successCount)))
  /\ (requests s0 + least (testMode s0) * List.length zipList
      <= requests s2
      <= requests s0 + most (testMode s0) * List.length zipList)%nat
  /\ error_ s2 = None
  /\ isProcessing s2 = false
  /\ (apiKey s2, zipCodes s2, testMode s2) = (apiKey s0, zipCodes s0, testMode s0).
Proof.
  intros Hkey Hlist zipList total s2 successCount.
  destruct (startFetching_publishes host s0 Hkey Hlist) as (s1 & Hreq & Hs1 & Hrun).
  cbv zeta in Hrun. fold zipList total s2 in Hrun.
  destruct (fetch_loop_accounts host (testMode s0) (apiKey s0) total zipList [] 0 0 s1)
    as (new & Hres & Hsub & _ & Herr & [Hsp _]).
  pose proof (keeps_fetch_loop host (testMode s0) (apiKey s0) total zipList [] 0 0 s1) as Hkeep.
  set (out := fetch_loop host (testMode s0) (apiKey s0) total zipList [] 0 0 s1) in *.
  cbn [app] in Hres. rewrite Hres in Hrun.
  destruct Hrun as (Hset & _ & Hproc & Hreq2 & Hlogs).
  rewrite Hs1 in Hkeep. unfold settled in Hset, Hkeep.
  injection Hkeep as Hk1 Hk2 Hk3 Hk4 _ _ _.
  injection Hset as Hs1' Hs2' Hs3' Hs4' Hdata Hprev _.
  unfold successCount. rewrite Hdata.
  split; [exact Hsub|]. split; [now rewrite Hprev|].
  split.
  - exists (snd out). rewrite Hlogs, last_last. f_equal. f_equal.
    rewrite Herr. unfold total. lia.
  - split; [rewrite Hreq2; lia|]. split; [congruence|]. split; [exact Hproc|].
    congruence.
Qed.

(** A live run of two ZIP codes on a host without a network: no record,
    the summary of two errors, two requests. *)
Lemma startFetching_accounts_for_every_zip_witness :
  let host := demo_host (fun _ => Rejected "offline") (fun _ => false) in
  let s0 := entered "KEY" (lines ["10001"; "90210"]) false in
  let s2 := snd (startFetching host s0) in
  zipListOf (zipCodes s0) = ["10001"; "90210"]%string
  /\ subsequence (map zip_code (weatherData s2)) ["10001"; "90210"]%string
  /\ (2 <= requests s2 <= 4)%nat
  /\ error_ s2 = None.
Proof.
  intros host s0 s2.
  assert (zipListOf (zipCodes s0) = ["10001"; "90210"]%string) as E by reflexivity.
  split; [exact E|].
  destruct (startFetching_accounts_for_every_zip host s0 eq_refl
              ltac:(rewrite E; discriminate)) as (H1 & _ & _ & H4 & H5 & _).
  rewrite E in H1, H4. split; [exact H1|]. split; [exact H4|exact H5].
Defined.

(** *** The guards *)

(** When every piece between two separators is blank and the separator is
    white space, the string is blank. *)
Lemma blank_split_char (sep : ascii) (s : string) :
  is_space sep = true ->
  Forall (fun piece => blank piece = true) (split_char sep s) -> blank s = true.
Proof.
  intros Hsep. induction s as [|c rest IH]; [reflexivity|]. cbn [split_char blank].
  destruct (Ascii.eqb_spec c sep) as [-> | Hne].
  - intros H. inversion H as [|? ? _ Hrest]; subst. now rewrite Hsep, IH.
  - destruct (split_char sep rest) as [|h t] eqn:E.
    + intros H. inversion H as [|? ? Hc _]; subst. cbn in Hc.
      apply andb_true_iff in Hc. destruct Hc as [Hc _]. rewrite Hc. apply IH. constructor.
    + intros H. inversion H as [|? ? Hc Ht]; subst. cbn in Hc.
      apply andb_true_iff in Hc. destruct Hc as [Hc Hh]. rewrite Hc. apply IH.
      now constructor.
Qed.

(** A text with a character that is not white space has a line with such
    a character. *)
Lemma zipListOf_not_blank (zipCodes : string) :
  JsString.is_empty (JsString.trim zipCodes) = false -> zipListOf zipCodes <> [].
Proof.
  intros Hne Hnil.
  assert (blank zipCodes = true) as Hblank.
  { apply (blank_split_char newline); [reflexivity|].
    unfold zipListOf in Hnil. apply map_eq_nil in Hnil.
    apply Forall_forall. intros piece Hin.
    destruct (is_empty (trim piece)) eqn:E; [now apply trim_blank|].
    assert (In piece (filter (fun zip => negb (is_empty (trim zip)))
                             (split_char newline zipCodes))) as Habs
      by (apply filter_In; split; [exact Hin | now rewrite E]).
    now rewrite Hnil in Habs. }
  apply trim_blank in Hblank. congruence.
Qed.

(** The error [startFetching] reports for a form. *)
Definition guard_error (s0 : State) : option string :=
  if negb (testMode s0) && is_empty (trim (apiKey s0))
  then Some "Please enter your Visual Crossing API key or use Test Mode"%string
  else if is_empty (trim (zipCodes s0))
       then Some "Please enter at least one ZIP code"%string
       else None.

(** X9.  [startFetching] leaves the form with the error of its first
    guard that fails and with no error otherwise.  A guard that fails ends
    the handler there: nothing but the error changes, so no request is
    issued and no line is logged.  The third guard never fails: a text
    that is not blank has a line that is not blank, so the error "Please
    enter valid ZIP codes" is never reported. *)
Theorem startFetching_guards (host : Host) (s0 : State) :
  let s2 := snd (startFetching host s0) in
  error_ s2 = guard_error s0
  /\ (guard_error s0 <> None -> s2 = snd (setError (guard_error s0) s0))
  /\ error_ s2 <> Some "Please enter valid ZIP codes"%string.
Proof.
  cbv zeta.
  assert (error_ (snd (startFetching host s0)) = guard_error s0
          /\ (guard_error s0 <> None ->
              snd (startFetching host s0) = snd (setError (guard_error s0) s0))) as [H1 H2].
  { unfold guard_error.
    destruct (negb (testMode s0) && is_empty (trim (apiKey s0))) eqn:Hkey.
    - unfold startFetching. rewrite Hkey. split; reflexivity.
    - destruct (is_empty (trim (zipCodes s0))) eqn:Hzips.
      + unfold startFetching. rewrite Hkey, Hzips. split; reflexivity.
      + split; [|congruence].
        pose proof (zipListOf_not_blank _ Hzips) as Hlist.
        destruct (startFetching_publishes host s0 Hkey Hlist) as (s1 & _ & Hs1 & Hrun).
        cbv zeta in Hrun. destruct Hrun as (Hset & _).
        pose proof (keeps_fetch_loop host (testMode s0) (apiKey s0)
                      (Z.of_nat (List.length (zipListOf (zipCodes s0))))
                      (zipListOf (zipCodes s0)) [] 0 0 s1) as Hkeep.
        rewrite Hs1 in Hkeep. unfold settled in Hset, Hkeep.
        injection Hkeep as _ _ _ Hk _ _ _. injection Hset as _ _ _ He _ _ _.
        congruence. }
  split; [exact H1|]. split; [exact H2|].
  rewrite H1. unfold guard_error.
  destruct (negb (testMode s0) && is_empty (trim (apiKey s0)));
    [discriminate|]. destruct (is_empty (trim (zipCodes s0))); discriminate.
Qed.

(** *** A failure in the list *)










(** *** Answers with days missing *)











End WeekendRunFacts.

(** ** Loading the ZIP codes of the selected states *)

Module LoaderFacts.

Import JsString JsStringFacts JsStringSplitFacts ZipRanges ZipRangesFacts ZipCountFacts
  Weekend WeekendFetchFacts WeekendRunFacts WeekendPage.

(** *** Running a computation on the page *)

Lemma bindP_run {A B : Type} (c : P A) (k : A -> P B) (p : Page) :
  bindP c k p = k (fst (c p)) (snd (c p)).
Proof. unfold bindP. destruct (c p). reflexivity. Qed.

(** The page with another component. *)
Definition with_component (p : Page) (s : State) : Page :=
  {| component := s; selectedStates := selectedStates p;
     showStateSelector := showStateSelector p; stateSearchTerm := stateSearchTerm p;
     isLoadingZips := isLoadingZips p; downloads := downloads p |}.

Lemma lift_run {A : Type} (c : M A) (p : Page) :
  lift c p = (fst (c (component p)), with_component p (snd (c (component p)))).
Proof. unfold lift. destruct (c (component p)). reflexivity. Qed.

Ltac run_page := rewrite ?bindP_run, ?lift_run; cbv beta zeta; cbn [fst snd].

(** *** Lines and back *)

Definition no_newline (s : string) : Prop := includes_char s newline = false.

(** The lines of a text made of lines. *)
Lemma split_char_lines (l : list string) :
  l <> [] -> Forall no_newline l -> split_char newline (join_lines l) = l.
Proof.
  unfold join_lines, join. induction l as [|x l IH]; [contradiction|].
  intros _ H. inversion H as [|? ? Hx Hl]; subst.
  destruct l as [|y l]; [now apply split_char_no_separator|].
  change (String.concat (String newline EmptyString) (x :: y :: l))
    with (x ++ String newline (String.concat (String newline EmptyString) (y :: l)))%string.
  rewrite (split_char_append _ _ _ Hx), IH; [reflexivity | discriminate | exact Hl].
Qed.

(** [startFetching] reads back the ZIP codes that were joined into the
    text, when each is a string of digits. *)
Lemma zipListOf_lines (l : list string) :
  Forall (fun z => all_digits z = true /\ z <> EmptyString) l ->
  zipListOf (join_lines l) = l.
Proof.
  intros H. unfold zipListOf.
  destruct l as [|x l]; [reflexivity|].
  rewrite split_char_lines;
    [|discriminate
     |apply Forall_forall; intros z Hz; rewrite Forall_forall in H;
      exact (proj2 (digits_no_space z (proj1 (H z Hz))))].
  induction H as [|z rest [Hd Hne] _ IH]; [reflexivity|].
  cbn [filter map]. rewrite (trim_no_space z (proj1 (digits_no_space z Hd))).
  destruct z; [contradiction|]. cbn [is_empty negb map].
  rewrite (trim_no_space _ (proj1 (digits_no_space _ Hd))). f_equal. exact IH.
Qed.

(** *** The loop of the loader *)

(** The number of codes the generator returns for the states of a list,
    state by state. *)
Definition generated_total (states : list string) : Z :=
  fold_right (fun stateCode total =>
                Z.of_nat (List.length (generateAllZipCodesForState stateCode)) + total)
             0 states.

Lemma keeps_load_loop (host : Host) (states : list string) :
  forall allZips totalZipCount, keeps (load_loop host states allZips totalZipCount).
Proof.
  induction states as [|stateCode rest IH]; intros allZips totalZipCount;
    cbn [load_loop]; [apply keeps_ret|].
  apply keeps_bind; [apply keeps_addLog | intros _].
  apply keeps_bind; [apply keeps_addLog | intros _].
  apply keeps_bind; [apply keeps_await | intros _]. apply IH.
Qed.

Lemma load_loop_run (host : Host) (states : list string) :
  forall (allZips : list string) (totalZipCount : Z) (s : State),
    let out := load_loop host states allZips totalZipCount s in
    fst out
    = (allZips ++ List.concat (map generateAllZipCodesForState states),
       totalZipCount + generated_total states)
    /\ issues 0 s (snd out).
Proof.
  induction states as [|stateCode rest IH]; intros allZips totalZipCount s; cbv zeta.
  - cbn [load_loop ret fst snd map List.concat generated_total fold_right].
    rewrite app_nil_r, Z.add_0_r. split; [reflexivity | split; [lia | apply grows_refl]].
  - cbn [load_loop]. run_bind.
    match goal with |- context [addLog host ?m s] => set (s1 := snd (addLog host m s)) end.
    run_bind.
    match goal with |- context [addLog host ?m s1] => set (s2 := snd (addLog host m s1)) end.
    run_bind. set (s3 := snd (await host s2)).
    destruct (IH (allZips ++ generateAllZipCodesForState stateCode)
                 (totalZipCount
                  + Z.of_nat (List.length (generateAllZipCodesForState stateCode))) s3)
      as [Hfst Hiss].
    cbv zeta in Hfst, Hiss. rewrite Hfst. split.
    + cbn [map List.concat generated_total fold_right]. rewrite <- app_assoc.
      f_equal. unfold generated_total. lia.
    + apply (issues_trans 0 0 s s1); [apply addLog_issues|].
      apply (issues_trans 0 0 s1 s2); [apply addLog_issues|].
      apply (issues_trans 0 0 s2 s3); [apply await_issues | exact Hiss].
Qed.

(** The ZIP codes [loadSelectedStatesZipCodes] puts in the text for a
    selection: the codes of all its states, sorted, each once. *)
Definition uniqueZipsOf (selected : list string) : list string :=
  StringSort.sort (new_Set (List.concat (map generateAllZipCodesForState selected))).

Lemma uniqueZipsOf_In (selected : list string) (z : string) :
  In z (uniqueZipsOf selected)
  <-> exists stateCode,
        In stateCode selected /\ In z (generateAllZipCodesForState stateCode).
Proof.
  unfold uniqueZipsOf.
  assert (In z (StringSort.sort
                  (new_Set (List.concat (map generateAllZipCodesForState selected))))
          <-> In z (List.concat (map generateAllZipCodesForState selected))) as ->.
  { rewrite <- (new_Set_In (List.concat (map generateAllZipCodesForState selected)) z).
    split; apply Permutation_in; [apply Permutation_sym|]; apply StringSort.Permuted_sort. }
  rewrite in_concat. split.
  - intros (l & Hl & Hz). apply in_map_iff in Hl. destruct Hl as (c & <- & Hc). now exists c.
  - intros (c & Hc & Hz). exists (generateAllZipCodesForState c). split; [|exact Hz].
    now apply in_map.
Qed.

(** The page after [loadSelectedStatesZipCodes], past its guard. *)
Lemma loadSelectedStatesZipCodes_run (host : Host) (p0 : Page) :
  selectedStates p0 <> [] ->
  let p1 := snd (loadSelectedStatesZipCodes host p0) in
  zipCodes (component p1) = join_lines (uniqueZipsOf (selectedStates p0))
  /\ error_ (component p1) = None
  /\ isLoadingZips p1 = false
  /\ showStateSelector p1 = false
  /\ selectedStates p1 = selectedStates p0
  /\ downloads p1 = downloads p0
  /\ requests (component p1) = requests (component p0)
  /\ (apiKey (component p1), testMode (component p1), weatherData (component p1))
     = (apiKey (component p0), testMode (component p0), weatherData (component p0)).
Proof.
  intros Hsel. cbv zeta. unfold loadSelectedStatesZipCodes.
  destruct (Z.eqb_spec (Z.of_nat (List.length (selectedStates p0))) 0) as [E | _];
    [destruct (selectedStates p0); [contradiction | discriminate E]|].
  do 4 (rewrite bindP_run; cbv beta zeta). rewrite !lift_run. cbn [fst snd].
  cbn [setIsLoadingZips component with_component selectedStates].
  match goal with |- context [load_loop host ?l [] 0 ?st] =>
    destruct (load_loop_run host l [] 0 st) as [Hfst Hiss];
    pose proof (keeps_load_loop host l [] 0 st) as Hkeep;
    destruct (load_loop host l [] 0 st) as [[allZips totalZipCount] s'] eqn:Eloop
  end.
  cbn [fst snd] in *. injection Hfst as -> ->. cbn [app].
  do 4 (rewrite bindP_run; cbv beta zeta). rewrite !lift_run. cbn [fst snd].
  unfold settled in Hkeep. cbn [setError modify snd apiKey zipCodes testMode error_
    weatherData previewData showPreview addLog] in Hkeep.
  injection Hkeep as Hk1 Hk2 Hk3 Hk4 Hk5 Hk6 Hk7.
  destruct Hiss as [Hreq _]. cbn in Hreq.
  cbn. unfold uniqueZipsOf. rewrite Hk1, Hk3, Hk4, Hk5.
  repeat split; try reflexivity. lia.
Qed.

(** X11.  [loadSelectedStatesZipCodes] with no state selected reports an
    error and does nothing else.  With states selected, the text it leaves
    in the field of the ZIP codes is read back by [startFetching] as the
    list of the codes the generator returns for the selected states,
    sorted and each once, whatever state the codes come from; the selector
    is closed, the loading flag is down again, the error is cleared, and
    no request has been issued. *)
Theorem loadSelectedStatesZipCodes_loads (host : Host) (p0 : Page) :
  let p1 := snd (loadSelectedStatesZipCodes host p0) in
  let loaded := zipListOf (zipCodes (component p1)) in
  (selectedStates p0 = [] ->
   p1 = snd (lift (setError (Some "Please select at least one state"%string)) p0))
  /\ (selectedStates p0 <> [] ->
      Sorted (fun a b => String.leb a b = true) loaded
      /\ NoDup loaded
      /\ (forall z, In z loaded
                    <-> exists stateCode, In stateCode (selectedStates p0)
                                          /\ In z (generateAllZipCodesForState stateCode))
      /\ showStateSelector p1 = false
      /\ isLoadingZips p1 = false
      /\ error_ (component p1) = None
      /\ requests (component p1) = requests (component p0)).
Proof.
  cbv zeta. split.
  - intros H. unfold loadSelectedStatesZipCodes. rewrite H. reflexivity.
  - intros Hsel.
    destruct (loadSelectedStatesZipCodes_run host p0 Hsel)
      as (Hzips & Herr & Hload & Hshow & _ & _ & Hreq & _).
    cbv zeta in *. rewrite Hzips, zipListOf_lines.
    + split; [apply StringSort.Sorted_sort|]. split.
      * eapply Permutation_NoDup; [apply StringSort.Permuted_sort | apply new_Set_NoDup].
      * split; [apply uniqueZipsOf_In|]. repeat split; assumption.
    + apply Forall_forall. intros z Hz. apply uniqueZipsOf_In in Hz.
      destruct Hz as (c & _ & Hz). exact (generated_digits c z Hz).
Qed.

End LoaderFacts.

(** ** The export *)

Module ExportFacts.

Import JsString JsStringFacts ZipRangesFacts Weekend WeekendFetchFacts WeekendRunFacts CsvFacts
  WeekendPage LoaderFacts.

(** *** Reading a row back *)

(** The text of a value in a cell. *)
Definition text_of (v : Value) : string :=
  match v with Str s => s | Null | Undefined => EmptyString end.

Lemma unescapeCSV_escapeCSV (v : Value) : unescapeCSV (escapeCSV v) = text_of v.
Proof.
  destruct v as [| |s]; [reflexivity | reflexivity|].
  unfold escapeCSV, text_of. fold (needs_quotes s).
  destruct (needs_quotes s) eqn:E.
  - cbn [unescapeCSV]. rewrite Ascii.eqb_refl, drop_closing_quote_append.
    apply collapse_double_quotes.
  - destruct s as [|c rest]; [reflexivity|]. cbn [unescapeCSV].
    unfold needs_quotes in E. apply orb_false_iff in E. destruct E as [E _].
    apply orb_false_iff in E. destruct E as [_ E].
    now rewrite (includes_char_head _ _ _ E).
Qed.

(** A character put in front of the first of a list of cells. *)
Definition extend (c : ascii) (cells : list string) : list string :=
  match cells with
  | h :: t => String c h :: t
  | [] => [String c EmptyString]
  end.

(** The reader of a row of a CSV file, which the repository does not
    contain: the cells are the pieces between the commas that stand
    outside double quotes, a double quote opening or closing a quoted
    stretch. *)
Fixpoint cells_of (s : string) (quoted : bool) : list string :=
  match s with
  | EmptyString => [EmptyString]
  | String c rest =>
      if Ascii.eqb c dquote then extend c (cells_of rest (negb quoted))
      else if Ascii.eqb c "," && negb quoted then EmptyString :: cells_of rest false
      else extend c (cells_of rest quoted)
  end.

(** The cells of a row as a reader takes them: split, then unescaped. *)
Definition read_row (row : string) : list string := map unescapeCSV (cells_of row false).

(** A stretch in front of the first of a list of cells. *)
Definition extend_by (s : string) (cells : list string) : list string :=
  match cells with
  | h :: t => (s ++ h)%string :: t
  | [] => [s]
  end.

Lemma cells_of_not_nil (s : string) (quoted : bool) : cells_of s quoted <> [].
Proof.
  revert quoted. induction s as [|c s IH]; intros quoted; cbn [cells_of]; [discriminate|].
  destruct (Ascii.eqb c dquote).
  - specialize (IH (negb quoted)). destruct (cells_of s (negb quoted)); [contradiction|].
    discriminate.
  - destruct (Ascii.eqb c "," && negb quoted); [discriminate|].
    specialize (IH quoted). destruct (cells_of s quoted); [contradiction | discriminate].
Qed.

Lemma extend_extend_by (c : ascii) (s : string) (cells : list string) :
  cells <> [] -> extend c (extend_by s cells) = extend_by (String c s) cells.
Proof. destruct cells; [contradiction | reflexivity]. Qed.

(** A stretch without comma and without quote stays in its cell. *)
Lemma cells_of_plain (s tail : string) (quoted : bool) :
  includes_char s "," = false -> includes_char s dquote = false ->
  cells_of (s ++ tail) quoted = extend_by s (cells_of tail quoted).
Proof.
  induction s as [|c s IH]; cbn [includes_char String.append].
  - intros _ _. pose proof (cells_of_not_nil tail quoted).
    destruct (cells_of tail quoted); [contradiction | reflexivity].
  - destruct (Ascii.eqb c ",") eqn:Ec; [discriminate|].
    destruct (Ascii.eqb c dquote) eqn:Eq; [discriminate|]. intros H1 H2.
    cbn [cells_of]. rewrite Eq, Ec. cbn [andb]. rewrite (IH H1 H2).
    apply extend_extend_by, cells_of_not_nil.
Qed.

(** Inside quotes, a stretch with its quotes doubled stays in its cell,
    and the reader is inside quotes after it. *)
Lemma cells_of_doubled (s tail : string) :
  cells_of (double_quotes s ++ tail) true = extend_by (double_quotes s) (cells_of tail true).
Proof.
  induction s as [|c s IH]; cbn [double_quotes String.append].
  - pose proof (cells_of_not_nil tail true).
    destruct (cells_of tail true); [contradiction | reflexivity].
  - destruct (Ascii.eqb c dquote) eqn:Eq.
    + cbn [String.append cells_of]. rewrite !Ascii.eqb_refl. cbn [negb]. rewrite IH.
      rewrite !extend_extend_by by apply cells_of_not_nil. reflexivity.
    + cbn [String.append cells_of]. rewrite Eq. cbn [negb andb]. rewrite andb_false_r, IH.
      apply extend_extend_by, cells_of_not_nil.
Qed.

(** An escaped value stays in its cell, and the reader is outside quotes
    after it. *)
Lemma cells_of_escapeCSV (v : Value) (tail : string) :
  cells_of (escapeCSV v ++ tail) false = extend_by (escapeCSV v) (cells_of tail false).
Proof.
  destruct v as [| |s].
  - cbn. pose proof (cells_of_not_nil tail false).
    destruct (cells_of tail false); [contradiction | reflexivity].
  - cbn. pose proof (cells_of_not_nil tail false).
    destruct (cells_of tail false); [contradiction | reflexivity].
  - unfold escapeCSV. fold (needs_quotes s). destruct (needs_quotes s) eqn:E.
    + cbn [String.append cells_of]. rewrite Ascii.eqb_refl. cbn [negb].
      rewrite append_assoc, cells_of_doubled.
      cbn [String.append cells_of]. rewrite Ascii.eqb_refl. cbn [negb].
      pose proof (cells_of_not_nil tail false).
      destruct (cells_of tail false) as [|h t]; [contradiction|].
      cbn [extend extend_by String.append]. rewrite append_assoc. reflexivity.
    + unfold needs_quotes in E. apply orb_false_iff in E. destruct E as [E _].
      apply orb_false_iff in E. destruct E as [E1 E2]. now apply cells_of_plain.
Qed.

(** The cells of a row of escaped values are the escaped values. *)
Lemma cells_of_join (values : list Value) :
  values <> [] -> cells_of (join "," (map escapeCSV values)) false = map escapeCSV values.
Proof.
  unfold join. induction values as [|v values IH]; [contradiction|]. intros _.
  destruct values as [|w values].
  - cbn [map String.concat]. rewrite <- (append_empty (escapeCSV v)) at 1.
    rewrite cells_of_escapeCSV. cbn. now rewrite append_empty.
  - change (String.concat "," (map escapeCSV (v :: w :: values)))
      with (escapeCSV v ++ String "," (String.concat "," (map escapeCSV (w :: values))))%string.
    rewrite cells_of_escapeCSV. cbn [cells_of]. 
    change (Ascii.eqb "," dquote) with false. cbn [Ascii.eqb Bool.eqb andb negb].
    rewrite IH by discriminate. cbn [extend_by map]. now rewrite append_empty.
Qed.

Lemma read_row_join (values : list Value) :
  values <> [] -> read_row (join "," (map escapeCSV values)) = map text_of values.
Proof.
  intros H. unfold read_row. rewrite (cells_of_join values H), map_map.
  apply map_ext. apply unescapeCSV_escapeCSV.
Qed.

(** *** The rows of the export *)

(** The thirty values of the data row of a record, before escaping. *)
Definition cells (host : Host) (row : WeekendWeatherData) : list Value :=
  [ Str (zip_code row); described (city row); described (state row);
    Str (this_friday_date row); degrees host (this_friday_high row);
    described (this_friday_description row);
    Str (this_saturday_date row); degrees host (this_saturday_high row);
    described (this_saturday_description row);
    Str (this_sunday_date row); degrees host (this_sunday_high row);
    described (this_sunday_description row);
    Str (last_year_friday_date row); degrees host (last_year_friday_high row);
    described (last_year_friday_description row);
    Str (last_year_saturday_date row); degrees host (last_year_saturday_high row);
    described (last_year_saturday_description row);
    Str (last_year_sunday_date row); degrees host (last_year_sunday_high row);
    described (last_year_sunday_description row);
    Str (next_friday_date row); degrees host (next_friday_high row);
    described (next_friday_description row);
    Str (next_saturday_date row); degrees host (next_saturday_high row);
    described (next_saturday_description row);
    Str (next_sunday_date row); degrees host (next_sunday_high row);
    described (next_sunday_description row) ].

Lemma data_row_cells (host : Host) (row : WeekendWeatherData) :
  data_row host row = join "," (map escapeCSV (cells host row)).
Proof. reflexivity. Qed.

(** X12.  Every row of the export reads back as thirty cells, whatever
    commas, double quotes and line feeds the values hold: the header row
    as the thirty headers, the separator row as thirty empty cells, and
    the row of each record as its thirty values (an absent description as
    an empty cell), in the order of the records. *)
Theorem csvRows_read_back (host : Host) (weatherData : list WeekendWeatherData) :
  map read_row (csvRows host weatherData)
  = headers :: List.repeat EmptyString 30
    :: map (fun row => map text_of (cells host row)) weatherData
  /\ Forall (fun row => List.length (read_row row) = 30%nat) (csvRows host weatherData).
Proof.
  assert (map read_row (csvRows host weatherData)
          = headers :: List.repeat EmptyString 30
            :: map (fun row => map text_of (cells host row)) weatherData) as H.
  { assert (read_row (join "," (map (fun h => escapeCSV (Str h)) headers)) = headers) as H1.
    { change (map (fun h => escapeCSV (Str h)) headers)
        with (map escapeCSV (map Str headers)).
      rewrite read_row_join by discriminate. rewrite map_map. cbn [text_of].
      apply map_id. }
    assert (read_row (join "," (List.repeat EmptyString (List.length headers)))
            = List.repeat EmptyString 30) as H2.
    { change (List.repeat EmptyString (List.length headers))
        with (map escapeCSV (List.repeat Undefined 30)).
      rewrite read_row_join by discriminate. reflexivity. }
    assert (map read_row (map (data_row host) weatherData)
            = map (fun row => map text_of (cells host row)) weatherData) as H3.
    { rewrite map_map. apply map_ext. intros row.
      rewrite data_row_cells. apply read_row_join. discriminate. }
    unfold csvRows. cbn [map]. now rewrite H1, H2, H3. }
  split; [exact H|].
  apply Forall_forall. intros row Hrow.
  apply (in_map read_row) in Hrow. rewrite H in Hrow.
  destruct Hrow as [<- | [<- | Hrow]]; [reflexivity | reflexivity|].
  apply in_map_iff in Hrow. destruct Hrow as (r & <- & _). reflexivity.
Qed.

(** *** The export as a whole *)

(** X13.  [downloadCsv] does nothing at all when there is no record.
    With records it hands one file to the browser, named after the number
    of records and the first ten characters of the ISO rendering of the
    second reading of the clock, holding the byte order mark and the
    report dated by the local day of the first reading; it adds three
    lines to the log and changes nothing else: the records, the
    preview, the ZIP codes, the key, the mode, the error and the selector
    stay as they were. *)
Theorem downloadCsv_exports (host : Host) (p : Page) :
  let p1 := snd (downloadCsv host p) in
  let s := component p in
  let generated := clock host (clock_reads s) in
  let named := clock host (S (clock_reads s)) in
  let file :=
    {| download :=
         download_name (Z.of_nat (List.length (weatherData s)))
                       (JsDateFormat.slice_to 10 (JsDateFormat.toISOString named));
       type_ := "text/csv;charset=utf-8;";
       content :=
         (BOM ++ csvContent host (weatherData s) (testMode s)
                            (JsDateFormat.toLocaleDateString (LocalTZA host) generated))%string
    |} in
  (weatherData s = [] -> p1 = p)
  /\ (weatherData s <> [] ->
      downloads p1 = downloads p ++ [file]
      /\ settled (component p1) = settled s
      /\ List.length (logs (component p1)) = (List.length (logs s) + 3)%nat
      /\ firstn (List.length (logs s)) (logs (component p1)) = logs s
      /\ (selectedStates p1, showStateSelector p1, stateSearchTerm p1, isLoadingZips p1)
         = (selectedStates p, showStateSelector p, stateSearchTerm p, isLoadingZips p)
      /\ requests (component p1) = requests s).
Proof.
  cbv zeta. split.
  - intros H. unfold downloadCsv. rewrite H. reflexivity.
  - intros H. unfold downloadCsv.
    destruct (Z.eqb_spec (Z.of_nat (List.length (weatherData (component p)))) 0) as [E | _];
      [destruct (weatherData (component p)); [contradiction | discriminate E]|].
    do 5 (rewrite bindP_run; cbv beta zeta). rewrite !lift_run. cbn [fst snd].
    cbn. rewrite !length_app. cbn [List.length].
    repeat split; try reflexivity; try lia.
    rewrite <- !app_assoc. rewrite firstn_app, Nat.sub_diag, firstn_all. cbn [firstn].
    now rewrite app_nil_r.
Qed.

(** *** The reset *)

(** X14.  [clearAllData] empties the ZIP codes, the records, the preview,
    the progress and the error, hides the preview and leaves a log of one
    line; the key, the mode and the count of requests stay.  After it
    there is nothing to export, and a run ends at a guard: the one of the
    key in live mode without a key, else the one of the ZIP codes. *)
Theorem clearAllData_resets (host : Host) (p : Page) :
  let s := component p in
  let s1 := snd (clearAllData host s) in
  let p1 :=
    {| component := s1; selectedStates := selectedStates p;
       showStateSelector := showStateSelector p; stateSearchTerm := stateSearchTerm p;
       isLoadingZips := isLoadingZips p; downloads := downloads p |} in
  (zipCodes s1, weatherData s1, previewData s1, progress s1, error_ s1, showPreview s1)
  = (EmptyString, [], [], None, None, false)
  /\ logs s1
     = [log_line host s
          (Pictograph.wastebasket ++ " All data cleared - ready for new ZIP codes")%string]
  /\ (apiKey s1, testMode s1, isProcessing s1, requests s1)
     = (apiKey s, testMode s, isProcessing s, requests s)
  /\ snd (downloadCsv host p1) = p1
  /\ error_ (snd (startFetching host s1))
     = Some (if negb (testMode s) && JsString.is_empty (JsString.trim (apiKey s))
             then "Please enter your Visual Crossing API key or use Test Mode"
             else "Please enter at least one ZIP code")%string
  /\ requests (snd (startFetching host s1)) = requests s.
Proof.
  cbv zeta.
  assert (snd (clearAllData host (component p))
          = {| apiKey := apiKey (component p); zipCodes := EmptyString;
               isProcessing := isProcessing (component p); progress := None;
               logs := [log_line host (component p)
                          (Pictograph.wastebasket
                           ++ " All data cleared - ready for new ZIP codes")%string];
               weatherData := []; error_ := None; previewData := [];
               showPreview := false; testMode := testMode (component p);
               clock_reads := S (clock_reads (component p));
               entropy_reads := entropy_reads (component p);
               requests := requests (component p);
               awaits := awaits (component p) |}) as E by reflexivity.
  rewrite E. cbn [zipCodes weatherData previewData progress error_ showPreview logs apiKey
                  testMode isProcessing requests].
  split; [reflexivity|]. split; [reflexivity|]. split; [reflexivity|].
  split; [reflexivity|].
  unfold startFetching. cbn [testMode apiKey zipCodes].
  destruct (negb (testMode (component p))
            && JsString.is_empty (JsString.trim (apiKey (component p))));
    split; reflexivity.
Qed.

End ExportFacts.

(** ** The days of the weekends and the days sent to the provider *)

Module WeekendCalendarFacts.

Import JsDate JsDateFacts ZipRangesFacts ZipCountFacts Weekend WeekendDatesFacts
  WeekendSampleFacts.

(** *** The days of the week *)

Lemma getDay_local_day (tza : Z) (d : Date) : getDay tza d = (local_day tza d + 4) mod 7.
Proof. reflexivity. Qed.

Lemma getDay_addDays (tza : Z) (d : Date) (k : Z) :
  getDay tza (addDays d k) = (getDay tza d + k) mod 7.
Proof.
  rewrite !getDay_local_day, local_day_addDays.
  rewrite Zplus_mod_idemp_l. f_equal. lia.
Qed.

(** The offset of [getWeekendDates] leads to a Friday. *)
Lemma offset_reaches_friday (currentDay : Z) :
  0 <= currentDay < 7 ->
  0 <= offset_of_weekday currentDay <= 6
  /\ (currentDay + offset_of_weekday currentDay) mod 7 = 5.
Proof.
  intros H.
  assert (currentDay = 0 \/ currentDay = 1 \/ currentDay = 2 \/ currentDay = 3
          \/ currentDay = 4 \/ currentDay = 5 \/ currentDay = 6) as Hcases by lia.
  decompose [or] Hcases; subst; (split; [split; apply Z.leb_le; reflexivity | reflexivity]).
Qed.

(** This weekend and the next one fall on a Friday, a Saturday and a Sunday. *)
Definition on_weekend_days (tza : Z) (w : WeekendDates) : Prop :=
  getDay tza (thisFriday w) = 5 /\ getDay tza (thisSaturday w) = 6
  /\ getDay tza (thisSunday w) = 0
  /\ getDay tza (nextFriday w) = 5 /\ getDay tza (nextSaturday w) = 6
  /\ getDay tza (nextSunday w) = 0.

Lemma weekendDatesOf_friday (tza : Z) (today : Date) :
  let w := weekendDatesOf tza today in
  getDay tza (thisFriday w) = 5
  /\ local_day tza today <= local_day tza (thisFriday w) <= local_day tza today + 6.
Proof.
  cbv zeta.
  destruct (weekendDatesOf_this_and_next tza today) as (F & _).
  destruct (offset_reaches_friday _ (getDay_range tza today)) as [Hrange Hfriday].
  rewrite F, getDay_addDays, local_day_addDays. split; [exact Hfriday | lia].
Qed.

Lemma getWeekendDates_weekdays_aux (tza : Z) (today : Date) :
  let w := weekendDatesOf tza today in
  getDay tza (thisFriday w) = 5 /\ getDay tza (thisSaturday w) = 6
  /\ getDay tza (thisSunday w) = 0.
Proof.
  cbv zeta.
  destruct (weekendDatesOf_friday tza today) as [Hfri _]. cbv zeta in Hfri.
  destruct (weekendDatesOf_this_and_next tza today) as (_ & S & U & _).
  set (w := weekendDatesOf tza today) in *. clearbody w.
  split; [exact Hfri|].
  split; [rewrite S | rewrite U]; rewrite getDay_addDays, Hfri; reflexivity.
Qed.

(** X15.  In every time zone and on every date, [getWeekendDates] places
    this Friday on a Friday, today or within the six days that follow, this
    Saturday on a Saturday and this Sunday on a Sunday, and likewise the
    three days of the next weekend. *)
Theorem getWeekendDates_weekdays (tza : Z) (today : Date) :
  let w := weekendDatesOf tza today in
  on_weekend_days tza w
  /\ local_day tza today <= local_day tza (thisFriday w) <= local_day tza today + 6.
Proof.
  cbv zeta.
  destruct (weekendDatesOf_friday tza today) as [Hfri Hnear]. cbv zeta in Hfri, Hnear.
  destruct (weekendDatesOf_this_and_next tza today) as (_ & S & U & NF & NS & NU).
  set (w := weekendDatesOf tza today) in *. clearbody w.
  split; [|exact Hnear]. unfold on_weekend_days.
  assert (getDay tza (thisSaturday w) = 6) as Hsat
    by (rewrite S, getDay_addDays, Hfri; reflexivity).
  assert (getDay tza (thisSunday w) = 0) as Hsun
    by (rewrite U, getDay_addDays, Hfri; reflexivity).
  split; [exact Hfri|]. split; [exact Hsat|]. split; [exact Hsun|].
  split; [rewrite NF, getDay_addDays, Hfri; reflexivity|].
  split; [rewrite NS, getDay_addDays, Hsat; reflexivity|].
  rewrite NU, getDay_addDays, Hsun. reflexivity.
Qed.

(** *** A year back *)

(** The same month and day of the month a year before lie 365 or 366 days
    back, also where the day of the month runs past the end of the
    month. *)
Lemma DayFromCivil_year_before (y m d : Z) :
  DayFromCivil y m d - DayFromCivil (y - 1) m d = 365
  \/ DayFromCivil y m d - DayFromCivil (y - 1) m d = 366.
Proof.
  unfold DayFromCivil, doe_of_civil, daysPerEra, eraShift.
  destruct (m <=? 2); Z.to_euclidean_division_equations; lia.
Qed.

Lemma local_day_year_before (tza : Z) (d : Date) :
  let last := setFullYear tza d (getFullYear tza d - 1) in
  local_day tza d - local_day tza last = 365 \/ local_day tza d - local_day tza last = 366.
Proof.
  cbv zeta. rewrite local_day_setFullYear. unfold getFullYear, YearFromTime.
  fold (local_day tza d). set (day := local_day tza d).
  pose proof (civil_date_valid day) as [Hm _].
  pose proof (MakeDay_of_day day (DateFromDay day)) as Hday.
  unfold MakeDay in *. rewrite Z.div_small, Z.mod_small, !Z.add_0_r in * by lia.
  pose proof (DayFromCivil_year_before (YearFromDay day) (MonthFromDay day + 1) 1) as H.
  set (a := DayFromCivil (YearFromDay day) (MonthFromDay day + 1) 1) in *.
  set (b := DayFromCivil (YearFromDay day - 1) (MonthFromDay day + 1) 1) in *.
  lia.
Qed.

Lemma getDay_year_before (tza : Z) (d : Date) :
  let last := setFullYear tza d (getFullYear tza d - 1) in
  getDay tza last = (getDay tza d + 6) mod 7 \/ getDay tza last = (getDay tza d + 5) mod 7.
Proof.
  cbv zeta. pose proof (local_day_year_before tza d) as H. cbv zeta in H.
  rewrite !getDay_local_day.
  set (a := local_day tza d) in *.
  set (b := local_day tza (setFullYear tza d (getFullYear tza d - 1))) in *.
  destruct H as [H | H].
  - left. replace b with (a - 365) by lia. Z.to_euclidean_division_equations. lia.
  - right. replace b with (a - 366) by lia. Z.to_euclidean_division_equations. lia.
Qed.

(** X16.  The three dates of last year's weekend lie 365 or 366 days
    before their dates of this weekend, so none of them falls on the day
    of the week it is named after: last year's Friday is a Wednesday or a
    Thursday, last year's Saturday a Thursday or a Friday, last year's
    Sunday a Friday or a Saturday. *)
Theorem last_year_weekdays (tza : Z) (today : Date) :
  let w := weekendDatesOf tza today in
  (getDay tza (lastYearFriday w) = 3 \/ getDay tza (lastYearFriday w) = 4)
  /\ (getDay tza (lastYearSaturday w) = 4 \/ getDay tza (lastYearSaturday w) = 5)
  /\ (getDay tza (lastYearSunday w) = 5 \/ getDay tza (lastYearSunday w) = 6)
  /\ (local_day tza (thisFriday w) - local_day tza (lastYearFriday w) = 365
      \/ local_day tza (thisFriday w) - local_day tza (lastYearFriday w) = 366).
Proof.
  cbv zeta.
  destruct (getWeekendDates_weekdays_aux tza today) as (Hfri & Hsat & Hsun).
  destruct (weekendDatesOf_lastYear tza today) as (LF & LS & LU). cbv zeta in LF, LS, LU.
  set (w := weekendDatesOf tza today) in *. clearbody w.
  rewrite LF, LS, LU.
  pose proof (getDay_year_before tza (thisFriday w)) as H1.
  pose proof (getDay_year_before tza (thisSaturday w)) as H2.
  pose proof (getDay_year_before tza (thisSunday w)) as H3.
  cbv zeta in H1, H2, H3. rewrite Hfri in H1. rewrite Hsat in H2. rewrite Hsun in H3.
  change ((5 + 6) mod 7) with 4 in H1. change ((5 + 5) mod 7) with 3 in H1.
  change ((6 + 6) mod 7) with 5 in H2. change ((6 + 5) mod 7) with 4 in H2.
  change ((0 + 6) mod 7) with 6 in H3. change ((0 + 5) mod 7) with 5 in H3.
  split; [tauto|]. split; [tauto|]. split; [tauto|].
  apply local_day_year_before.
Qed.

(** The days between last year's Friday and last year's Sunday. *)
Definition last_year_span (tza : Z) (w : WeekendDates) : Z * Z :=
  (local_day tza (lastYearSaturday w) - local_day tza (lastYearFriday w),
   local_day tza (lastYearSunday w) - local_day tza (lastYearSaturday w)).

(** Noon of Friday the 28th of February 2025, of Friday the 27th of
    February 2026 and of Thursday the 29th of February 2024. *)
Definition friday_2025_02_28 : Date := MakeDate (DayFromCivil 2025 2 28) 43200000.
Definition friday_2026_02_27 : Date := MakeDate (DayFromCivil 2026 2 27) 43200000.

(** X17.  Last year's Saturday lies no day, one day or two days after
    last year's Friday, and last year's Sunday likewise after last year's
    Saturday: the three dates of the historical query need not be
    consecutive days.  On Friday the 28th of February 2025 they are the
    28th of February, the 1st and the 2nd of March 2024, with the 29th of
    February between them; on Friday the 28th of February 2020 last year's
    Saturday and Sunday are both the 1st of March 2019. *)
Theorem last_year_days_not_consecutive :
  (forall tza today,
      let w := weekendDatesOf tza today in
      0 <= fst (last_year_span tza w) <= 2 /\ 0 <= snd (last_year_span tza w) <= 2)
  /\ last_year_span 0 (weekendDatesOf 0 friday_2025_02_28) = (2, 1)
  /\ last_year_span 0 (weekendDatesOf 0 friday_2020_02_28) = (1, 0)
  /\ last_year_span 0 (weekendDatesOf 0 monday_2026_11_02) = (1, 1).
Proof.
  split; [|repeat split; vm_compute; reflexivity].
  intros tza today. cbv zeta.
  destruct (weekendDatesOf_this_and_next tza today) as (_ & S & U & _).
  destruct (weekendDatesOf_lastYear tza today) as (LF & LS & LU). cbv zeta in LF, LS, LU.
  set (w := weekendDatesOf tza today) in *. clearbody w.
  unfold last_year_span. cbn [fst snd]. rewrite LF, LS, LU.
  pose proof (local_day_year_before tza (thisFriday w)) as H1.
  pose proof (local_day_year_before tza (thisSaturday w)) as H2.
  pose proof (local_day_year_before tza (thisSunday w)) as H3.
  cbv zeta in H1, H2, H3.
  assert (local_day tza (thisSaturday w) = local_day tza (thisFriday w) + 1) as E1
    by (rewrite S; apply local_day_addDays).
  assert (local_day tza (thisSunday w) = local_day tza (thisFriday w) + 2) as E2
    by (rewrite U; apply local_day_addDays).
  lia.
Qed.

(** *** The dates of the queries *)

(** The civil date of a day tells the day. *)
Lemma civil_date_injective (day1 day2 : Z) :
  YearFromDay day1 = YearFromDay day2 -> MonthFromDay day1 = MonthFromDay day2 ->
  DateFromDay day1 = DateFromDay day2 -> day1 = day2.
Proof.
  intros Hy Hm Hd.
  pose proof (DayFromCivil_of_day day1 (DateFromDay day1)) as H1.
  pose proof (DayFromCivil_of_day day2 (DateFromDay day2)) as H2.
  rewrite Hy, Hm, Hd in H1. lia.
Qed.

(** West of Greenwich, at a local time of day in the last [- tza]
    milliseconds of the day, the day in UTC is the next one. *)
Lemma utc_day_after (tza : Z) (date : Date) :
  - msPerDay < tza < 0 -> msPerDay + tza <= TimeWithinDay (LocalTime tza date) ->
  Day date = local_day tza date + 1.
Proof.
  intros Htza Hlate. unfold local_day.
  pose proof (time_decomposition (LocalTime tza date)) as Hdec.
  pose proof (TimeWithinDay_range (LocalTime tza date)) as Hrange.
  set (ld := Day (LocalTime tza date)) in *.
  set (tw := TimeWithinDay (LocalTime tza date)) in *.
  unfold LocalTime, MakeDate in Hdec.
  unfold Day, msPerDay in *. symmetry.
  apply Z.div_unique with (r := tw - tza - 86400000); lia.
Qed.

(** X18.  [formatApiDate] writes the calendar day in UTC, while the page
    shows and computes its dates in local time.  West of Greenwich, for a
    date whose local time of day is near enough to midnight, the day sent
    to the provider is the day after the day shown: it is the day a
    reader on UTC would see one day later, and it differs from the local
    day in its year, its month or its day of the month. *)
Theorem formatApiDate_day_after_local (tza : Z) (date : Date) :
  - msPerDay < tza < 0 -> msPerDay + tza <= TimeWithinDay (LocalTime tza date) ->
  formatApiDate date = formatApiDate (addDays (LocalTime tza date) 1)
  /\ (YearFromTime date, MonthFromTime date, DateFromTime date)
     <> (getFullYear tza date, getMonth tza date, getDate tza date).
Proof.
  intros Htza Hlate. pose proof (utc_day_after tza date Htza Hlate) as Hday.
  split.
  - unfold formatApiDate, YearFromTime, MonthFromTime, DateFromTime.
    rewrite (proj1 (Day_addDays (LocalTime tza date) 1)). fold (local_day tza date).
    now rewrite Hday.
  - unfold getFullYear, getMonth, getDate, YearFromTime, MonthFromTime, DateFromTime.
    fold (local_day tza date). intros [= Hy Hm Hd].
    pose proof (civil_date_injective _ _ Hy Hm Hd). lia.
Qed.

(** Eight in the evening of Friday the 6th of November 2026 in New York,
    five hours behind UTC. *)
Definition new_york : Z := - 18000000.
Definition friday_evening : Date := MakeDate (DayFromCivil 2026 11 7) 3600000.

Lemma formatApiDate_day_after_local_witness :
  formatShortDate new_york friday_evening = "Nov 6, 2026"%string
  /\ formatApiDate friday_evening = "2026-11-07"%string
  /\ formatApiDate friday_evening = formatApiDate (addDays (LocalTime new_york friday_evening) 1).
Proof.
  split; [reflexivity|]. split; [reflexivity|].
  refine (proj1 (formatApiDate_day_after_local new_york friday_evening _ _)).
  - unfold msPerDay, new_york. lia.
  - vm_compute. discriminate.
Defined.

(** *** The shape of a day of a query *)

(** The pattern of four digits, a hyphen, two digits, a hyphen and two
    digits. *)
Definition is_iso_day (s : string) : bool :=
  match list_ascii_of_string s with
  | [y1; y2; y3; y4; h1; m1; m2; h2; d1; d2] =>
      forallb JsString.is_digit [y1; y2; y3; y4; m1; m2; d1; d2]
      && Ascii.eqb h1 "-" && Ascii.eqb h2 "-"
  | _ => false
  end.

Lemma iso_day_shape (year month day : string) :
  String.length year = 4%nat -> all_digits year = true ->
  String.length month = 2%nat -> all_digits month = true ->
  String.length day = 2%nat -> all_digits day = true ->
  is_iso_day (year ++ "-" ++ month ++ "-" ++ day)%string = true.
Proof.
  intros Ly Dy Lm Dm Ld Dd.
  destruct year as [|y1 [|y2 [|y3 [|y4 [|]]]]]; try discriminate Ly.
  destruct month as [|m1 [|m2 [|]]]; try discriminate Lm.
  destruct day as [|d1 [|d2 [|]]]; try discriminate Ld.
  unfold all_digits in *. cbn in *.
  repeat match goal with H : _ && _ = true |- _ => apply andb_true_iff in H; destruct H end.
  repeat match goal with H : JsString.is_digit _ = true |- _ => rewrite H; clear H end.
  reflexivity.
Qed.

Lemma substring_prefix (s rest : string) :
  String.substring 0 (String.length s) (s ++ rest)%string = s.
Proof.
  induction s as [|c s IH]; cbn [String.length String.append String.substring].
  - destruct rest; reflexivity.
  - now rewrite IH.
Qed.

(** The parts of the civil date of a time in a year of four digits. *)
Lemma civil_date_parts (t : Z) :
  0 <= YearFromTime t <= 9999 ->
  let year := isoYear (YearFromTime t) in
  let month := pad2 (MonthFromTime t + 1) in
  let day := pad2 (DateFromTime t) in
  (String.length year = 4%nat /\ all_digits year = true)
  /\ (String.length month = 2%nat /\ all_digits month = true)
  /\ (String.length day = 2%nat /\ all_digits day = true).
Proof.
  intros Hy. cbv zeta.
  pose proof (civil_date_valid (Day t)) as [Hm Hd].
  rewrite days_in_month_length in Hd.
  pose proof (month_length_bound (MonthFromDay (Day t) + 1)
                                 (is_leap (YearFromDay (Day t)))) as [Hb1 Hb2].
  split; [|split].
  - unfold isoYear. destruct (Z.leb_spec 0 (YearFromTime t)); [|lia].
    destruct (Z.leb_spec (YearFromTime t) 9999); [|lia]. cbn [andb].
    apply (padStart_width 3). change (10 ^ Z.of_nat 4) with 10000. lia.
  - apply (padStart_width 1). change (10 ^ Z.of_nat 2) with 100.
    unfold MonthFromTime. lia.
  - apply (padStart_width 1). change (10 ^ Z.of_nat 2) with 100.
    unfold DateFromTime. lia.
Qed.

(** X19.  For a date in a year from 0 to 9999, the day [formatApiDate]
    puts in a query has the shape of four digits, a hyphen, two digits, a
    hyphen and two digits, and it is the text the export takes for the
    name of its file, the first ten characters of [toISOString]. *)
Theorem formatApiDate_shape (date : Date) :
  0 <= YearFromTime date <= 9999 ->
  is_iso_day (formatApiDate date) = true
  /\ JsDateFormat.slice_to 10 (JsDateFormat.toISOString date) = formatApiDate date.
Proof.
  intros Hy.
  destruct (civil_date_parts date Hy) as ((Ly & Dy) & (Lm & Dm) & (Ld & Dd)).
  assert (is_iso_day (formatApiDate date) = true) as Hshape
    by (unfold formatApiDate; now apply iso_day_shape).
  split; [exact Hshape|].
  assert (String.length (formatApiDate date) = 10%nat) as Hlen.
  { unfold formatApiDate. rewrite !length_append, Ly, Lm, Ld. reflexivity. }
  unfold JsDateFormat.slice_to, JsDateFormat.toISOString.
  rewrite <- Hlen at 1.
  match goal with |- String.substring 0 _ ?s = _ =>
    replace s with (formatApiDate date ++ "T" ++ pad2 (JsDateFormat.HourFromTime date) ++ ":"
                    ++ pad2 (JsDateFormat.MinFromTime date) ++ ":"
                    ++ pad2 (JsDateFormat.SecFromTime date) ++ "."
                    ++ JsDateFormat.pad3 (JsDateFormat.msFromTime date) ++ "Z")%string
  end.
  - apply substring_prefix.
  - unfold formatApiDate. now rewrite !append_assoc.
Qed.

Lemma formatApiDate_shape_witness :
  is_iso_day (formatApiDate monday_2026_11_02) = true
  /\ JsDateFormat.slice_to 10 (JsDateFormat.toISOString monday_2026_11_02)
     = formatApiDate monday_2026_11_02.
Proof.
  apply formatApiDate_shape. vm_compute. split; discriminate.
Defined.

End WeekendCalendarFacts.

(** ** The standard variant: what is validated and what is posted *)

Module StandardValidationFacts.

Import JsString JsStringFacts JsStringSplitFacts ZipRanges ZipRangesFacts ZipCountFacts
  Standard StandardFacts.

(** *** The first five digits *)

Lemma split_char_head_digit (c : ascii) (s : string) :
  is_digit c = true ->
  hd EmptyString (split_char "-" (String c s))
  = String c (hd EmptyString (split_char "-" s)).
Proof.
  intros H. cbn [split_char].
  destruct (Ascii.eqb_spec c "-") as [-> | _]; [discriminate H|].
  destruct (split_char "-" s); reflexivity.
Qed.

(** What [split("-")[0]] keeps of a string that matches the pattern: its
    five digits. *)
Lemma valid_zip_head (s : string) :
  ZIP_CODE_REGEX_test s = true ->
  matches_five_digits (hd EmptyString (split_char "-" s)) = true.
Proof.
  unfold ZIP_CODE_REGEX_test.
  destruct s as [|d1 [|d2 [|d3 [|d4 [|d5 rest]]]]]; try discriminate.
  cbn [list_ascii_of_string].
  assert (forall tail,
             forallb is_digit [d1; d2; d3; d4; d5] = true ->
             hd EmptyString (split_char "-" tail) = EmptyString ->
             matches_five_digits
               (hd EmptyString
                   (split_char "-" (String d1 (String d2 (String d3 (String d4
                                      (String d5 tail))))))) = true) as Hfive.
  { intros tail Hd Htail. cbn [forallb] in Hd.
    repeat match goal with H : _ && _ = true |- _ => apply andb_true_iff in H; destruct H end.
    rewrite !split_char_head_digit, Htail by assumption.
    unfold matches_five_digits. cbn [String.length Nat.eqb list_ascii_of_string forallb].
    repeat match goal with H : is_digit _ = true |- _ => rewrite H; clear H end.
    reflexivity. }
  destruct rest as [|h [|e1 [|e2 [|e3 [|e4 [|]]]]]]; try discriminate;
    cbn [list_ascii_of_string].
  - intros H. apply Hfive; [exact H | reflexivity].
  - intros H. apply andb_true_iff in H. destruct H as [H _].
    apply andb_true_iff in H. destruct H as [H Hh].
    apply Ascii.eqb_eq in Hh. subst h. apply Hfive; [exact H | reflexivity].
Qed.

(** A string of five digits matches the pattern and is all of its first
    piece. *)
Lemma five_digits_valid (z : string) :
  matches_five_digits z = true ->
  trim z = z /\ is_empty z = false /\ ZIP_CODE_REGEX_test z = true
  /\ hd EmptyString (split_char "-" z) = z.
Proof.
  unfold matches_five_digits. intros H. apply andb_true_iff in H. destruct H as [Hlen Hd].
  apply Nat.eqb_eq in Hlen.
  destruct z as [|d1 [|d2 [|d3 [|d4 [|d5 [|]]]]]]; try discriminate Hlen.
  assert (all_digits (String d1 (String d2 (String d3 (String d4 (String d5 ""))))) = true)
    as Hall by exact Hd.
  cbn [list_ascii_of_string forallb] in Hd.
  split; [|split; [reflexivity|split]].
  - apply trim_no_space. exact (proj1 (digits_no_space _ Hall)).
  - unfold ZIP_CODE_REGEX_test. exact Hd.
  - repeat match goal with H : _ && _ = true |- _ => apply andb_true_iff in H; destruct H end.
    now rewrite !split_char_head_digit by assumption.
Qed.

(** *** What the validation keeps *)

(** The two lists as [validateAndCleanZipCodes] keeps them: the valid
    ZIP codes are strings of five digits, each once; the invalid ones are
    trimmed, not empty, and fail the pattern. *)
Definition clean (v : Validation) : Prop :=
  NoDup (valid v)
  /\ Forall (fun z => matches_five_digits z = true) (valid v)
  /\ Forall (fun z => trim z = z /\ is_empty z = false /\ ZIP_CODE_REGEX_test z = false)
            (invalid v).

Lemma includes_In (l : list string) (x : string) : includes l x = true <-> In x l.
Proof.
  unfold includes. rewrite existsb_exists. split.
  - intros (y & Hy & E). apply String.eqb_eq in E. now subst.
  - intros H. exists x. split; [exact H | apply String.eqb_refl].
Qed.

Lemma validate_one_clean (acc : Validation) (zip : string) :
  clean acc -> clean (validate_one acc zip).
Proof.
  intros (Hnd & Hv & Hi). unfold validate_one, isValidZipCode.
  rewrite trim_idempotent. set (cleanZip := trim zip).
  destruct (is_empty cleanZip) eqn:He; cbn [negb andb]; [now repeat split|].
  destruct (ZIP_CODE_REGEX_test cleanZip) eqn:Ht.
  - destruct (includes (valid acc) (hd EmptyString (split_char "-" cleanZip))) eqn:Hin;
      cbn [negb]; [now repeat split|].
    split; [|split; [|exact Hi]]; cbn [valid].
    + apply NoDup_app; [exact Hnd | repeat constructor; simpl; tauto|].
      intros x Hx [<- | []]. apply includes_In in Hx. congruence.
    + apply Forall_app. split; [exact Hv|]. repeat constructor. now apply valid_zip_head.
  - split; [exact Hnd|]. split; [exact Hv|]. cbn [invalid].
    apply Forall_app. split; [exact Hi|]. repeat constructor; [|exact He | exact Ht].
    apply trim_idempotent.
Qed.

Lemma fold_validate_clean (l : list string) :
  forall acc, clean acc -> clean (fold_left validate_one l acc).
Proof.
  induction l as [|zip l IH]; intros acc H; [exact H|].
  cbn [fold_left]. apply IH, validate_one_clean, H.
Qed.

Lemma validate_one_lengths (acc : Validation) (zip : string) :
  (List.length (valid (validate_one acc zip)) + List.length (invalid (validate_one acc zip))
   <= S (List.length (valid acc) + List.length (invalid acc)))%nat
  /\ (List.length (valid acc) <= List.length (valid (validate_one acc zip)))%nat
  /\ (List.length (invalid acc) <= List.length (invalid (validate_one acc zip)))%nat.
Proof.
  unfold validate_one.
  destruct (negb (is_empty (trim zip)) && isValidZipCode (trim zip)).
  - destruct (negb (includes (valid acc) _)); cbn [valid invalid];
      rewrite ?length_app; cbn [List.length]; lia.
  - destruct (negb (is_empty (trim zip))); cbn [valid invalid];
      rewrite ?length_app; cbn [List.length]; lia.
Qed.

Lemma fold_validate_lengths (l : list string) :
  forall acc,
    let v := fold_left validate_one l acc in
    (List.length (valid v) + List.length (invalid v)
     <= List.length l + (List.length (valid acc) + List.length (invalid acc)))%nat
    /\ (List.length (valid acc) <= List.length (valid v))%nat
    /\ (List.length (invalid acc) <= List.length (invalid v))%nat.
Proof.
  induction l as [|zip l IH]; intros acc; cbv zeta; cbn [fold_left List.length]; [lia|].
  specialize (IH (validate_one acc zip)). cbv zeta in IH.
  pose proof (validate_one_lengths acc zip). lia.
Qed.

Lemma validateAndCleanZipCodes_aux (zipCodes : list string) :
  NoDup (valid (validateAndCleanZipCodes zipCodes))
  /\ Forall (fun z => matches_five_digits z = true) (valid (validateAndCleanZipCodes zipCodes)).
Proof.
  destruct (fold_validate_clean zipCodes {| valid := []; invalid := [] |})
    as (H1 & H2 & _); [repeat split; constructor|]. now split.
Qed.

(** X20.  Whatever strings [validateAndCleanZipCodes] is given, the
    valid ZIP codes it returns are strings of exactly five digits (the
    four-digit extension is cut off), each of them once, and the invalid
    ones are trimmed, not empty, and fail the pattern; together they are
    no more than the strings given. *)
Theorem validateAndCleanZipCodes_clean (zipCodes : list string) :
  let v := validateAndCleanZipCodes zipCodes in
  NoDup (valid v)
  /\ Forall (fun z => matches_five_digits z = true) (valid v)
  /\ Forall (fun z => trim z = z /\ is_empty z = false /\ ZIP_CODE_REGEX_test z = false)
            (invalid v)
  /\ (List.length (valid v) + List.length (invalid v) <= List.length zipCodes)%nat.
Proof.
  cbv zeta. unfold validateAndCleanZipCodes.
  destruct (fold_validate_clean zipCodes {| valid := []; invalid := [] |})
    as (H1 & H2 & H3); [repeat split; constructor|].
  pose proof (fold_validate_lengths zipCodes {| valid := []; invalid := [] |}) as H4.
  cbv zeta in H4. cbn [valid invalid List.length] in H4.
  repeat split; try assumption. lia.
Qed.

(** *** Validating again *)

Lemma validate_one_fresh (acc : Validation) (z : string) :
  matches_five_digits z = true -> ~ In z (valid acc) ->
  validate_one acc z = {| valid := valid acc ++ [z]; invalid := invalid acc |}.
Proof.
  intros Hz Hnew. destruct (five_digits_valid z Hz) as (Htrim & Hne & Htest & Hhead).
  unfold validate_one, isValidZipCode. rewrite !Htrim, Hne, Htest, Hhead. cbn [negb andb].
  destruct (includes (valid acc) z) eqn:E; [apply includes_In in E; contradiction|].
  reflexivity.
Qed.

Lemma fold_validate_fresh (l : list string) :
  forall acc,
    Forall (fun z => matches_five_digits z = true) l -> NoDup l ->
    (forall z, In z l -> ~ In z (valid acc)) ->
    fold_left validate_one l acc = {| valid := valid acc ++ l; invalid := invalid acc |}.
Proof.
  induction l as [|z l IH]; intros acc Hl Hnd Hnew; cbn [fold_left].
  - rewrite app_nil_r. now destruct acc.
  - inversion Hl as [|? ? Hz Hl']; subst. inversion Hnd as [|? ? Hzl Hnd']; subst.
    rewrite (validate_one_fresh acc z Hz (Hnew z (or_introl eq_refl))).
    rewrite IH; [|exact Hl' | exact Hnd'|].
    + cbn [valid invalid]. now rewrite <- app_assoc.
    + cbn [valid]. intros x Hx Hin. apply in_app_or in Hin.
      destruct Hin as [Hin | [<- | []]]; [|contradiction].
      apply (Hnew x); [now right | exact Hin].
Qed.

(** X21.  Validating the valid ZIP codes of a validation again gives
    them back, in the same order, with nothing invalid: what
    [validateAndCleanZipCodes] returns as valid is a fixed point of it. *)
Theorem validateAndCleanZipCodes_idempotent (zipCodes : list string) :
  validateAndCleanZipCodes (valid (validateAndCleanZipCodes zipCodes))
  = {| valid := valid (validateAndCleanZipCodes zipCodes); invalid := [] |}.
Proof.
  destruct (fold_validate_clean zipCodes {| valid := []; invalid := [] |})
    as (Hnd & Hfive & _); [repeat split; constructor|].
  fold (validateAndCleanZipCodes zipCodes) in Hnd, Hfive.
  unfold validateAndCleanZipCodes at 1.
  rewrite fold_validate_fresh; [reflexivity | exact Hfive | exact Hnd | intros z _ []].
Qed.

(** *** What is posted *)

(** X22.  [handleSubmit] posts one request at most, and only for a form
    with a key, in which every token of the ZIP codes matches the pattern.
    The request carries the trimmed key and the valid ZIP codes: at least
    one, each a string of five digits, none twice; their number is the
    total the page will count to. *)
Theorem handleSubmit_posts_clean_request (s : State) :
  let s' := handleSubmit s in
  posted s' = posted s
  \/ exists request,
       posted s' = posted s ++ [request]
       /\ api_key request = trim (apiKey s)
       /\ is_empty (api_key request) = false
       /\ zip_codes request = valid (validateZipCodes (zipCodes s))
       /\ invalid (validateZipCodes (zipCodes s)) = []
       /\ zip_codes request <> []
       /\ NoDup (zip_codes request)
       /\ Forall (fun z => matches_five_digits z = true) (zip_codes request)
       /\ totalZips s' = Z.of_nat (List.length (zip_codes request))
       /\ isLoading s' = true
       /\ validationErrors s' = [].
Proof.
  cbv zeta. unfold handleSubmit.
  destruct (is_empty (trim (apiKey s))) eqn:Hkey; [now left|].
  destruct (is_empty (trim (zipCodes s))) eqn:Hzips; [now left|].
  destruct (invalid (validateZipCodes (zipCodes s))) as [|bad rest] eqn:Hinv;
    [|now left].
  cbn [List.length Nat.ltb Nat.leb].
  destruct (valid (validateZipCodes (zipCodes s))) as [|z zs] eqn:Hval; [now left|].
  cbn [List.length Nat.eqb]. right. eexists. cbn [posted].
  split; [reflexivity|]. cbn [api_key zip_codes totalZips isLoading validationErrors].
  destruct (validateAndCleanZipCodes_aux (tokens (zipCodes s))) as (Hnd & Hfive).
  fold (validateZipCodes (zipCodes s)) in Hnd, Hfive. rewrite Hval in Hnd, Hfive.
  repeat split; try assumption; try reflexivity. discriminate.
Qed.

(** *** A text of separators *)

Lemma tokens_all_separators (zipString : string) :
  forallb is_separator (list_ascii_of_string zipString) = true -> tokens zipString = [].
Proof.
  intros Hsep. unfold tokens.
  pose proof (split_runs_all_separators is_separator zipString Hsep false) as Hpieces.
  induction Hpieces as [|piece pieces -> _ IH]; [reflexivity | exact IH].
Qed.

Lemma split_runs_empty_pieces (sep : ascii -> bool) (s : string) :
  forall in_run,
    Forall (fun piece => piece = EmptyString) (split_runs sep in_run s) ->
    forallb sep (list_ascii_of_string s) = true.
Proof.
  induction s as [|c s IH]; intros in_run H; [reflexivity|].
  cbn [split_runs list_ascii_of_string forallb] in *.
  destruct (sep c) eqn:E.
  - destruct in_run; [exact (IH true H)|].
    inversion H; subst. now apply (IH true).
  - destruct (split_runs sep false s); inversion H; discriminate.
Qed.

Lemma no_tokens_all_separators (zipString : string) :
  tokens zipString = [] -> forallb is_separator (list_ascii_of_string zipString) = true.
Proof.
  intros H. apply (split_runs_empty_pieces is_separator zipString false).
  pose proof (split_runs_no_separator is_separator zipString false) as Hpieces.
  unfold tokens in H.
  induction Hpieces as [|piece pieces Hpiece _ IH]; [constructor|].
  cbn [map filter] in H.
  assert (trim piece = piece) as Htrim.
  { apply trim_no_space. rewrite forallb_forall in *. intros c Hc.
    specialize (Hpiece c Hc). destruct (is_space c) eqn:E; [|reflexivity].
    now rewrite (is_space_separator c E) in Hpiece. }
  rewrite Htrim in H. destruct piece as [|c rest]; [|discriminate H].
  constructor; [reflexivity | now apply IH].
Qed.

(** A first token makes one of the two lists non-empty. *)
Lemma tokens_classified (zipString : string) :
  tokens zipString <> [] ->
  valid (validateZipCodes zipString) <> [] \/ invalid (validateZipCodes zipString) <> [].
Proof.
  unfold validateZipCodes, validateAndCleanZipCodes. intros H.
  destruct (tokens zipString) as [|token rest] eqn:E; [contradiction|].
  destruct (tokens_trimmed zipString token) as [Htrim Hne]; [rewrite E; now left|].
  cbn [fold_left].
  pose proof (fold_validate_lengths rest (validate_one {| valid := []; invalid := [] |} token))
    as (_ & Hv & Hi). cbv zeta in Hv, Hi.
  assert (valid (validate_one {| valid := []; invalid := [] |} token) <> []
          \/ invalid (validate_one {| valid := []; invalid := [] |} token) <> []) as Hone.
  { unfold validate_one. rewrite Htrim, Hne. cbn [negb andb valid includes existsb].
    destruct (isValidZipCode token); [left | right]; discriminate. }
  destruct Hone as [Hone | Hone]; [left | right]; intros Hnil; rewrite Hnil in *;
    cbn [List.length] in *;
    match goal with H : ?l <> [] |- _ => destruct l; [contradiction | cbn in *; lia] end.
Qed.

(** X23.  With a key entered, [handleSubmit] reports that no valid ZIP
    code was found exactly for a text that is not blank and holds nothing
    but separators, that is, commas among white space. *)
Theorem handleSubmit_no_valid_zip (s : State) :
  is_empty (trim (apiKey s)) = false ->
  (validationErrors (handleSubmit s) = ["No valid ZIP codes found"%string]
   <-> is_empty (trim (zipCodes s)) = false
       /\ forallb is_separator (list_ascii_of_string (zipCodes s)) = true).
Proof.
  intros Hkey. unfold handleSubmit. rewrite Hkey.
  destruct (is_empty (trim (zipCodes s))) eqn:Hzips.
  - split; [discriminate | intros [H _]; discriminate H].
  - destruct (tokens (zipCodes s)) as [|token rest] eqn:Htok.
    + pose proof (no_tokens_all_separators _ Htok) as Hsep.
      unfold validateZipCodes. rewrite Htok. cbn. tauto.
    + destruct (tokens_classified (zipCodes s)) as [Hv | Hi]; [now rewrite Htok| |].
      * assert (forallb is_separator (list_ascii_of_string (zipCodes s)) = false) as Hsep.
        { destruct (forallb is_separator _) eqn:E; [|reflexivity].
          now rewrite (tokens_all_separators _ E) in Htok. }
        rewrite Hsep.
        destruct (invalid (validateZipCodes (zipCodes s))); cbn [List.length Nat.ltb Nat.leb].
        -- destruct (valid (validateZipCodes (zipCodes s))); [contradiction|].
           cbn. split; [discriminate | intros [_ H]; discriminate H].
        -- cbn. split; [discriminate | intros [_ H]; discriminate H].
      * assert (forallb is_separator (list_ascii_of_string (zipCodes s)) = false) as Hsep.
        { destruct (forallb is_separator _) eqn:E; [|reflexivity].
          now rewrite (tokens_all_separators _ E) in Htok. }
        rewrite Hsep.
        destruct (invalid (validateZipCodes (zipCodes s))); [contradiction|].
        cbn. split; [discriminate | intros [_ H]; discriminate H].
Qed.

(** Two commas and a blank. *)
Lemma handleSubmit_no_valid_zip_witness :
  validationErrors (handleSubmit (submission "key" ", ,"))
  = ["No valid ZIP codes found"%string].
Proof.
  apply (proj2 (handleSubmit_no_valid_zip (submission "key" ", ,") eq_refl)).
  split; reflexivity.
Defined.

End StandardValidationFacts.

(** ** The standard variant: the upload and the wind rose *)

Module StandardDisplayFacts.

Import JsString JsStringFacts JsStringSplitFacts JsNumber ZipRangesFacts Standard
  StandardFacts StandardValidationFacts StandardDisplay.

(** *** The upload of a file *)

(** The first cell of a line, trimmed. *)
Definition first_cell (line : string) : string :=
  trim (hd EmptyString (split_char "," line)).

Definition keeps_cell (zip : string) : bool :=
  negb (is_empty zip) && negb (String.eqb zip "zip_code").

Lemma zipCodesFromFile_eq (text : string) :
  zipCodesFromFile text = filter keeps_cell (map first_cell (split_char newline text)).
Proof. reflexivity. Qed.

Lemma hd_split_char_no_separator (sep : ascii) (s : string) :
  includes_char (hd EmptyString (split_char sep s)) sep = false.
Proof.
  induction s as [|c s IH]; [reflexivity|]. cbn [split_char].
  destruct (Ascii.eqb c sep) eqn:E; [reflexivity|].
  destruct (split_char sep s) as [|h t]; cbn [hd includes_char] in *; now rewrite E.
Qed.

Lemma trimStart_keeps_out (s : string) (c : ascii) :
  includes_char s c = false -> includes_char (trimStart s) c = false.
Proof.
  induction s as [|d s IH]; [reflexivity|]. cbn [includes_char trimStart].
  destruct (Ascii.eqb d c) eqn:E; [discriminate|]. intros H.
  destruct (is_space d); [now apply IH | cbn [includes_char]; now rewrite E].
Qed.

Lemma trimEnd_keeps_out (s : string) (c : ascii) :
  includes_char s c = false -> includes_char (trimEnd s) c = false.
Proof.
  induction s as [|d s IH]; [reflexivity|]. cbn [includes_char]. rewrite trimEnd_cons.
  destruct (Ascii.eqb d c) eqn:E; [discriminate|]. intros H. specialize (IH H).
  destruct (trimEnd s).
  - destruct (is_space d); [reflexivity | cbn [includes_char]; now rewrite E].
  - cbn [includes_char] in *. now rewrite E.
Qed.

Lemma split_char_pieces_no_separator (sep : ascii) (s : string) :
  Forall (fun piece => includes_char piece sep = false) (split_char sep s).
Proof.
  induction s as [|c s IH]; [repeat constructor|]. cbn [split_char].
  destruct (Ascii.eqb c sep) eqn:E; [constructor; [reflexivity | exact IH]|].
  destruct (split_char sep s) as [|h t].
  - repeat constructor. cbn [includes_char]. now rewrite E.
  - inversion IH; subst. constructor; [|assumption]. cbn [includes_char]. now rewrite E.
Qed.

(** A cell of a piece of a line holds no character the line does not
    hold. *)
Lemma hd_split_char_keeps_out (sep c : ascii) (s : string) :
  includes_char s c = false -> includes_char (hd EmptyString (split_char sep s)) c = false.
Proof.
  induction s as [|d s IH]; [reflexivity|]. cbn [includes_char split_char].
  destruct (Ascii.eqb d c) eqn:E; [discriminate|]. intros H. specialize (IH H).
  destruct (Ascii.eqb d sep); [reflexivity|].
  destruct (split_char sep s) as [|h t]; cbn [hd includes_char] in *; now rewrite E.
Qed.

(** X24.  [handleFileUpload] ignores a file whose media type is not
    [text/csv], and no file at all.  From a CSV file it puts in the field
    of the ZIP codes, one on a line, the first cells of the lines of the
    file: each trimmed, none empty, none the header [zip_code], none with
    a comma or a line feed in it, in the order of the file; nothing else
    on the page changes. *)
Theorem handleFileUpload_first_cells (file : File) (s : State) :
  (handleFileUpload None s = s)
  /\ (type_ file <> "text/csv"%string -> handleFileUpload (Some file) s = s)
  /\ (type_ file = "text/csv"%string ->
      handleFileUpload (Some file) s
      = setZipCodes (join (String newline EmptyString) (zipCodesFromFile (text file))) s)
  /\ Forall (fun zip => trim zip = zip /\ is_empty zip = false /\ zip <> "zip_code"%string
                        /\ includes_char zip "," = false
                        /\ includes_char zip newline = false)
            (zipCodesFromFile (text file)).
Proof.
  split; [reflexivity|]. split; [|split].
  - intros H. unfold handleFileUpload.
    destruct (String.eqb_spec (type_ file) "text/csv"); [contradiction | reflexivity].
  - intros H. unfold handleFileUpload. now rewrite H.
  - rewrite zipCodesFromFile_eq. apply Forall_forall. intros zip Hzip.
    apply filter_In in Hzip. destruct Hzip as [Hin Hkeep].
    apply in_map_iff in Hin. destruct Hin as (line & <- & Hline).
    unfold keeps_cell in Hkeep. apply andb_true_iff in Hkeep. destruct Hkeep as [H1 H2].
    apply negb_true_iff in H1, H2. apply String.eqb_neq in H2.
    pose proof (split_char_pieces_no_separator newline (text file)) as Hpieces.
    rewrite Forall_forall in Hpieces. specialize (Hpieces _ Hline).
    unfold first_cell in *. split; [apply trim_idempotent|]. split; [exact H1|].
    split; [exact H2|]. unfold trim. split.
    + apply trimEnd_keeps_out, trimStart_keeps_out, hd_split_char_no_separator.
    + apply trimEnd_keeps_out, trimStart_keeps_out, hd_split_char_keeps_out, Hpieces.
Qed.

(** *** Lines that end in a carriage return *)

Definition carriage_return : ascii := "013"%char.

(** The text with a carriage return put before each line feed, as a file
    written with the line ends of Windows has them. *)
Fixpoint crlf (text : string) : string :=
  match text with
  | EmptyString => EmptyString
  | String c rest =>
      if Ascii.eqb c newline
      then String carriage_return (String newline (crlf rest))
      else String c (crlf rest)
  end.

(** A carriage return at the end of each piece but the last. *)
Fixpoint add_returns (pieces : list string) : list string :=
  match pieces with
  | [] => []
  | [piece] => [piece]
  | piece :: rest => (piece ++ String carriage_return EmptyString)%string :: add_returns rest
  end.

Lemma split_char_crlf (text : string) :
  split_char newline (crlf text) = add_returns (split_char newline text).
Proof.
  induction text as [|c text IH]; [reflexivity|]. cbn [crlf split_char].
  pose proof (split_char_not_nil newline text) as Hne.
  destruct (Ascii.eqb c newline) eqn:E.
  - cbn [split_char]. change (Ascii.eqb carriage_return newline) with false.
    rewrite Ascii.eqb_refl, IH. cbv iota.
    destruct (split_char newline text) as [|p ps]; [contradiction | reflexivity].
  - cbn [split_char]. rewrite E, IH.
    destruct (split_char newline text) as [|p [|q ps]]; [contradiction | reflexivity|].
    reflexivity.
Qed.

Lemma trimEnd_append_space (s : string) (c : ascii) :
  is_space c = true -> trimEnd (s ++ String c EmptyString) = trimEnd s.
Proof.
  intros Hc. induction s as [|d s IH]; cbn [String.append].
  - cbn [trimEnd]. now rewrite Hc.
  - now rewrite !trimEnd_cons, IH.
Qed.

Lemma trim_append_space (s : string) (c : ascii) :
  is_space c = true -> trim (s ++ String c EmptyString) = trim s.
Proof.
  intros Hc. unfold trim.
  induction s as [|d s IH]; cbn [String.append trimStart].
  - now rewrite Hc.
  - destruct (is_space d); [exact IH|].
    exact (trimEnd_append_space (String d s) c Hc).
Qed.

Lemma hd_split_char_append (sep : ascii) (s tail : string) :
  includes_char tail sep = false ->
  hd EmptyString (split_char sep (s ++ tail))
  = if includes_char s sep then hd EmptyString (split_char sep s)
    else (hd EmptyString (split_char sep s) ++ tail)%string.
Proof.
  intros Htail. induction s as [|c s IH]; cbn [String.append includes_char].
  - now rewrite (split_char_no_separator sep tail Htail).
  - cbn [split_char]. destruct (Ascii.eqb c sep); [reflexivity|].
    pose proof (split_char_not_nil sep s). pose proof (split_char_not_nil sep (s ++ tail)).
    destruct (split_char sep s) as [|h t]; [contradiction|].
    destruct (split_char sep (s ++ tail)) as [|h' t']; [contradiction|].
    cbn [hd] in *. rewrite IH. now destruct (includes_char s sep).
Qed.

(** A carriage return at the end of a line does not change its first
    cell. *)
Lemma first_cell_return (line : string) :
  first_cell (line ++ String carriage_return EmptyString) = first_cell line.
Proof.
  unfold first_cell. rewrite hd_split_char_append by reflexivity.
  destruct (includes_char line ","); [reflexivity|].
  now apply trim_append_space.
Qed.

Lemma map_first_cell_returns (pieces : list string) :
  map first_cell (add_returns pieces) = map first_cell pieces.
Proof.
  induction pieces as [|p [|q ps] IH]; [reflexivity | reflexivity|].
  change (add_returns (p :: q :: ps))
    with ((p ++ String carriage_return EmptyString)%string :: add_returns (q :: ps)).
  cbn [map] in *. now rewrite first_cell_return, IH.
Qed.

(** X25.  The ZIP codes read from a file do not depend on its line
    ends: a file with a carriage return before each line feed gives the
    same ZIP codes as the file without them. *)
Theorem zipCodesFromFile_line_ends (text : string) :
  zipCodesFromFile (crlf text) = zipCodesFromFile text.
Proof.
  rewrite !zipCodesFromFile_eq, split_char_crlf, map_first_cell_returns. reflexivity.
Qed.

(** *** The wind rose *)

(** The sector of the rose for a whole number of degrees: sixteen sectors
    of 22.5 degrees, the first centred on the north. *)
Definition sector (d : Z) : Z := ((4 * d + 45) / 90) mod 16.

(** A whole number of degrees is written as an integer. *)
Definition written_as_integer (d : Z) : bool :=
  negb (is_nan (of_Z d)) && negb (of_Z d =? infinity)%float
  && negb (of_Z d =? neg_infinity)%float
  && match to_integer (of_Z d) with Some n => n =? d | None => false end.

Definition in_sector (d : Z) : bool :=
  written_as_integer d
  && match wind_index (of_Z d) with Some i => i =? sector d | None => false end.

Definition out_of_rose (d : Z) : bool :=
  written_as_integer d
  && match wind_index (of_Z d) with Some i => i <? 0 | None => false end.

Lemma in_sector_all (d : Z) : 0 <= d <= 360 -> in_sector d = true.
Proof.
  intros H. apply (all_from_range in_sector 0 361); [vm_cast_no_check (eq_refl true) | lia].
Qed.

Lemma out_of_rose_all (d : Z) : - 348 <= d <= - 12 -> out_of_rose d = true.
Proof.
  intros H.
  apply (all_from_range out_of_rose (- 348) 337); [vm_cast_no_check (eq_refl true) | lia].
Qed.

Lemma written (digits : float -> string) (d : Z) :
  - 1000 <= d <= 1000 -> written_as_integer d = true ->
  Number_toString digits (of_Z d) = int_toString d.
Proof.
  intros Hd H. unfold written_as_integer in H.
  repeat (apply andb_true_iff in H; destruct H as [H ?]).
  unfold Number_toString.
  repeat match goal with
         | E : negb ?b = true |- _ => apply negb_true_iff in E; rewrite E
         end.
  destruct (to_integer (of_Z d)) as [n|]; [|discriminate].
  match goal with E : (n =? d) = true |- _ => apply Z.eqb_eq in E; subst n end.
  destruct (Z.leb_spec (Z.abs d) (2 ^ 53)) as [_ | Hbig]; [reflexivity|].
  change (2 ^ 53) with 9007199254740992 in Hbig. lia.
Qed.

(** X26.  For a whole number of degrees from 0 to 360,
    [formatWindDirection] names the sector of the rose the direction lies
    in, sixteen sectors of 22.5 degrees with the first centred on the
    north, so that 360 degrees is the north again.  For a whole number
    from -348 to -12 the remainder is negative and no name is found: the
    text starts with the word undefined. *)
Theorem formatWindDirection_sectors (digits : float -> string) (d : Z) :
  (0 <= d <= 360 ->
   0 <= sector d < 16
   /\ formatWindDirection digits (of_Z d)
      = (nth (Z.to_nat (sector d)) directions EmptyString
         ++ " (" ++ int_toString d ++ String degree_sign ")")%string)
  /\ (- 348 <= d <= - 12 ->
      formatWindDirection digits (of_Z d)
      = ("undefined (" ++ int_toString d ++ String degree_sign ")")%string).
Proof.
  split.
  - intros Hd. pose proof (in_sector_all d Hd) as H. unfold in_sector in H.
    apply andb_true_iff in H. destruct H as [Hw Hi].
    assert (0 <= sector d < 16) as Hs by (unfold sector; apply Z.mod_pos_bound; lia).
    split; [exact Hs|].
    unfold formatWindDirection. rewrite (written digits d ltac:(lia) Hw).
    destruct (wind_index (of_Z d)) as [i|]; [|discriminate].
    apply Z.eqb_eq in Hi. subst i. unfold direction_at.
    destruct (Z.leb_spec 0 (sector d)); [|lia].
    rewrite (nth_indep directions "undefined"%string EmptyString); [reflexivity|].
    change (List.length directions) with 16%nat. lia.
  - intros Hd. pose proof (out_of_rose_all d Hd) as H. unfold out_of_rose in H.
    apply andb_true_iff in H. destruct H as [Hw Hi].
    unfold formatWindDirection. rewrite (written digits d ltac:(lia) Hw).
    destruct (wind_index (of_Z d)) as [i|]; [|discriminate].
    apply Z.ltb_lt in Hi. unfold direction_at.
    destruct (Z.leb_spec 0 i); [lia | reflexivity].
Qed.

(** 350 degrees is north, 90 is east, and -90 has no name. *)
Lemma formatWindDirection_sectors_witness :
  formatWindDirection (fun _ => EmptyString) (of_Z 350)
  = ("N (350" ++ String degree_sign ")")%string
  /\ formatWindDirection (fun _ => EmptyString) (of_Z 90)
     = ("E (90" ++ String degree_sign ")")%string
  /\ formatWindDirection (fun _ => EmptyString) (of_Z (- 90))
     = ("undefined (-90" ++ String degree_sign ")")%string.
Proof.
  split; [|split].
  - exact (proj2 (proj1 (formatWindDirection_sectors (fun _ => EmptyString) 350)
                        ltac:(lia))).
  - exact (proj2 (proj1 (formatWindDirection_sectors (fun _ => EmptyString) 90)
                        ltac:(lia))).
  - exact (proj2 (formatWindDirection_sectors (fun _ => EmptyString) (- 90)) ltac:(lia)).
Defined.

End StandardDisplayFacts.
